(** * turtlecoin-wallet-backend-js: SubWallets, ValidateParameters and
      ConventionalDaemon, embedded in Rocq.

    The TypeScript sources are translated function by function:
    - [number] is the IEEE 754 binary64 type of the kernel, so that rounding,
      [NaN] and the two zeros behave as they do in JavaScript;
    - a [Map<string, V>] and a [Set<string>] are lists in insertion order;
    - a call that may [throw] returns a [completion];
    - a method that mutates [this] returns the new state;
    - the classes whose file is not part of the sources at hand ([SubWallet],
      [WalletError], [Config], the helpers of [JsonSerialization]) are
      modelled from the specification and say so in their documentation.

    Part I holds the embedding, Part II the properties. *)

From Stdlib Require Import List String ZArith QArith Bool Lia Floats.
Import ListNotations.

Set Implicit Arguments.

(** * Part I: the embedding *)

(** ** JavaScript numbers *)

Module JsNumber.

Definition number : Type := float.

(** [a < b], [a > b], [a >= b], [a === b] and [a !== b] on numbers. *)
Definition lt (a b : number) : bool := (a <? b)%float.
Definition gt (a b : number) : bool := (b <? a)%float.
Definition ge (a b : number) : bool := (b <=? a)%float.
Definition strictEq (a b : number) : bool := (a =? b)%float.
Definition strictNe (a b : number) : bool := negb (a =? b)%float.

(** [Number.isInteger(x)]: [x] is finite and has no fractional part. A
    finite binary64 value is [m * 2^e]; it is an integer when [e >= 0] or
    when [2^(-e)] divides [m]. *)
Definition isInteger (x : number) : bool :=
  match Prim2SF x with
  | S754_zero _ => true
  | S754_finite _ m e => (0 <=? e)%Z || (Z.pos m mod 2 ^ (- e) =? 0)%Z
  | S754_infinity _ | S754_nan => false
  end.

(** The exact rational value of a finite number ([None] for the infinities
    and [NaN]). *)
Definition exactValue (x : number) : option Q :=
  match Prim2SF x with
  | S754_zero _ => Some 0%Q
  | S754_finite s m e =>
      Some ((if s then - inject_Z (Z.pos m) else inject_Z (Z.pos m))
            * Qpower 2 e)%Q
  | S754_infinity _ | S754_nan => None
  end.

(** The exact sum of a list of numbers, when all of them are finite. *)
Fixpoint exactSum (xs : list number) : option Q :=
  match xs with
  | [] => Some 0%Q
  | x :: rest =>
      match exactValue x, exactSum rest with
      | Some q, Some s => Some (q + s)%Q
      | _, _ => None
      end
  end.

(** [2 ** 64]. *)
Definition two64 : number := 0x1p64%float.

End JsNumber.

Import JsNumber.

(** ** Completions: a call returns a value or throws *)

Inductive completion (A : Type) : Type :=
| Return (a : A)
| Throw (message : string).

Arguments Return {A} a.
Arguments Throw {A} message.

Definition bind {A B : Type} (c : completion A) (k : A -> completion B)
  : completion B :=
  match c with
  | Return a => k a
  | Throw m => Throw m
  end.

(** [try { body } catch (err) { handler }]. *)
Definition tryCatch {A : Type} (body : completion A)
    (handler : string -> completion A) : completion A :=
  match body with
  | Return a => Return a
  | Throw err => handler err
  end.

Declare Scope completion_scope.
Delimit Scope completion_scope with completion.
Notation "x <- c ;; k" := (bind c (fun x => k))
  (at level 61, c at next level, right associativity) : completion_scope.
Notation "' p <- c ;; k" := (bind c (fun x => let p := x in k))
  (at level 61, p pattern, c at next level, right associativity)
  : completion_scope.

(** ** [Map<string, V>]: entries in insertion order *)

Module JsMap.

Section WithValue.
Variable V : Type.

Definition t : Type := list (string * V).

Definition keys (m : t) : list string := map fst m.
Definition values (m : t) : list V := map snd m.

(** [m.get(k)]. *)
Fixpoint get (k : string) (m : t) : option V :=
  match m with
  | [] => None
  | (k', v) :: rest => if String.eqb k' k then Some v else get k rest
  end.

(** [m.set(k, v)]: an existing key keeps its position. *)
Fixpoint set (k : string) (v : V) (m : t) : t :=
  match m with
  | [] => [(k, v)]
  | (k', v') :: rest =>
      if String.eqb k' k then (k', v) :: rest else (k', v') :: set k v rest
  end.

(** [new Map(entries)]. *)
Definition ofEntries (entries : list (string * V)) : t :=
  fold_left (fun m kv => set (fst kv) (snd kv) m) entries [].

(** What every [Map] satisfies: no key occurs twice. *)
Definition wf (m : t) : Prop := NoDup (keys m).

End WithValue.

End JsMap.

(** ** [Set<string>]: members in insertion order *)

Module JsSet.

Definition t : Type := list string.

(** [s.has(x)]. *)
Definition has (x : string) (s : t) : bool := existsb (String.eqb x) s.

(** [s.add(x)]. *)
Definition add (x : string) (s : t) : t := if has x s then s else s ++ [x].

(** [new Set(array)]. *)
Definition ofArray (array : list string) : t :=
  fold_left (fun s x => add x s) array [].

(** What every [Set] satisfies: no member occurs twice. *)
Definition wf (s : t) : Prop := NoDup s.

End JsSet.

(** ** lodash *)

Module Lodash.

(** [_.remove(array, predicate)] takes out, in place, every element the
    predicate accepts; the array keeps the others in their order. *)
Definition remove {A : Type} (predicate : A -> bool) (array : list A)
  : list A :=
  filter (fun x => negb (predicate x)) array.

(** [_.sumBy(array, iteratee)]: [0] for an empty array, otherwise the
    values added from left to right, starting from the first one. *)
Definition sumBy {A : Type} (iteratee : A -> number) (array : list A)
  : number :=
  match array with
  | [] => 0%float
  | x :: rest =>
      fold_left (fun acc y => (acc + iteratee y)%float) rest (iteratee x)
  end.

End Lodash.

(** ** Config.ts and WalletError.ts *)

(** Modelled from the spec: [Config.ts] is not among the sources; these are
    the options of section 6 that the translated functions read. Their values
    stay parameters. *)
Record Config : Type := {
  minimumFee : number;
  blockTargetTime : number;
  unlockTimeAsBlockHeightThreshold : number
}.

(** Modelled from the spec: [WalletError.ts] is not among the sources; the
    error kinds are those of section 7, under the names the callers use. *)
Module WalletErrorCode.

Inductive t : Type :=
| SUCCESS
| ADDRESS_NOT_VALID
| ADDRESS_IS_INTEGRATED
| ADDRESS_NOT_IN_WALLET
| NO_DESTINATIONS_GIVEN
| AMOUNT_IS_ZERO
| NEGATIVE_VALUE_GIVEN
| NON_INTEGER_GIVEN
| CONFLICTING_PAYMENT_IDS
| FEE_TOO_SMALL
| NOT_ENOUGH_BALANCE
| WILL_OVERFLOW
| MIXIN_TOO_SMALL
| MIXIN_TOO_BIG
| PAYMENT_ID_WRONG_LENGTH
| PAYMENT_ID_INVALID
| INVALID_MNEMONIC
| INVALID_KEY
| DAEMON_OFFLINE
| BLOCK_NOT_FOUND.

(** Two codes are the same or differ. *)
Definition eq_dec (a b : t) : {a = b} + {a <> b}.
Proof. decide equality. Defined.

End WalletErrorCode.

(** Modelled from the spec: a [WalletError] carries its code and the
    message some callers add; the message is empty when none is given. *)
Record WalletError : Type := {
  errorCode : WalletErrorCode.t;
  customMessage : string
}.

(** [new WalletError(errorCode)] and [new WalletError(errorCode, message)]. *)
Definition newWalletError (code : WalletErrorCode.t) : WalletError :=
  {| errorCode := code; customMessage := EmptyString |}.

Definition newWalletErrorWith (code : WalletErrorCode.t) (message : string)
  : WalletError :=
  {| errorCode := code; customMessage := message |}.

Definition SUCCESS : WalletError := newWalletError WalletErrorCode.SUCCESS.

(** ** Types.ts *)

(** Modelled from the spec: [JsonSerialization.ts] is not among the sources.
    Section 6 gives the persisted shapes: a transfer is
    [{ publicKey, amount }], a transaction private key is
    [{ transactionHash, txPrivateKey }]; the other JSON types have the
    fields that [toJSON] and [fromJSON] read and write. *)
Module TransferJSON.

Record t : Type := {
  publicKey : string;
  amount : number
}.

End TransferJSON.

Module TransactionJSON.

Record t : Type := {
  transfers : list TransferJSON.t;
  hash : string;
  fee : number;
  blockHeight : number;
  timestamp : number;
  paymentID : string;
  unlockTime : number;
  isCoinbaseTransaction : bool
}.

End TransactionJSON.

(** Modelled from the spec: [transfersToVector] of [JsonSerialization.ts]
    lists the entries of the map as [{ publicKey, amount }] objects. *)
Definition transfersToVector (transfers : JsMap.t number)
  : list TransferJSON.t :=
  map (fun kv => {| TransferJSON.publicKey := fst kv;
                    TransferJSON.amount := snd kv |}) transfers.

(** An object as the list of its own properties, for the one place where
    the name of a property matters. *)
Module JsObject.

Inductive value : Type :=
| Number (n : number)
| String (s : string)
| Boolean (b : bool)
| Transfers (array : list TransferJSON.t)
| TransfersMap (map : JsMap.t number).

Definition t : Type := JsMap.t value.

(** [Object.assign(target, ...sources)]: the properties of each source,
    in turn, are set on the target. *)
Definition assign (target : t) (sources : list t) : t :=
  fold_left
    (fun target source =>
       fold_left
         (fun target property =>
            JsMap.set (fst property) (snd property) target)
         source target)
    sources target.

End JsObject.

Module Transaction.

Record t : Type := {
  transfers : JsMap.t number;
  hash : string;
  fee : number;
  blockHeight : number;
  timestamp : number;
  paymentID : string;
  unlockTime : number;
  isCoinbaseTransaction : bool
}.

(** The properties of a [TransactionJSON]. *)
Definition jsonProperties (json : TransactionJSON.t) : JsObject.t :=
  [("transfers"%string, JsObject.Transfers (TransactionJSON.transfers json));
   ("hash"%string, JsObject.String (TransactionJSON.hash json));
   ("fee"%string, JsObject.Number (TransactionJSON.fee json));
   ("blockHeight"%string, JsObject.Number (TransactionJSON.blockHeight json));
   ("timestamp"%string, JsObject.Number (TransactionJSON.timestamp json));
   ("paymentID"%string, JsObject.String (TransactionJSON.paymentID json));
   ("unlockTime"%string, JsObject.Number (TransactionJSON.unlockTime json));
   ("isCoinbaseTransaction"%string,
    JsObject.Boolean (TransactionJSON.isCoinbaseTransaction json))].

(** [fromJSON], property by property:
    [Object.assign(transaction, json, { ... })] sets on the new object the
    properties of [json], then those of the literal, whose last key is
    spelt [isCoinbaseTransactions]. *)
Definition fromJSONProperties (json : TransactionJSON.t) : JsObject.t :=
  JsObject.assign []
    [jsonProperties json;
     [("transfers"%string,
       JsObject.TransfersMap
         (JsMap.ofEntries
            (map (fun x => (TransferJSON.publicKey x, TransferJSON.amount x))
                 (TransactionJSON.transfers json))));
      ("hash"%string, JsObject.String (TransactionJSON.hash json));
      ("fee"%string, JsObject.Number (TransactionJSON.fee json));
      ("blockHeight"%string,
       JsObject.Number (TransactionJSON.blockHeight json));
      ("timestamp"%string, JsObject.Number (TransactionJSON.timestamp json));
      ("paymentID"%string, JsObject.String (TransactionJSON.paymentID json));
      ("unlockTime"%string,
       JsObject.Number (TransactionJSON.unlockTime json));
      ("isCoinbaseTransactions"%string,
       JsObject.Boolean (TransactionJSON.isCoinbaseTransaction json))]].

(** The declared fields of a [Transaction], read from the properties of an
    object; [None] when one is missing or of another type. *)
Definition ofProperties (object : JsObject.t) : option t :=
  match JsMap.get "transfers" object, JsMap.get "hash" object,
        JsMap.get "fee" object, JsMap.get "blockHeight" object,
        JsMap.get "timestamp" object, JsMap.get "paymentID" object,
        JsMap.get "unlockTime" object,
        JsMap.get "isCoinbaseTransaction" object with
  | Some (JsObject.TransfersMap transfers), Some (JsObject.String hash),
    Some (JsObject.Number fee), Some (JsObject.Number blockHeight),
    Some (JsObject.Number timestamp), Some (JsObject.String paymentID),
    Some (JsObject.Number unlockTime),
    Some (JsObject.Boolean isCoinbaseTransaction) =>
      Some {| transfers := transfers;
              hash := hash;
              fee := fee;
              blockHeight := blockHeight;
              timestamp := timestamp;
              paymentID := paymentID;
              unlockTime := unlockTime;
              isCoinbaseTransaction := isCoinbaseTransaction |}
  | _, _, _, _, _, _, _, _ => None
  end.

(** [fromJSON] on the declared fields. The literal handed to
    [Object.assign] sets every declared field but one: since it spells the
    last key [isCoinbaseTransactions], the declared field
    [isCoinbaseTransaction] keeps the value copied from [json]. *)
Definition fromJSON (json : TransactionJSON.t) : t :=
  {| transfers :=
       JsMap.ofEntries
         (map (fun x => (TransferJSON.publicKey x, TransferJSON.amount x))
              (TransactionJSON.transfers json));
     hash := TransactionJSON.hash json;
     fee := TransactionJSON.fee json;
     blockHeight := TransactionJSON.blockHeight json;
     timestamp := TransactionJSON.timestamp json;
     paymentID := TransactionJSON.paymentID json;
     unlockTime := TransactionJSON.unlockTime json;
     isCoinbaseTransaction := TransactionJSON.isCoinbaseTransaction json |}.

Definition totalAmount (this : t) : number :=
  fold_left (fun sum kv => (sum + snd kv)%float) (transfers this) 0%float.

Definition isFusionTransaction (this : t) : bool :=
  strictEq (fee this) 0%float && negb (isCoinbaseTransaction this).

Definition toJSON (this : t) : TransactionJSON.t :=
  {| TransactionJSON.transfers := transfersToVector (transfers this);
     TransactionJSON.hash := hash this;
     TransactionJSON.fee := fee this;
     TransactionJSON.blockHeight := blockHeight this;
     TransactionJSON.timestamp := timestamp this;
     TransactionJSON.paymentID := paymentID this;
     TransactionJSON.unlockTime := unlockTime this;
     TransactionJSON.isCoinbaseTransaction := isCoinbaseTransaction this |}.

End Transaction.

Module TransactionInputJSON.

Record t : Type := {
  keyImage : string;
  amount : number;
  blockHeight : number;
  transactionPublicKey : string;
  transactionIndex : number;
  globalOutputIndex : number;
  key : string;
  spendHeight : number;
  unlockTime : number;
  parentTransactionHash : string
}.

End TransactionInputJSON.

Module TransactionInput.

Record t : Type := {
  keyImage : string;
  amount : number;
  blockHeight : number;
  transactionPublicKey : string;
  transactionIndex : number;
  globalOutputIndex : number;
  key : string;
  spendHeight : number;
  unlockTime : number;
  parentTransactionHash : string
}.

Definition fromJSON (json : TransactionInputJSON.t) : t :=
  {| keyImage := TransactionInputJSON.keyImage json;
     amount := TransactionInputJSON.amount json;
     blockHeight := TransactionInputJSON.blockHeight json;
     transactionPublicKey := TransactionInputJSON.transactionPublicKey json;
     transactionIndex := TransactionInputJSON.transactionIndex json;
     globalOutputIndex := TransactionInputJSON.globalOutputIndex json;
     key := TransactionInputJSON.key json;
     spendHeight := TransactionInputJSON.spendHeight json;
     unlockTime := TransactionInputJSON.unlockTime json;
     parentTransactionHash := TransactionInputJSON.parentTransactionHash json |}.

Definition toJSON (this : t) : TransactionInputJSON.t :=
  {| TransactionInputJSON.keyImage := keyImage this;
     TransactionInputJSON.amount := amount this;
     TransactionInputJSON.blockHeight := blockHeight this;
     TransactionInputJSON.transactionPublicKey := transactionPublicKey this;
     TransactionInputJSON.transactionIndex := transactionIndex this;
     TransactionInputJSON.globalOutputIndex := globalOutputIndex this;
     TransactionInputJSON.key := key this;
     TransactionInputJSON.spendHeight := spendHeight this;
     TransactionInputJSON.unlockTime := unlockTime this;
     TransactionInputJSON.parentTransactionHash := parentTransactionHash this |}.

End TransactionInput.

Module UnconfirmedInputJSON.

Record t : Type := {
  amount : number;
  key : string;
  parentTransactionHash : string
}.

End UnconfirmedInputJSON.

Module UnconfirmedInput.

Record t : Type := {
  amount : number;
  key : string;
  parentTransactionHash : string
}.

Definition fromJSON (json : UnconfirmedInputJSON.t) : t :=
  {| amount := UnconfirmedInputJSON.amount json;
     key := UnconfirmedInputJSON.key json;
     parentTransactionHash := UnconfirmedInputJSON.parentTransactionHash json |}.

Definition toJSON (this : t) : UnconfirmedInputJSON.t :=
  {| UnconfirmedInputJSON.amount := amount this;
     UnconfirmedInputJSON.key := key this;
     UnconfirmedInputJSON.parentTransactionHash := parentTransactionHash this |}.

End UnconfirmedInput.

(** ** SubWallet.ts *)

Module SubWalletJSON.

Record t : Type := {
  publicSpendKey : string;
  address : string;
  scanHeight : number;
  creationTimestamp : number;
  privateSpendKey : option string;
  inputs : list TransactionInputJSON.t;
  lockedInputs : list UnconfirmedInputJSON.t;
  keyImages : list string
}.

End SubWalletJSON.

Module SubWallet.

(** Modelled from the spec: [SubWallet.ts] is not among the sources. The
    fields are those of section 3 ([privateSpendKey] is absent in a view-only
    subwallet); the operations below follow the contracts of section 4.C. *)
Record t : Type := {
  address : string;
  publicSpendKey : string;
  privateSpendKey : option string;
  scanHeight : number;
  creationTimestamp : number;
  inputs : list TransactionInput.t;
  lockedInputs : list UnconfirmedInput.t;
  keyImages : JsSet.t
}.

(** Modelled from the spec: [hasKeyImage(k)] is membership in [keyImages]. *)
Definition hasKeyImage (keyImage : string) (this : t) : bool :=
  JsSet.has keyImage (keyImages this).

Section WithClock.
Variable config : Config.
Variable nowSeconds : number.

(** Modelled from the spec: an unlock time below
    [unlockTimeAsBlockHeightThreshold] is a block height, reached when
    [currentHeight >= unlockTime]; any other is a time in seconds, reached
    when [nowSeconds() >= unlockTime]. *)
Definition isInputUnlocked (unlockTime currentHeight : number) : bool :=
  if lt unlockTime (unlockTimeAsBlockHeightThreshold config)
  then ge currentHeight unlockTime
  else ge nowSeconds unlockTime.

(** Modelled from the spec: [getBalance(currentHeight)] adds up the inputs
    with [spendHeight == 0], the unlocked ones on the left and the others on
    the right. *)
Definition getBalance (currentHeight : number) (this : t)
  : number * number :=
  fold_left
    (fun balance input =>
       if strictEq (TransactionInput.spendHeight input) 0%float then
         if isInputUnlocked (TransactionInput.unlockTime input) currentHeight
         then ((fst balance + TransactionInput.amount input)%float,
               snd balance)
         else (fst balance,
               (snd balance + TransactionInput.amount input)%float)
       else balance)
    (inputs this) (0%float, 0%float).

End WithClock.

(** Modelled from the spec: [removeForkedTransactions(forkHeight)] drops
    every input with [blockHeight >= forkHeight] and resets [spendHeight] to
    [0] on the inputs with [spendHeight >= forkHeight]. *)
Definition removeForkedTransactions (forkHeight : number) (this : t) : t :=
  {| address := address this;
     publicSpendKey := publicSpendKey this;
     privateSpendKey := privateSpendKey this;
     scanHeight := scanHeight this;
     creationTimestamp := creationTimestamp this;
     inputs :=
       map (fun input =>
              if ge (TransactionInput.spendHeight input) forkHeight then
                {| TransactionInput.keyImage :=
                     TransactionInput.keyImage input;
                   TransactionInput.amount := TransactionInput.amount input;
                   TransactionInput.blockHeight :=
                     TransactionInput.blockHeight input;
                   TransactionInput.transactionPublicKey :=
                     TransactionInput.transactionPublicKey input;
                   TransactionInput.transactionIndex :=
                     TransactionInput.transactionIndex input;
                   TransactionInput.globalOutputIndex :=
                     TransactionInput.globalOutputIndex input;
                   TransactionInput.key := TransactionInput.key input;
                   TransactionInput.spendHeight := 0%float;
                   TransactionInput.unlockTime :=
                     TransactionInput.unlockTime input;
                   TransactionInput.parentTransactionHash :=
                     TransactionInput.parentTransactionHash input |}
              else input)
           (Lodash.remove
              (fun input => ge (TransactionInput.blockHeight input) forkHeight)
              (inputs this));
     lockedInputs := lockedInputs this;
     keyImages := keyImages this |}.

(** Modelled from the spec: the persisted subwallet of section 6 has one
    JSON field per field of the class; the inputs are written by their own
    [toJSON] and the key-image set as an array. *)
Definition toJSON (this : t) : SubWalletJSON.t :=
  {| SubWalletJSON.publicSpendKey := publicSpendKey this;
     SubWalletJSON.address := address this;
     SubWalletJSON.scanHeight := scanHeight this;
     SubWalletJSON.creationTimestamp := creationTimestamp this;
     SubWalletJSON.privateSpendKey := privateSpendKey this;
     SubWalletJSON.inputs := map TransactionInput.toJSON (inputs this);
     SubWalletJSON.lockedInputs :=
       map UnconfirmedInput.toJSON (lockedInputs this);
     SubWalletJSON.keyImages := keyImages this |}.

(** Modelled from the spec: the reverse of [toJSON]; the set is rebuilt
    with [new Set(json.keyImages)]. *)
Definition fromJSON (json : SubWalletJSON.t) : t :=
  {| address := SubWalletJSON.address json;
     publicSpendKey := SubWalletJSON.publicSpendKey json;
     privateSpendKey := SubWalletJSON.privateSpendKey json;
     scanHeight := SubWalletJSON.scanHeight json;
     creationTimestamp := SubWalletJSON.creationTimestamp json;
     inputs := map TransactionInput.fromJSON (SubWalletJSON.inputs json);
     lockedInputs :=
       map UnconfirmedInput.fromJSON (SubWalletJSON.lockedInputs json);
     keyImages := JsSet.ofArray (SubWalletJSON.keyImages json) |}.

End SubWallet.

(** ** SubWallets.ts *)

Module TxPrivateKeyJSON.

Record t : Type := {
  transactionHash : string;
  txPrivateKey : string
}.

End TxPrivateKeyJSON.

(** Modelled from the spec: [txPrivateKeysToVector] of
    [JsonSerialization.ts] lists the entries of the map as
    [{ transactionHash, txPrivateKey }] objects. *)
Definition txPrivateKeysToVector (txPrivateKeys : JsMap.t string)
  : list TxPrivateKeyJSON.t :=
  map (fun kv => {| TxPrivateKeyJSON.transactionHash := fst kv;
                    TxPrivateKeyJSON.txPrivateKey := snd kv |}) txPrivateKeys.

Module SubWalletsJSON.

Record t : Type := {
  publicSpendKeys : list string;
  subWallet : list SubWalletJSON.t;
  transactions : list TransactionJSON.t;
  lockedTransactions : list TransactionJSON.t;
  privateViewKey : string;
  isViewWallet : bool;
  txPrivateKeys : list TxPrivateKeyJSON.t
}.

End SubWalletsJSON.

Module SubWallets.

Record t : Type := {
  isViewWallet : bool;
  publicSpendKeys : list string;
  subWallets : JsMap.t SubWallet.t;
  transactions : list Transaction.t;
  lockedTransactions : list Transaction.t;
  privateViewKey : string;
  transactionPrivateKeys : JsMap.t string
}.

(** The literal handed to [Object.assign] sets each of the seven declared
    fields. *)
Definition fromJSON (json : SubWalletsJSON.t) : t :=
  {| publicSpendKeys := SubWalletsJSON.publicSpendKeys json;
     subWallets :=
       JsMap.ofEntries
         (map (fun x => (SubWalletJSON.publicSpendKey x, SubWallet.fromJSON x))
              (SubWalletsJSON.subWallet json));
     transactions :=
       map Transaction.fromJSON (SubWalletsJSON.transactions json);
     lockedTransactions :=
       map Transaction.fromJSON (SubWalletsJSON.lockedTransactions json);
     privateViewKey := SubWalletsJSON.privateViewKey json;
     isViewWallet := SubWalletsJSON.isViewWallet json;
     transactionPrivateKeys :=
       JsMap.ofEntries
         (map (fun x => (TxPrivateKeyJSON.transactionHash x,
                         TxPrivateKeyJSON.txPrivateKey x))
              (SubWalletsJSON.txPrivateKeys json)) |}.

Definition toJSON (this : t) : SubWalletsJSON.t :=
  {| SubWalletsJSON.publicSpendKeys := publicSpendKeys this;
     SubWalletsJSON.subWallet :=
       map SubWallet.toJSON (JsMap.values (subWallets this));
     SubWalletsJSON.transactions := map Transaction.toJSON (transactions this);
     SubWalletsJSON.lockedTransactions :=
       map Transaction.toJSON (lockedTransactions this);
     SubWalletsJSON.privateViewKey := privateViewKey this;
     SubWalletsJSON.isViewWallet := isViewWallet this;
     SubWalletsJSON.txPrivateKeys :=
       txPrivateKeysToVector (transactionPrivateKeys this) |}.

(** The two arrays of transactions are the only fields the next methods
    assign. *)
Definition withTransactions (transactions' lockedTransactions'
    : list Transaction.t) (this : t) : t :=
  {| isViewWallet := isViewWallet this;
     publicSpendKeys := publicSpendKeys this;
     subWallets := subWallets this;
     transactions := transactions';
     lockedTransactions := lockedTransactions';
     privateViewKey := privateViewKey this;
     transactionPrivateKeys := transactionPrivateKeys this |}.

(** [addTransaction(transaction)]: the state it leaves behind, and whether
    it returned or threw. The locked transactions are removed before the
    test, so they stay removed when the method throws. *)
Definition addTransaction (transaction : Transaction.t) (this : t)
  : t * completion unit :=
  let sameHash (tx : Transaction.t) : bool :=
    String.eqb (Transaction.hash tx) (Transaction.hash transaction) in
  let lockedTransactions' :=
    Lodash.remove sameHash (lockedTransactions this) in
  if existsb sameHash (transactions this)
  then
    (withTransactions (transactions this) lockedTransactions' this,
     Throw ("Transaction " ++ Transaction.hash transaction
            ++ " was added to the wallet twice!"))
  else
    (withTransactions (transactions this ++ [transaction])
                      lockedTransactions' this,
     Return tt).

(** [removeForkedTransactions(forkHeight)]. *)
Definition removeForkedTransactions (forkHeight : number) (this : t) : t :=
  {| isViewWallet := isViewWallet this;
     publicSpendKeys := publicSpendKeys this;
     subWallets :=
       map (fun entry =>
              (fst entry,
               SubWallet.removeForkedTransactions forkHeight (snd entry)))
           (subWallets this);
     transactions :=
       Lodash.remove (fun tx => ge (Transaction.blockHeight tx) forkHeight)
                     (transactions this);
     lockedTransactions := lockedTransactions this;
     privateViewKey := privateViewKey this;
     transactionPrivateKeys := transactionPrivateKeys this |}.

(** The loop of [getKeyImageOwner] over the entries of the map. *)
Fixpoint findKeyImageOwner (keyImage : string)
    (entries : list (string * SubWallet.t)) : bool * string :=
  match entries with
  | [] => (false, EmptyString)
  | (publicKey, subWallet) :: rest =>
      if SubWallet.hasKeyImage keyImage subWallet then (true, publicKey)
      else findKeyImageOwner keyImage rest
  end.

(** [getKeyImageOwner(keyImage)]. *)
Definition getKeyImageOwner (keyImage : string) (this : t) : bool * string :=
  if isViewWallet this then (false, EmptyString)
  else findKeyImageOwner keyImage (subWallets this).

(** [getPublicSpendKeys()]. *)
Definition getPublicSpendKeys (this : t) : list string := publicSpendKeys this.

Section WithClock.
Variable config : Config.
Variable nowSeconds : number.

(** The loop of [getBalance] over the chosen keys, with the two running
    sums. *)
Fixpoint sumBalances (currentHeight : number) (this : t)
    (subWalletsToTakeFrom : list string)
    (unlockedBalance lockedBalance : number) : completion (number * number) :=
  match subWalletsToTakeFrom with
  | [] => Return (unlockedBalance, lockedBalance)
  | publicSpendKey :: rest =>
      match JsMap.get publicSpendKey (subWallets this) with
      | None => Throw "Subwallet not found!"
      | Some subWallet =>
          let balance :=
            SubWallet.getBalance config nowSeconds currentHeight subWallet in
          sumBalances currentHeight this rest
            (unlockedBalance + fst balance)%float
            (lockedBalance + snd balance)%float
      end
  end.

(** [getBalance(currentHeight, subWalletsToTakeFrom?)]; [None] is the
    omitted argument. *)
Definition getBalance (currentHeight : number)
    (subWalletsToTakeFrom : option (list string)) (this : t)
  : completion (number * number) :=
  let subWalletsToTakeFrom :=
    match subWalletsToTakeFrom with
    | None => publicSpendKeys this
    | Some keys => keys
    end in
  sumBalances currentHeight this subWalletsToTakeFrom 0%float 0%float.

End WithClock.

(** [getPrivateViewKey()]. *)
Definition getPrivateViewKey (this : t) : string := privateViewKey this.

(** [getLockedTransactionHashes()]. *)
Definition getLockedTransactionHashes (this : t) : list string :=
  map Transaction.hash (lockedTransactions this).

(** The map of subwallets is the only field the next methods change. *)
Definition withSubWallets (subWallets' : JsMap.t SubWallet.t) (this : t)
  : t :=
  {| isViewWallet := isViewWallet this;
     publicSpendKeys := publicSpendKeys this;
     subWallets := subWallets';
     transactions := transactions this;
     lockedTransactions := lockedTransactions this;
     privateViewKey := privateViewKey this;
     transactionPrivateKeys := transactionPrivateKeys this |}.

(** [s.repeat(n)]. *)
Fixpoint repeatString (s : string) (n : nat) : string :=
  match n with
  | O => EmptyString
  | S n' => (s ++ repeatString s n')%string
  end.

Section WithSubWalletMethods.

(** The methods of [SubWallet] that the next methods call; [SubWallet.ts]
    is not among the sources, so they stay parameters. Each one is given the
    subwallet and returns the subwallet it leaves behind; the two that act
    on one input also say whether they returned or threw, and the key image
    is returned or its computation throws. *)
Variable subWalletStoreTransactionInput :
  TransactionInput.t -> bool -> SubWallet.t -> SubWallet.t * completion unit.
Variable subWalletMarkInputAsSpent :
  string -> number -> SubWallet.t -> SubWallet.t * completion unit.
Variable subWalletRemoveCancelledTransaction :
  string -> SubWallet.t -> SubWallet.t.
Variable subWalletConvertSyncTimestampToHeight :
  number -> number -> SubWallet.t -> SubWallet.t.
Variable subWalletGetTxInputKeyImage :
  string -> number -> SubWallet.t -> completion string.

(** [storeTransactionInput(publicSpendKey, input)]; the subwallet found in
    the map is changed where it stands. *)
Definition storeTransactionInput (publicSpendKey : string)
    (input : TransactionInput.t) (this : t) : t * completion unit :=
  match JsMap.get publicSpendKey (subWallets this) with
  | None => (this, Throw "Subwallet not found!")
  | Some subWallet =>
      let result :=
        subWalletStoreTransactionInput input (isViewWallet this) subWallet in
      (withSubWallets
         (JsMap.set publicSpendKey (fst result) (subWallets this)) this,
       snd result)
  end.

(** [markInputAsSpent(publicSpendKey, keyImage, spendHeight)]. *)
Definition markInputAsSpent (publicSpendKey keyImage : string)
    (spendHeight : number) (this : t) : t * completion unit :=
  match JsMap.get publicSpendKey (subWallets this) with
  | None => (this, Throw "Subwallet not found!")
  | Some subWallet =>
      let result := subWalletMarkInputAsSpent keyImage spendHeight subWallet in
      (withSubWallets
         (JsMap.set publicSpendKey (fst result) (subWallets this)) this,
       snd result)
  end.

(** [removeCancelledTransaction(transactionHash)]. *)
Definition removeCancelledTransaction (transactionHash : string) (this : t)
  : t :=
  {| isViewWallet := isViewWallet this;
     publicSpendKeys := publicSpendKeys this;
     subWallets :=
       map (fun entry =>
              (fst entry,
               subWalletRemoveCancelledTransaction transactionHash
                 (snd entry)))
           (subWallets this);
     transactions := transactions this;
     lockedTransactions :=
       Lodash.remove
         (fun tx => String.eqb (Transaction.hash tx) transactionHash)
         (lockedTransactions this);
     privateViewKey := privateViewKey this;
     transactionPrivateKeys := transactionPrivateKeys this |}.

(** [convertSyncTimestampToHeight(timestamp, height)]. *)
Definition convertSyncTimestampToHeight (timestamp height : number)
    (this : t) : t :=
  withSubWallets
    (map (fun entry =>
            (fst entry,
             subWalletConvertSyncTimestampToHeight timestamp height
               (snd entry)))
         (subWallets this))
    this.

(** [getTxInputKeyImage(publicSpendKey, derivation, outputIndex)]; the
    subwallet is looked up before the wallet is asked whether it is a view
    wallet. *)
Definition getTxInputKeyImage (publicSpendKey derivation : string)
    (outputIndex : number) (this : t) : completion string :=
  match JsMap.get publicSpendKey (subWallets this) with
  | None => Throw "Subwallet not found!"
  | Some subWallet =>
      if isViewWallet this then Return (repeatString "0" 64)
      else subWalletGetTxInputKeyImage derivation outputIndex subWallet
  end.

(** The calls that change a wallet, and the state each one leaves behind,
    whether it returns or throws. *)
Inductive mutation : Type :=
| AddTransaction (transaction : Transaction.t)
| StoreTransactionInput (publicSpendKey : string) (input : TransactionInput.t)
| MarkInputAsSpent (publicSpendKey keyImage : string) (spendHeight : number)
| RemoveCancelledTransaction (transactionHash : string)
| RemoveForkedTransactions (forkHeight : number)
| ConvertSyncTimestampToHeight (timestamp height : number).

Definition mutate (call : mutation) (this : t) : t :=
  match call with
  | AddTransaction transaction => fst (addTransaction transaction this)
  | StoreTransactionInput publicSpendKey input =>
      fst (storeTransactionInput publicSpendKey input this)
  | MarkInputAsSpent publicSpendKey keyImage spendHeight =>
      fst (markInputAsSpent publicSpendKey keyImage spendHeight this)
  | RemoveCancelledTransaction transactionHash =>
      removeCancelledTransaction transactionHash this
  | RemoveForkedTransactions forkHeight =>
      removeForkedTransactions forkHeight this
  | ConvertSyncTimestampToHeight timestamp height =>
      convertSyncTimestampToHeight timestamp height this
  end.

End WithSubWalletMethods.

Section WithSubWalletGetters.

(** [isPrimaryAddress()], [getAddress()] and [getPrivateSpendKey()] of
    [SubWallet], parameters like the methods above. *)
Variable subWalletIsPrimaryAddress : SubWallet.t -> bool.
Variable subWalletGetAddress : SubWallet.t -> string.
Variable subWalletGetPrivateSpendKey : SubWallet.t -> string.

(** [getPrivateSpendKey(publicSpendKey)]. *)
Definition getPrivateSpendKey (publicSpendKey : string) (this : t)
  : WalletError * string :=
  match JsMap.get publicSpendKey (subWallets this) with
  | None =>
      (newWalletError WalletErrorCode.ADDRESS_NOT_IN_WALLET, EmptyString)
  | Some subWallet => (SUCCESS, subWalletGetPrivateSpendKey subWallet)
  end.

(** The loop of [getPrimarySubWallet] over the entries of the map. *)
Fixpoint findPrimarySubWallet (entries : list (string * SubWallet.t))
  : completion SubWallet.t :=
  match entries with
  | [] => Throw "Wallet has no primary address!"
  | (publicKey, subWallet) :: rest =>
      if subWalletIsPrimaryAddress subWallet then Return subWallet
      else findPrimarySubWallet rest
  end.

Definition getPrimarySubWallet (this : t) : completion SubWallet.t :=
  findPrimarySubWallet (subWallets this).

Definition getPrimaryAddress (this : t) : completion string :=
  (subWallet <- getPrimarySubWallet this ;;
   Return (subWalletGetAddress subWallet))%completion.

Definition getPrimaryPrivateSpendKey (this : t) : completion string :=
  (subWallet <- getPrimarySubWallet this ;;
   Return (subWalletGetPrivateSpendKey subWallet))%completion.

(** [getAddresses()]: the loop pushes the address of each subwallet. *)
Definition getAddresses (this : t) : list string :=
  fold_left
    (fun addresses entry => addresses ++ [subWalletGetAddress (snd entry)])
    (subWallets this) [].

End WithSubWalletGetters.

End SubWallets.

(** ** Untyped values *)

(** The connection to the daemon is declared [any]: what
    [await this.daemon.fee()] gives is whatever the daemon sent, parsed from
    JSON, or [undefined]; the types that [ConventionalDaemon.ts] writes next
    to it are not checked when the program runs. *)
Module JsValue.

#[warnings="-register-all"]
Inductive t : Type :=
| Undefined
| Null
| Boolean (b : bool)
| Number (n : number)
| String (s : string)
| Array (elements : list t)
| Object (properties : JsMap.t t).

(** [v.name], for a name that no prototype defines (such as [status],
    [address] and [amount]): reading a property of [undefined] or [null]
    throws a [TypeError]; a boolean, a number, a string and an array have no
    such property; an object parsed from JSON has the properties of its
    text. *)
Definition get (name : string) (v : t) : completion t :=
  match v with
  | Undefined =>
      Throw ("TypeError: Cannot read properties of undefined (reading '"
             ++ name ++ "')")
  | Null =>
      Throw ("TypeError: Cannot read properties of null (reading '"
             ++ name ++ "')")
  | Object properties =>
      match JsMap.get name properties with
      | Some value => Return value
      | None => Return Undefined
      end
  | Boolean _ | Number _ | String _ | Array _ => Return Undefined
  end.

(** [v !== s] for a string [s]. *)
Definition strictNeString (v : t) (s : string) : bool :=
  match v with
  | String s' => negb (String.eqb s' s)
  | _ => true
  end.

(** A number that can be the length of an array: an integer from 0 to
    [2 ** 32 - 1]. *)
Definition isArrayLength (n : number) : bool :=
  isInteger n && ge n 0%float && lt n 0x1p32%float.

(** The natural number that a number which is a length stands for. *)
Definition toNat (n : number) : nat :=
  match Prim2SF n with
  | S754_finite false m e => Z.to_nat (Z.shiftl (Z.pos m) e)
  | _ => 0%nat
  end.

(** [new Array(v)]: a number is taken for the length of the new array, whose
    elements are all missing (such an array yields [undefined] for each when
    it is iterated), and throws a [RangeError] when it cannot be a length;
    any other value becomes the only element. *)
Definition newArray (v : t) : completion (list t) :=
  match v with
  | Number n =>
      if isArrayLength n then Return (repeat Undefined (toNat n))
      else Throw "RangeError: Invalid array length"
  | _ => Return [v]
  end.

Section WithConversions.

(** [StringToNumber] and [Number::toString] of ECMAScript. *)
Variable stringToNumber : string -> number.
Variable numberToString : number -> string.

(** [ToString(v)]. An array is joined with commas, [undefined] and [null]
    elements giving the empty string. An object parsed from JSON inherits
    [toString] from [Object.prototype] unless it has a property of this name
    itself, which is no function: then no method gives a primitive value and
    the conversion throws. *)
Fixpoint toString (v : t) : completion string :=
  match v with
  | Undefined => Return "undefined"%string
  | Null => Return "null"%string
  | Boolean b => Return (if b then "true" else "false")%string
  | Number n => Return (numberToString n)
  | String s => Return s
  | Array elements =>
      (fix join (elements : list t) : completion string :=
         match elements with
         | [] => Return EmptyString
         | element :: rest =>
             (head <- match element with
                      | Undefined | Null => Return EmptyString
                      | _ => toString element
                      end ;;
              match rest with
              | [] => Return head
              | _ :: _ =>
                  (tail <- join rest ;; Return (head ++ "," ++ tail)%string)
              end)%completion
         end) elements
  | Object properties =>
      match JsMap.get "toString" properties with
      | Some _ => Throw "TypeError: Cannot convert object to primitive value"
      | None => Return "[object Object]"%string
      end
  end.

(** [ToNumber(v)]; an array or an object is first converted to a string. *)
Definition toNumber (v : t) : completion number :=
  match v with
  | Undefined => Return nan
  | Null => Return 0%float
  | Boolean b => Return (if b then 1%float else 0%float)
  | Number n => Return n
  | String s => Return (stringToNumber s)
  | Array _ | Object _ =>
      (s <- toString v ;; Return (stringToNumber s))%completion
  end.

(** [v > n] for a number [n]. *)
Definition gtNumber (v : t) (n : number) : completion bool :=
  (x <- toNumber v ;; Return (gt x n))%completion.

End WithConversions.

End JsValue.

(** ** ConventionalDaemon.ts *)

(** What the daemon answers to [info()]. *)
Module DaemonInfo.

Record t : Type := {
  height : number;
  network_height : number;
  incoming_connections_count : number;
  outgoing_connections_count : number;
  difficulty : number
}.

End DaemonInfo.

Module ConventionalDaemon.

(** The fields of the class, the connection itself apart: its answers are
    arguments of the methods that await them. [feeAddress] and [feeAmount]
    are declared [string] and [number] and start as such; they hold what
    [updateFeeInfo] assigns, which comes from the untyped answer. *)
Record t : Type := {
  daemonHost : string;
  daemonPort : number;
  feeAddress : JsValue.t;
  feeAmount : JsValue.t;
  localDaemonBlockCount : number;
  networkBlockCount : number;
  peerCount : number;
  lastKnownHashrate : number
}.

(** [new ConventionalDaemon(daemonHost, daemonPort)]. *)
Definition new (daemonHost : string) (daemonPort : number) : t :=
  {| daemonHost := daemonHost;
     daemonPort := daemonPort;
     feeAddress := JsValue.String EmptyString;
     feeAmount := JsValue.Number 0%float;
     localDaemonBlockCount := 0%float;
     networkBlockCount := 0%float;
     peerCount := 0%float;
     lastKnownHashrate := 0%float |}.

Definition getNetworkBlockCount (this : t) : number := networkBlockCount this.

Definition getLocalDaemonBlockCount (this : t) : number :=
  localDaemonBlockCount this.

Section WithConfig.
Variable config : Config.

(** [updateDaemonInfo()], given the outcome of [await this.daemon.info()]:
    a rejected call leaves the daemon as it was. *)
Definition updateDaemonInfo (response : completion DaemonInfo.t) (this : t)
  : t :=
  match response with
  | Throw _ => this
  | Return info =>
      let networkBlockCount := DaemonInfo.network_height info in
      let networkBlockCount :=
        if strictNe networkBlockCount 0%float
        then (networkBlockCount - 1)%float
        else networkBlockCount in
      {| daemonHost := daemonHost this;
         daemonPort := daemonPort this;
         feeAddress := feeAddress this;
         feeAmount := feeAmount this;
         localDaemonBlockCount := DaemonInfo.height info;
         networkBlockCount := networkBlockCount;
         peerCount :=
           (DaemonInfo.incoming_connections_count info
            + DaemonInfo.outgoing_connections_count info)%float;
         lastKnownHashrate :=
           (DaemonInfo.difficulty info / blockTargetTime config)%float |}
  end.

End WithConfig.

(** An element of the daemon's answer to [getGlobalIndexesForRange]. *)
Record globalIndexes : Type := {
  key : string;
  value : list number
}.

(** [getGlobalIndexesForRange(startHeight, endHeight)], given the outcome
    of the awaited call: the map from transaction hash to global indexes,
    or the rejection passed on. *)
Definition getGlobalIndexesForRange
    (response : completion (list globalIndexes))
  : completion (JsMap.t (list number)) :=
  (data <- response ;;
   Return
     (fold_left (fun indexes index => JsMap.set (key index) (value index) indexes)
                data []))%completion.

End ConventionalDaemon.

(** ** ValidateParameters.ts *)

(** What [CryptoUtils.decodeAddress] returns, as far as the validation
    reads it. *)
Module DecodedAddress.

Record t : Type := {
  publicSpendKey : string;
  paymentId : string
}.

End DecodedAddress.

Module ValidateParameters.

Section WithCollaborators.
Variable config : Config.
Variable nowSeconds : number.

(** [CryptoUtils.decodeAddress] belongs to another package: it returns the
    decoded address or throws, the message being [err.toString()]. *)
Variable decodeAddress : string -> completion DecodedAddress.t.

(** The body of the loop of [validateAddresses]: [Some error] when it
    returns from the function, [None] when the loop goes on. The [try]
    encloses the whole body. *)
Definition validateAddress (address : string)
    (integratedAddressesAllowed : bool) : completion (option WalletError) :=
  tryCatch
    (parsed <- decodeAddress address ;;
     if negb (String.length (DecodedAddress.paymentId parsed) =? 0)%nat
        && negb integratedAddressesAllowed
     then Return (Some (newWalletError WalletErrorCode.ADDRESS_IS_INTEGRATED))
     else Return None)%completion
    (fun err =>
       Return (Some (newWalletErrorWith WalletErrorCode.ADDRESS_NOT_VALID err))).

(** [validateAddresses(addresses, integratedAddressesAllowed)]. *)
Fixpoint validateAddresses (addresses : list string)
    (integratedAddressesAllowed : bool) : completion WalletError :=
  match addresses with
  | [] => Return (newWalletError WalletErrorCode.SUCCESS)
  | address :: rest =>
      (returned <- validateAddress address integratedAddressesAllowed ;;
       match returned with
       | Some error => Return error
       | None => validateAddresses rest integratedAddressesAllowed
       end)%completion
  end.

(** [validateAmount(destinations, fee, subWalletsToTakeFrom, subWallets,
    currentHeight)]. *)
Definition validateAmount (destinations : list (string * number))
    (fee : number) (subWalletsToTakeFrom : list string)
    (subWallets : SubWallets.t) (currentHeight : number)
  : completion WalletError :=
  if lt fee (minimumFee config) then
    Return (newWalletError WalletErrorCode.FEE_TOO_SMALL)
  else if isInteger fee then
    Return (newWalletError WalletErrorCode.NON_INTEGER_GIVEN)
  else
    (balance <- SubWallets.getBalance config nowSeconds currentHeight
                  (Some subWalletsToTakeFrom) subWallets ;;
     let availableBalance := fst balance in
     let totalAmount := (Lodash.sumBy snd destinations + fee)%float in
     if gt totalAmount availableBalance then
       Return (newWalletError WalletErrorCode.NOT_ENOUGH_BALANCE)
     else if ge totalAmount two64 then
       Return (newWalletError WalletErrorCode.WILL_OVERFLOW)
     else Return SUCCESS)%completion.

(** The loop of [validateDestinations]; [destinationAddresses] is the array
    the loop pushes onto. *)
Fixpoint validateDestinationAmounts (destinations : list (string * number))
    (destinationAddresses : list string) : completion WalletError :=
  match destinations with
  | [] => validateAddresses destinationAddresses true
  | (destination, amount) :: rest =>
      if strictEq amount 0%float then
        Return (newWalletError WalletErrorCode.AMOUNT_IS_ZERO)
      else if lt amount 0%float then
        Return (newWalletError WalletErrorCode.NEGATIVE_VALUE_GIVEN)
      else if negb (isInteger amount) then
        Return (newWalletError WalletErrorCode.NON_INTEGER_GIVEN)
      else
        validateDestinationAmounts rest (destinationAddresses ++ [destination])
  end.

(** [validateDestinations(destinations)]. *)
Definition validateDestinations (destinations : list (string * number))
  : completion WalletError :=
  if (List.length destinations =? 0)%nat then
    Return (newWalletError WalletErrorCode.NO_DESTINATIONS_GIVEN)
  else validateDestinationAmounts destinations [].

(** [s.length] as a number. *)
Definition lengthOf (s : string) : number :=
  PrimFloat.of_uint63 (Uint63.of_Z (Z.of_nat (String.length s))).

(** [config.integratedAddressLength]; [Config.ts] is not among the
    sources. *)
Variable integratedAddressLength : number.

(** [validateIntegratedAddresses(destinations, paymentID)]; here
    [decodeAddress] is called outside any [try]. *)
Fixpoint validateIntegratedAddresses (destinations : list (string * number))
    (paymentID : string) : completion WalletError :=
  match destinations with
  | [] => Return SUCCESS
  | (destination, amount) :: rest =>
      if strictNe (lengthOf destination) integratedAddressLength then
        validateIntegratedAddresses rest paymentID
      else
        (parsedAddress <- decodeAddress destination ;;
         if String.eqb paymentID EmptyString then
           validateIntegratedAddresses rest
             (DecodedAddress.paymentId parsedAddress)
         else if negb (String.eqb paymentID
                         (DecodedAddress.paymentId parsedAddress)) then
           Return (newWalletError WalletErrorCode.CONFLICTING_PAYMENT_IDS)
         else validateIntegratedAddresses rest paymentID)%completion
  end.

(** [deepEqual(a, b)] on two [WalletError]s: the same code and the same
    message. *)
Definition deepEqual (a b : WalletError) : bool :=
  (if WalletErrorCode.eq_dec (errorCode a) (errorCode b) then true else false)
  && String.eqb (customMessage a) (customMessage b).

(** The second loop of [validateOurAddresses]. *)
Fixpoint validateAddressesInWallet (addresses : list string)
    (subWallets : SubWallets.t) : completion WalletError :=
  match addresses with
  | [] => Return SUCCESS
  | address :: rest =>
      (parsedAddress <- decodeAddress address ;;
       let keys := SubWallets.getPublicSpendKeys subWallets in
       if negb (existsb (String.eqb (DecodedAddress.publicSpendKey parsedAddress))
                        keys)
       then
         Return (newWalletErrorWith WalletErrorCode.ADDRESS_NOT_IN_WALLET
                   ("The address given (" ++ address
                    ++ ") does not exist in the wallet "
                    ++ "container, but it is required to exist for this operation."))
       else validateAddressesInWallet rest subWallets)%completion
  end.

(** [validateOurAddresses(addresses, subWallets)]. *)
Definition validateOurAddresses (addresses : list string)
    (subWallets : SubWallets.t) : completion WalletError :=
  (error <- validateAddresses addresses false ;;
   if negb (deepEqual error SUCCESS) then Return error
   else validateAddressesInWallet addresses subWallets)%completion.

(** [config.mixinLimits.getMixinLimitsByHeight(height)] and the conversion
    of a number to a string in a template literal; neither is among the
    sources. *)
Variable getMixinLimitsByHeight : number -> number * number.
Variable numberToString : number -> string.

(** [validateMixin(mixin, height)]. *)
Definition validateMixin (mixin height : number) : WalletError :=
  if lt mixin 0%float then
    newWalletError WalletErrorCode.NEGATIVE_VALUE_GIVEN
  else if negb (isInteger mixin) then
    newWalletError WalletErrorCode.NON_INTEGER_GIVEN
  else
    let limits := getMixinLimitsByHeight height in
    let minMixin := fst limits in
    let maxMixin := snd limits in
    if lt mixin minMixin then
      newWalletErrorWith WalletErrorCode.MIXIN_TOO_SMALL
        ("The mixin value given (" ++ numberToString mixin
         ++ ") is lower than the minimum mixin "
         ++ "allowed (" ++ numberToString minMixin ++ ")")
    else if gt mixin maxMixin then
      newWalletErrorWith WalletErrorCode.MIXIN_TOO_BIG
        ("The mixin value given (" ++ numberToString mixin
         ++ ") is greater than the maximum mixin "
         ++ "allowed (" ++ numberToString maxMixin ++ ")")
    else SUCCESS.

End WithCollaborators.

(** A character of [[a-zA-Z0-9]]. *)
Definition isAlphanumeric (c : Ascii.ascii) : bool :=
  let n := Ascii.nat_of_ascii c in
  ((48 <=? n) && (n <=? 57) || (65 <=? n) && (n <=? 90)
   || (97 <=? n) && (n <=? 122))%nat.

(** [s.match(/[a-zA-Z0-9]{64}/) !== null]: somewhere in [s] there are 64
    characters of the class in a row; [run] counts those just read. *)
Fixpoint hasAlphanumericRun (s : string) (run : nat) : bool :=
  match s with
  | EmptyString => false
  | String.String c rest =>
      if isAlphanumeric c then
        if (S run =? 64)%nat then true else hasAlphanumericRun rest (S run)
      else hasAlphanumericRun rest 0
  end.

(** [validatePaymentID(paymentID)]. *)
Definition validatePaymentID (paymentID : string) : WalletError :=
  if String.eqb paymentID EmptyString then SUCCESS
  else if negb (String.length paymentID =? 64)%nat then
    newWalletError WalletErrorCode.PAYMENT_ID_WRONG_LENGTH
  else if negb (hasAlphanumericRun paymentID 0) then
    newWalletError WalletErrorCode.PAYMENT_ID_INVALID
  else SUCCESS.

End ValidateParameters.

(** ** ConventionalDaemon.ts: the node fee *)

(** What the daemon answers to [fee()] when it follows its protocol. *)
Module FeeInfo.

Record t : Type := {
  status : string;
  address : string;
  amount : number
}.

End FeeInfo.

(** The methods of [ConventionalDaemon] that deal with the node fee; they
    come after [ValidateParameters], whose [validateAddresses]
    [updateFeeInfo] calls. *)
Module ConventionalDaemonFee.

(** [nodeFee()]. *)
Definition nodeFee (this : ConventionalDaemon.t) : JsValue.t * JsValue.t :=
  (ConventionalDaemon.feeAddress this, ConventionalDaemon.feeAmount this).

Section WithCollaborators.

(** [CryptoUtils.decodeAddress] applied to whatever it is given, and the two
    conversions of ECMAScript that [JsValue.toNumber] needs. *)
Variable decodeAddress : JsValue.t -> completion DecodedAddress.t.
Variable stringToNumber : string -> number.
Variable numberToString : number -> string.

(** [validateAddresses] of [ValidateParameters.ts] as [updateFeeInfo] calls
    it: on [new Array(feeInfo.address)], whose elements are strings only if
    the daemon sent one. The body of the loop and the loop are those of
    [ValidateParameters.validateAddress] and
    [ValidateParameters.validateAddresses]. *)
Definition validateAddress (address : JsValue.t)
    (integratedAddressesAllowed : bool) : completion (option WalletError) :=
  tryCatch
    (parsed <- decodeAddress address ;;
     if negb (String.length (DecodedAddress.paymentId parsed) =? 0)%nat
        && negb integratedAddressesAllowed
     then Return (Some (newWalletError WalletErrorCode.ADDRESS_IS_INTEGRATED))
     else Return None)%completion
    (fun err =>
       Return (Some (newWalletErrorWith WalletErrorCode.ADDRESS_NOT_VALID err))).

Fixpoint validateAddresses (addresses : list JsValue.t)
    (integratedAddressesAllowed : bool) : completion WalletError :=
  match addresses with
  | [] => Return (newWalletError WalletErrorCode.SUCCESS)
  | address :: rest =>
      (returned <- validateAddress address integratedAddressesAllowed ;;
       match returned with
       | Some error => Return error
       | None => validateAddresses rest integratedAddressesAllowed
       end)%completion
  end.

(** The body of [updateFeeInfo] from the answer of the daemon to the two
    assignments: [Some (feeInfo.address, feeInfo.amount)] when they are
    reached, [None] when the method returns before them. Nothing here is
    inside a [try]. *)
Definition checkFeeInfo (feeInfo : JsValue.t)
  : completion (option (JsValue.t * JsValue.t)) :=
  (status <- JsValue.get "status" feeInfo ;;
   if JsValue.strictNeString status "OK" then Return None
   else
     let integratedAddressesAllowed := false in
     address <- JsValue.get "address" feeInfo ;;
     addresses <- JsValue.newArray address ;;
     error <- validateAddresses addresses integratedAddressesAllowed ;;
     let err := errorCode error in
     if WalletErrorCode.eq_dec err WalletErrorCode.SUCCESS then
       amount <- JsValue.get "amount" feeInfo ;;
       positive <- JsValue.gtNumber stringToNumber numberToString amount
                     0%float ;;
       if positive then Return (Some (address, amount)) else Return None
     else Return None)%completion.

(** [this.feeAddress = address; this.feeAmount = amount]. *)
Definition setFee (address amount : JsValue.t) (this : ConventionalDaemon.t)
  : ConventionalDaemon.t :=
  {| ConventionalDaemon.daemonHost := ConventionalDaemon.daemonHost this;
     ConventionalDaemon.daemonPort := ConventionalDaemon.daemonPort this;
     ConventionalDaemon.feeAddress := address;
     ConventionalDaemon.feeAmount := amount;
     ConventionalDaemon.localDaemonBlockCount :=
       ConventionalDaemon.localDaemonBlockCount this;
     ConventionalDaemon.networkBlockCount :=
       ConventionalDaemon.networkBlockCount this;
     ConventionalDaemon.peerCount := ConventionalDaemon.peerCount this;
     ConventionalDaemon.lastKnownHashrate :=
       ConventionalDaemon.lastKnownHashrate this |}.

(** [updateFeeInfo()], given the outcome of [await this.daemon.fee()]: the
    daemon it leaves behind, and whether it returned or threw. Only the
    [await] is inside the [try]. *)
Definition updateFeeInfo (response : completion JsValue.t)
    (this : ConventionalDaemon.t) : ConventionalDaemon.t * completion unit :=
  match response with
  | Throw _ => (this, Return tt)
  | Return feeInfo =>
      match checkFeeInfo feeInfo with
      | Throw message => (this, Throw message)
      | Return None => (this, Return tt)
      | Return (Some (address, amount)) =>
          (setFee address amount this, Return tt)
      end
  end.

(** The answers a daemon object receives over time, and the object after
    each. *)
Inductive answer : Type :=
| InfoAnswer (response : completion DaemonInfo.t)
| FeeAnswer (response : completion JsValue.t).

Definition receive (config : Config) (received : answer)
    (this : ConventionalDaemon.t) : ConventionalDaemon.t :=
  match received with
  | InfoAnswer response =>
      ConventionalDaemon.updateDaemonInfo config response this
  | FeeAnswer response => fst (updateFeeInfo response this)
  end.

End WithCollaborators.

End ConventionalDaemonFee.

(** ** SubWallets.ts: the constructor *)

(** [new SubWallets(address, scanHeight, newWallet, privateViewKey,
    privateSpendKey?)]; it comes after [DecodedAddress], which it reads. *)
Module SubWalletsConstructor.

Section WithCollaborators.
Variable decodeAddress : string -> completion DecodedAddress.t.

(** [getCurrentTimestampAdjusted()] of [Utilities.ts], a reading of the
    clock, and [new SubWallet(address, scanHeight, timestamp,
    publicSpendKey, privateSpendKey)]; neither is among the sources. *)
Variable getCurrentTimestampAdjusted : number.
Variable newSubWallet :
  string -> number -> number -> string -> option string -> SubWallet.t.

(** The constructor returns the new wallet, or throws what
    [decodeAddress] throws. *)
Definition new (address : string) (scanHeight : number) (newWallet : bool)
    (privateViewKey : string) (privateSpendKey : option string)
  : completion SubWallets.t :=
  let isViewWallet :=
    match privateSpendKey with None => true | Some _ => false end in
  let timestamp :=
    if newWallet then getCurrentTimestampAdjusted else 0%float in
  (publicKeys <- decodeAddress address ;;
   let subWallet :=
     newSubWallet address scanHeight timestamp
       (DecodedAddress.publicSpendKey publicKeys) privateSpendKey in
   Return
     {| SubWallets.isViewWallet := isViewWallet;
        SubWallets.publicSpendKeys :=
          [] ++ [DecodedAddress.publicSpendKey publicKeys];
        SubWallets.subWallets :=
          JsMap.set (DecodedAddress.publicSpendKey publicKeys) subWallet [];
        SubWallets.transactions := [];
        SubWallets.lockedTransactions := [];
        SubWallets.privateViewKey := privateViewKey;
        SubWallets.transactionPrivateKeys := [] |})%completion.

End WithCollaborators.

End SubWalletsConstructor.

(** ** Sample values *)

Module Sample.

Local Open Scope string_scope.

(** The values of the TurtleCoin network. *)
Definition config : Config :=
  {| minimumFee := 10%float;
     blockTargetTime := 30%float;
     unlockTimeAsBlockHeightThreshold := 500000000%float |}.

Definition nowSeconds : number := 1545000000%float.

(** An unspent input received at height 100, unlocked from the start. *)
Definition input (keyImage : string) (amount : number) : TransactionInput.t :=
  {| TransactionInput.keyImage := keyImage;
     TransactionInput.amount := amount;
     TransactionInput.blockHeight := 100%float;
     TransactionInput.transactionPublicKey := "txPublicKey";
     TransactionInput.transactionIndex := 0%float;
     TransactionInput.globalOutputIndex := 7%float;
     TransactionInput.key := "outputKey";
     TransactionInput.spendHeight := 0%float;
     TransactionInput.unlockTime := 0%float;
     TransactionInput.parentTransactionHash := "parentHash" |}.

Definition subWallet (publicSpendKey : string)
    (inputs : list TransactionInput.t) : SubWallet.t :=
  {| SubWallet.address := "TRTL" ++ publicSpendKey;
     SubWallet.publicSpendKey := publicSpendKey;
     SubWallet.privateSpendKey := Some ("private" ++ publicSpendKey);
     SubWallet.scanHeight := 0%float;
     SubWallet.creationTimestamp := 0%float;
     SubWallet.inputs := inputs;
     SubWallet.lockedInputs := [];
     SubWallet.keyImages := map TransactionInput.keyImage inputs |}.

Definition transaction (hash : string) (blockHeight : number)
  : Transaction.t :=
  {| Transaction.transfers := [("spendA", 100%float)];
     Transaction.hash := hash;
     Transaction.fee := 10%float;
     Transaction.blockHeight := blockHeight;
     Transaction.timestamp := 1544000000%float;
     Transaction.paymentID := "";
     Transaction.unlockTime := 0%float;
     Transaction.isCoinbaseTransaction := false |}.

(** A wallet of two subwallets; [spendA] holds the given inputs. *)
Definition wallet (inputs : list TransactionInput.t) : SubWallets.t :=
  {| SubWallets.isViewWallet := false;
     SubWallets.publicSpendKeys := ["spendA"; "spendB"];
     SubWallets.subWallets :=
       [("spendA", subWallet "spendA" inputs);
        ("spendB", subWallet "spendB" [input "imageB" 5%float])];
     SubWallets.transactions :=
       [transaction "hash1" 50%float; transaction "hash2" 120%float];
     SubWallets.lockedTransactions := [transaction "hash3" 0%float];
     SubWallets.privateViewKey := "privateViewKey";
     SubWallets.transactionPrivateKeys := [("hash3", "txPrivateKey3")] |}.

(** The same subwallets in a view wallet. *)
Definition viewWallet (inputs : list TransactionInput.t) : SubWallets.t :=
  {| SubWallets.isViewWallet := true;
     SubWallets.publicSpendKeys := SubWallets.publicSpendKeys (wallet inputs);
     SubWallets.subWallets := SubWallets.subWallets (wallet inputs);
     SubWallets.transactions := [];
     SubWallets.lockedTransactions := [];
     SubWallets.privateViewKey := "privateViewKey";
     SubWallets.transactionPrivateKeys := [] |}.

(** An address decoder that knows one plain and one integrated address. *)
Definition decodeAddress (address : string) : completion DecodedAddress.t :=
  if String.eqb address "TRTLplain" then
    Return {| DecodedAddress.publicSpendKey := "spendA";
              DecodedAddress.paymentId := "" |}
  else if String.eqb address "TRTLintegrated" then
    Return {| DecodedAddress.publicSpendKey := "spendA";
              DecodedAddress.paymentId := "paymentId" |}
  else Throw "Error: Invalid address".

Definition daemonInfo (network_height : number) : DaemonInfo.t :=
  {| DaemonInfo.height := network_height;
     DaemonInfo.network_height := network_height;
     DaemonInfo.incoming_connections_count := 8%float;
     DaemonInfo.outgoing_connections_count := 8%float;
     DaemonInfo.difficulty := 300000000%float |}.

(** Mixin limits that change at height 620000. *)
Definition getMixinLimitsByHeight (height : number) : number * number :=
  if lt height 620000%float then (0%float, 100%float)
  else (3%float, 7%float).

Definition numberToString (n : number) : string := "<number>".

(** Subwallets that store an input at the end of their inputs and take no
    notice of the other calls. *)
Definition subWalletStoreTransactionInput (input : TransactionInput.t)
    (isViewWallet : bool) (this : SubWallet.t)
  : SubWallet.t * completion unit :=
  (subWallet (SubWallet.publicSpendKey this) (SubWallet.inputs this ++ [input]),
   Return tt).

Definition subWalletMarkInputAsSpent (keyImage : string)
    (spendHeight : number) (this : SubWallet.t)
  : SubWallet.t * completion unit :=
  (this, Throw "Could not find key image to remove!").

Definition subWalletRemoveCancelledTransaction (transactionHash : string)
    (this : SubWallet.t) : SubWallet.t := this.

Definition subWalletConvertSyncTimestampToHeight (timestamp height : number)
    (this : SubWallet.t) : SubWallet.t := this.

(** Calls that a wallet receives: a known and an unknown subwallet, a
    transaction confirmed twice, a cancellation and a fork. *)
Definition calls : list SubWallets.mutation :=
  [SubWallets.StoreTransactionInput "spendA" (input "imageA" 40%float);
   SubWallets.StoreTransactionInput "spendC" (input "imageC" 40%float);
   SubWallets.MarkInputAsSpent "spendB" "imageB" 130%float;
   SubWallets.AddTransaction (transaction "hash3" 130%float);
   SubWallets.AddTransaction (transaction "hash3" 130%float);
   SubWallets.RemoveCancelledTransaction "hash4";
   SubWallets.ConvertSyncTimestampToHeight 0%float 100%float;
   SubWallets.RemoveForkedTransactions 120%float].

End Sample.

(** ** The vocabulary of the properties *)

(** An address the loop passes over: it decodes, and carries no payment ID
    unless integrated addresses are allowed. *)
Definition passes (decodeAddress : string -> completion DecodedAddress.t)
    (integratedAddressesAllowed : bool) (address : string) : Prop :=
  exists parsed : DecodedAddress.t,
    decodeAddress address = Return parsed
    /\ (DecodedAddress.paymentId parsed = EmptyString
        \/ integratedAddressesAllowed = true).

(** The hashes of a list of transactions. *)
Definition hashes (transactions : list Transaction.t) : list string :=
  map Transaction.hash transactions.

(** No two confirmed transactions share a hash, and no confirmed hash is
    the hash of a locked transaction. *)
Definition transactionsInvariant (this : SubWallets.t) : Prop :=
  NoDup (hashes (SubWallets.transactions this))
  /\ forall hash : string,
       In hash (hashes (SubWallets.transactions this)) ->
       ~ In hash (hashes (SubWallets.lockedTransactions this)).

(** The sum of a list of numbers, added from left to right onto [start]. *)
Definition sumFrom (start : number) (values : list number) : number :=
  fold_left (fun sum value => (sum + value)%float) values start.

(** [subWallets] are the subwallets stored under [keys], in that order. *)
Definition storedUnder (this : SubWallets.t) (keys : list string)
    (subWallets : list SubWallet.t) : Prop :=
  Forall2 (fun key subWallet =>
             JsMap.get key (SubWallets.subWallets this) = Some subWallet)
          keys subWallets.

(** A valid state: the maps and sets have no repeated key or member, as
    every [Map] and [Set] has, and each subwallet is stored under its own
    public spend key, as the constructor stores it. *)
Definition validState (this : SubWallets.t) : Prop :=
  JsMap.wf (SubWallets.subWallets this)
  /\ Forall (fun entry =>
               SubWallet.publicSpendKey (snd entry) = fst entry
               /\ JsSet.wf (SubWallet.keyImages (snd entry)))
            (SubWallets.subWallets this)
  /\ Forall (fun tx => JsMap.wf (Transaction.transfers tx))
            (SubWallets.transactions this)
  /\ Forall (fun tx => JsMap.wf (Transaction.transfers tx))
            (SubWallets.lockedTransactions this)
  /\ JsMap.wf (SubWallets.transactionPrivateKeys this).

(** An amount that [validateDestinations] accepts: above zero and an
    integer. *)
Definition amountPasses (amount : number) : Prop :=
  gt amount 0%float = true /\ isInteger amount = true.

(** [decodeAddress] returns for the address. *)
Definition decodes (decodeAddress : string -> completion DecodedAddress.t)
    (address : string) : Prop :=
  exists parsed : DecodedAddress.t, decodeAddress address = Return parsed.

(** An address of the wallet: it decodes, carries no payment ID and its
    public spend key is one of the wallet's. *)
Definition ours (decodeAddress : string -> completion DecodedAddress.t)
    (subWallets : SubWallets.t) (address : string) : Prop :=
  exists parsed : DecodedAddress.t,
    decodeAddress address = Return parsed
    /\ DecodedAddress.paymentId parsed = EmptyString
    /\ In (DecodedAddress.publicSpendKey parsed)
          (SubWallets.publicSpendKeys subWallets).

(** The loop of [validateIntegratedAddresses] looks at a destination: its
    address has the length of an integrated address. *)
Definition hasIntegratedLength (integratedAddressLength : number)
    (destination : string * number) : bool :=
  negb (strictNe (ValidateParameters.lengthOf (fst destination))
                 integratedAddressLength).

(** Every public spend key of the wallet has its subwallet in the map. *)
Definition keysKnown (this : SubWallets.t) : Prop :=
  forall key : string,
    In key (SubWallets.publicSpendKeys this) ->
    JsMap.get key (SubWallets.subWallets this) <> None.

(** [after] is [this] with the subwallet under [publicSpendKey] replaced by
    [changed], and nothing else changed. *)
Definition subWalletReplaced (publicSpendKey : string)
    (changed : SubWallet.t) (this after : SubWallets.t) : Prop :=
  JsMap.get publicSpendKey (SubWallets.subWallets after) = Some changed
  /\ (forall key : string,
        key <> publicSpendKey ->
        JsMap.get key (SubWallets.subWallets after)
        = JsMap.get key (SubWallets.subWallets this))
  /\ JsMap.keys (SubWallets.subWallets after)
     = JsMap.keys (SubWallets.subWallets this)
  /\ SubWallets.transactions after = SubWallets.transactions this
  /\ SubWallets.lockedTransactions after = SubWallets.lockedTransactions this
  /\ SubWallets.publicSpendKeys after = SubWallets.publicSpendKeys this
  /\ SubWallets.isViewWallet after = SubWallets.isViewWallet this.

(** Every character of the string is a letter or a digit. *)
Definition allAlphanumeric (s : string) : Prop :=
  Forall (fun c => ValidateParameters.isAlphanumeric c = true)
         (list_ascii_of_string s).

(** The answer of the daemon has the shape that the protocol gives it: a
    string for the status, a string for the address and a number for the
    amount. *)
Definition feeInfoOf (answer : JsValue.t) (feeInfo : FeeInfo.t) : Prop :=
  JsValue.get "status" answer
  = Return (JsValue.String (FeeInfo.status feeInfo))
  /\ JsValue.get "address" answer
     = Return (JsValue.String (FeeInfo.address feeInfo))
  /\ JsValue.get "amount" answer
     = Return (JsValue.Number (FeeInfo.amount feeInfo)).

Section FeeVocabulary.
Variable decodeAddress : JsValue.t -> completion DecodedAddress.t.
Variable stringToNumber : string -> number.
Variable numberToString : number -> string.

(** [validateAddresses(new Array(address), false)] returns a [SUCCESS]. *)
Definition addressChecked (address : JsValue.t) : Prop :=
  exists (addresses : list JsValue.t) (error : WalletError),
    JsValue.newArray address = Return addresses
    /\ ConventionalDaemonFee.validateAddresses decodeAddress addresses false
       = Return error
    /\ errorCode error = WalletErrorCode.SUCCESS.

(** [amount > 0] is true. *)
Definition amountPositive (amount : JsValue.t) : Prop :=
  exists n : number,
    JsValue.toNumber stringToNumber numberToString amount = Return n
    /\ gt n 0%float = true.

(** An answer whose address and amount the daemon object takes over. *)
Definition feeAccepted (answer address amount : JsValue.t) : Prop :=
  JsValue.get "status" answer = Return (JsValue.String "OK")
  /\ JsValue.get "address" answer = Return address
  /\ JsValue.get "amount" answer = Return amount
  /\ addressChecked address
  /\ amountPositive amount.

(** An answer on which [updateFeeInfo] throws: it has no properties to
    read, or its status is ['OK'] and its address is a number that is no
    length of an array, or the address is accepted and the amount cannot be
    converted to a number. *)
Definition feeThrows (answer : JsValue.t) : Prop :=
  answer = JsValue.Undefined
  \/ answer = JsValue.Null
  \/ (JsValue.get "status" answer = Return (JsValue.String "OK")
      /\ ((exists n : number,
             JsValue.get "address" answer = Return (JsValue.Number n)
             /\ JsValue.isArrayLength n = false)
          \/ (exists (address amount : JsValue.t) (message : string),
                JsValue.get "address" answer = Return address
                /\ JsValue.get "amount" answer = Return amount
                /\ addressChecked address
                /\ JsValue.toNumber stringToNumber numberToString amount
                   = Throw message))).

(** The node fee of a daemon object is the initial one, or one that has
    gone through the checks of [updateFeeInfo]. *)
Definition feeInvariant (this : ConventionalDaemon.t) : Prop :=
  ConventionalDaemonFee.nodeFee this
  = (JsValue.String EmptyString, JsValue.Number 0%float)
  \/ (addressChecked (ConventionalDaemon.feeAddress this)
      /\ amountPositive (ConventionalDaemon.feeAmount this)).

(** The node fee is the initial one, or a string that decodes without a
    payment ID and a number above zero. *)
Definition feeTyped (this : ConventionalDaemon.t) : Prop :=
  ConventionalDaemonFee.nodeFee this
  = (JsValue.String EmptyString, JsValue.Number 0%float)
  \/ exists (address : string) (amount : number),
       ConventionalDaemonFee.nodeFee this
       = (JsValue.String address, JsValue.Number amount)
       /\ passes (fun s => decodeAddress (JsValue.String s)) false address
       /\ gt amount 0%float = true.

(** The answer to [fee()], if there is one, has the shape of the
    protocol. *)
Definition answerTyped (received : ConventionalDaemonFee.answer) : Prop :=
  match received with
  | ConventionalDaemonFee.FeeAnswer (Return answer) =>
      exists feeInfo : FeeInfo.t, feeInfoOf answer feeInfo
  | _ => True
  end.

End FeeVocabulary.

(** * Part II: properties *)

Unset Implicit Arguments.

(** ** Numbers *)

(** The comparison of the specification floats is antisymmetric. *)
Lemma SFcompare_antisym (x y : spec_float) :
  SFcompare y x = option_map CompOpp (SFcompare x y).
Proof.
  destruct x as [sx|sx| |sx mx ex], y as [sy|sy| |sy my ey]; simpl;
    try reflexivity;
    try (destruct sx; reflexivity);
    try (destruct sy; reflexivity);
    try (destruct sx, sy; reflexivity).
  f_equal.
  destruct sx, sy; try reflexivity;
    rewrite (Z.compare_antisym ex ey);
    destruct (ex ?= ey)%Z; simpl; try reflexivity;
    change (Pos.compare_cont Eq my mx) with (Pos.compare my mx);
    change (Pos.compare_cont Eq mx my) with (Pos.compare mx my);
    rewrite (Pos.compare_antisym mx my);
    destruct (mx ?= my)%positive; reflexivity.
Qed.

(** [a < b] excludes [a >= b]. *)
Lemma lt_not_ge (a b : number) : lt a b = true -> ge a b = false.
Proof.
  unfold lt, ge. rewrite ltb_spec, leb_spec. unfold SFltb, SFleb.
  rewrite (SFcompare_antisym (Prim2SF a) (Prim2SF b)).
  destruct (SFcompare (Prim2SF a) (Prim2SF b)) as [[]|]; simpl; congruence.
Qed.

(** [a >= b] excludes [a < b]. *)
Lemma ge_not_lt (a b : number) : ge a b = true -> lt a b = false.
Proof.
  intros H. destruct (lt a b) eqn:E; [|reflexivity].
  apply lt_not_ge in E. congruence.
Qed.

(** No double lies strictly between [2^64 - 2048] and [2 ** 64]: the
    expression [2 ** 64 - 1] evaluates to [2 ** 64], and the double below
    [2 ** 64] is [2^64 - 2048]. *)
Lemma two64_minus_one :
  (two64 - 1)%float = two64
  /\ next_down two64 = 18446744073709549568%float.
Proof. split; reflexivity. Qed.

(** ** validateAmount *)

Section ValidateAmountProperties.
Variable config : Config.
Variable nowSeconds : number.

Local Abbreviation validateAmount :=
  (ValidateParameters.validateAmount config nowSeconds).
Local Abbreviation getBalance := (SubWallets.getBalance config nowSeconds).

(** Past the two fee checks, [validateAmount] is its balance and overflow
    part. *)
Lemma validateAmount_past_fee_checks
    (destinations : list (string * number)) (fee : number)
    (subWalletsToTakeFrom : list string) (subWallets : SubWallets.t)
    (currentHeight : number) :
  lt fee (minimumFee config) = false ->
  isInteger fee = false ->
  validateAmount destinations fee subWalletsToTakeFrom subWallets currentHeight
  = bind (getBalance currentHeight (Some subWalletsToTakeFrom) subWallets)
      (fun balance =>
         let totalAmount := (Lodash.sumBy snd destinations + fee)%float in
         if gt totalAmount (fst balance) then
           Return (newWalletError WalletErrorCode.NOT_ENOUGH_BALANCE)
         else if ge totalAmount two64 then
           Return (newWalletError WalletErrorCode.WILL_OVERFLOW)
         else Return SUCCESS).
Proof.
  intros Hfee Hint. unfold ValidateParameters.validateAmount.
  rewrite Hfee, Hint. reflexivity.
Qed.

(** C1. A fee that is an integer and at least [config.minimumFee] makes
    [validateAmount] return [NON_INTEGER_GIVEN]; with an integer fee the call
    ends in one of the two fee checks, whatever the destinations, the wallet
    and the height are, so it never reaches the balance and overflow checks
    (and never calls [getBalance], which could throw). *)
Theorem validateAmount_integer_fee
    (destinations : list (string * number)) (fee : number)
    (subWalletsToTakeFrom : list string) (subWallets : SubWallets.t)
    (currentHeight : number) :
  isInteger fee = true ->
  (ge fee (minimumFee config) = true ->
   validateAmount destinations fee subWalletsToTakeFrom subWallets
     currentHeight
   = Return (newWalletError WalletErrorCode.NON_INTEGER_GIVEN))
  /\ (validateAmount destinations fee subWalletsToTakeFrom subWallets
        currentHeight
      = Return (newWalletError WalletErrorCode.FEE_TOO_SMALL)
      \/ validateAmount destinations fee subWalletsToTakeFrom subWallets
           currentHeight
         = Return (newWalletError WalletErrorCode.NON_INTEGER_GIVEN))
  /\ (forall destinations' subWalletsToTakeFrom' subWallets' currentHeight',
        validateAmount destinations' fee subWalletsToTakeFrom' subWallets'
          currentHeight'
        = validateAmount destinations fee subWalletsToTakeFrom subWallets
            currentHeight).
Proof.
  intros Hint. unfold ValidateParameters.validateAmount. rewrite Hint.
  split; [|split].
  - intros Hge. apply ge_not_lt in Hge. rewrite Hge. reflexivity.
  - destruct (lt fee (minimumFee config)); [left|right]; reflexivity.
  - intros. destruct (lt fee (minimumFee config)); reflexivity.
Qed.

(** C2, as the code has it. When the fee checks pass, the balance lookup
    succeeds and the computed total does not exceed the available balance,
    [validateAmount] returns [WILL_OVERFLOW] if the computed total is at
    least [2 ** 64], and [SUCCESS] otherwise. *)
Theorem validateAmount_overflow_threshold
    (destinations : list (string * number)) (fee : number)
    (subWalletsToTakeFrom : list string) (subWallets : SubWallets.t)
    (currentHeight availableBalance lockedBalance : number) :
  lt fee (minimumFee config) = false ->
  isInteger fee = false ->
  getBalance currentHeight (Some subWalletsToTakeFrom) subWallets
  = Return (availableBalance, lockedBalance) ->
  gt (Lodash.sumBy snd destinations + fee)%float availableBalance = false ->
  validateAmount destinations fee subWalletsToTakeFrom subWallets currentHeight
  = Return (if ge (Lodash.sumBy snd destinations + fee)%float two64
            then newWalletError WalletErrorCode.WILL_OVERFLOW
            else SUCCESS).
Proof.
  intros Hfee Hint Hbal Hgt.
  rewrite validateAmount_past_fee_checks by assumption.
  rewrite Hbal. simpl. rewrite Hgt.
  destruct (ge (Lodash.sumBy snd destinations + fee)%float two64);
    reflexivity.
Qed.

(** C10. Past the fee checks, a total above the available balance gives
    [NOT_ENOUGH_BALANCE], whether or not it reaches [2 ** 64]; and whenever
    [validateAmount] returns [WILL_OVERFLOW], the balance lookup succeeded and
    the total did not exceed the available balance. *)
Theorem validateAmount_balance_before_overflow
    (destinations : list (string * number)) (fee : number)
    (subWalletsToTakeFrom : list string) (subWallets : SubWallets.t)
    (currentHeight : number) :
  (lt fee (minimumFee config) = false ->
   isInteger fee = false ->
   forall availableBalance lockedBalance : number,
     getBalance currentHeight (Some subWalletsToTakeFrom) subWallets
     = Return (availableBalance, lockedBalance) ->
     gt (Lodash.sumBy snd destinations + fee)%float availableBalance = true ->
     validateAmount destinations fee subWalletsToTakeFrom subWallets
       currentHeight
     = Return (newWalletError WalletErrorCode.NOT_ENOUGH_BALANCE))
  /\ (forall error : WalletError,
        validateAmount destinations fee subWalletsToTakeFrom subWallets
          currentHeight = Return error ->
        errorCode error = WalletErrorCode.WILL_OVERFLOW ->
        exists availableBalance lockedBalance : number,
          getBalance currentHeight (Some subWalletsToTakeFrom) subWallets
          = Return (availableBalance, lockedBalance)
          /\ gt (Lodash.sumBy snd destinations + fee)%float availableBalance
             = false
          /\ ge (Lodash.sumBy snd destinations + fee)%float two64 = true).
Proof.
  split.
  - intros Hfee Hint availableBalance lockedBalance Hbal Hgt.
    rewrite validateAmount_past_fee_checks by assumption.
    rewrite Hbal. simpl. rewrite Hgt. reflexivity.
  - intros error. unfold ValidateParameters.validateAmount.
    destruct (lt fee (minimumFee config)).
    { intros [= <-]. discriminate. }
    destruct (isInteger fee).
    { intros [= <-]. discriminate. }
    destruct (getBalance currentHeight (Some subWalletsToTakeFrom) subWallets)
      as [[availableBalance lockedBalance]|message]; simpl.
    2: { discriminate. }
    destruct (gt (Lodash.sumBy snd destinations + fee)%float availableBalance)
      eqn:Hgt.
    { intros [= <-]. discriminate. }
    destruct (ge (Lodash.sumBy snd destinations + fee)%float two64) eqn:Hge.
    + intros _ _. exists availableBalance, lockedBalance. auto.
    + intros [= <-]. discriminate.
Qed.

End ValidateAmountProperties.

(** The integer fee [10], the minimum itself, is turned down; the wallet
    named as the source does not exist, and is never looked up. *)
Lemma validateAmount_integer_fee_witness :
  isInteger 10%float = true
  /\ ge 10%float (minimumFee Sample.config) = true
  /\ ValidateParameters.validateAmount Sample.config Sample.nowSeconds
       [("destination"%string, 100%float)] 10%float ["unknown"%string]
       (Sample.wallet []) 200%float
     = Return (newWalletError WalletErrorCode.NON_INTEGER_GIVEN).
Proof.
  split; [reflexivity|]. split; [reflexivity|].
  apply (validateAmount_integer_fee Sample.config Sample.nowSeconds
           [("destination"%string, 100%float)] 10%float
           ["unknown"%string] (Sample.wallet []) 200%float);
    reflexivity.
Defined.

(** A total of [2 ** 64] out of a balance of [2 ** 65] overflows. *)
Lemma validateAmount_overflow_threshold_witness :
  lt 10.5%float (minimumFee Sample.config) = false
  /\ isInteger 10.5%float = false
  /\ SubWallets.getBalance Sample.config Sample.nowSeconds 200%float
       (Some ["spendA"%string]) (Sample.wallet [Sample.input "imageA" 0x1p65%float])
     = Return (0x1p65%float, 0%float)
  /\ gt (Lodash.sumBy snd [("destination"%string, two64)] + 10.5)%float
        0x1p65%float = false
  /\ ValidateParameters.validateAmount Sample.config Sample.nowSeconds
       [("destination"%string, two64)] 10.5%float ["spendA"%string]
       (Sample.wallet [Sample.input "imageA" 0x1p65%float]) 200%float
     = Return (newWalletError WalletErrorCode.WILL_OVERFLOW).
Proof.
  split; [reflexivity|]. split; [reflexivity|]. split; [reflexivity|].
  split; [reflexivity|].
  exact (validateAmount_overflow_threshold Sample.config Sample.nowSeconds
           [("destination"%string, two64)] 10.5%float ["spendA"%string]
           (Sample.wallet [Sample.input "imageA" 0x1p65%float])
           200%float 0x1p65%float 0%float
           eq_refl eq_refl eq_refl eq_refl).
Defined.

(** C2 fails on the code. First input: amounts and fee whose exact sum is
    [2^64 - 1]; the fee checks pass and the wallet holds [2 ** 64]. The
    doubles next to [2^64 - 1] are [2^64 - 2048] and [2 ** 64]; here the sum
    is computed as [2^64 - 2048], and [validateAmount] returns [SUCCESS].
    Second input: the exact sum is again [2^64 - 1] and is computed as
    [2 ** 64], the value JavaScript gives to [2 ** 64 - 1]; the wallet holds
    nothing, and [validateAmount] returns [NOT_ENOUGH_BALANCE]. *)
Lemma validateAmount_2_64_minus_1_not_overflow :
  (exists q : Q,
     exactSum [18446744073709549568%float; 1023.25%float; 1023.75%float]
     = Some q
     /\ (q == 18446744073709551615)%Q)
  /\ ValidateParameters.validateAmount Sample.config Sample.nowSeconds
       [("first"%string, 18446744073709549568%float);
        ("second"%string, 1023.25%float)]
       1023.75%float ["spendA"%string]
       (Sample.wallet [Sample.input "imageA" two64]) 200%float
     = Return SUCCESS
  /\ (exists q : Q,
        exactSum [18446744073709549568%float; 1046.5%float; 1000.5%float]
        = Some q
        /\ (q == 18446744073709551615)%Q)
  /\ (Lodash.sumBy snd [("first"%string, 18446744073709549568%float);
                        ("second"%string, 1046.5%float)] + 1000.5)%float
     = two64
  /\ ValidateParameters.validateAmount Sample.config Sample.nowSeconds
       [("first"%string, 18446744073709549568%float);
        ("second"%string, 1046.5%float)]
       1000.5%float ["spendA"%string] (Sample.wallet []) 200%float
     = Return (newWalletError WalletErrorCode.NOT_ENOUGH_BALANCE).
Proof.
  split.
  { eexists. split; [vm_compute; reflexivity|]. vm_compute. reflexivity. }
  split; [vm_compute; reflexivity|].
  split.
  { eexists. split; [vm_compute; reflexivity|]. vm_compute. reflexivity. }
  split; vm_compute; reflexivity.
Qed.

(** A total of [2 ** 65] out of a balance of [2 ** 64]: not enough balance,
    although the total is beyond [2 ** 64]. *)
Lemma validateAmount_balance_before_overflow_witness :
  lt 10.5%float (minimumFee Sample.config) = false
  /\ isInteger 10.5%float = false
  /\ ge (Lodash.sumBy snd [("destination"%string, 0x1p65%float)] + 10.5)%float
        two64 = true
  /\ ValidateParameters.validateAmount Sample.config Sample.nowSeconds
       [("destination"%string, 0x1p65%float)] 10.5%float ["spendA"%string]
       (Sample.wallet [Sample.input "imageA" two64]) 200%float
     = Return (newWalletError WalletErrorCode.NOT_ENOUGH_BALANCE).
Proof.
  split; [reflexivity|]. split; [reflexivity|]. split; [reflexivity|].
  exact (proj1 (validateAmount_balance_before_overflow Sample.config
                  Sample.nowSeconds [("destination"%string, 0x1p65%float)]
                  10.5%float ["spendA"%string]
                  (Sample.wallet [Sample.input "imageA" two64]) 200%float)
           eq_refl eq_refl two64 0%float eq_refl eq_refl).
Defined.

(** ** validateAddresses *)

Section ValidateAddressesProperties.
Variable decodeAddress : string -> completion DecodedAddress.t.

Local Abbreviation validateAddress :=
  (ValidateParameters.validateAddress decodeAddress).
Local Abbreviation validateAddresses :=
  (ValidateParameters.validateAddresses decodeAddress).

Lemma length_zero_empty (s : string) :
  (String.length s =? 0)%nat = true <-> s = EmptyString.
Proof.
  destruct s; simpl; split; intros H; try reflexivity; discriminate.
Qed.

(** The loop body never throws: what [decodeAddress] throws is caught. *)
Lemma validateAddress_returns (address : string) (allowed : bool) :
  validateAddress address allowed
  = match decodeAddress address with
    | Throw err =>
        Return (Some (newWalletErrorWith WalletErrorCode.ADDRESS_NOT_VALID err))
    | Return parsed =>
        if negb (String.length (DecodedAddress.paymentId parsed) =? 0)%nat
           && negb allowed
        then Return (Some (newWalletError WalletErrorCode.ADDRESS_IS_INTEGRATED))
        else Return None
    end.
Proof.
  unfold ValidateParameters.validateAddress.
  destruct (decodeAddress address) as [parsed|err]; simpl; [|reflexivity].
  destruct (negb (String.length (DecodedAddress.paymentId parsed) =? 0)%nat
            && negb allowed); reflexivity.
Qed.

Lemma validateAddress_passes (address : string) (allowed : bool) :
  passes decodeAddress allowed address ->
  validateAddress address allowed = Return None.
Proof.
  intros [parsed [Hdec Hok]]. rewrite validateAddress_returns, Hdec.
  destruct Hok as [Hpid| ->].
  - apply length_zero_empty in Hpid. rewrite Hpid. reflexivity.
  - now rewrite andb_false_r.
Qed.

Lemma validateAddress_None (address : string) (allowed : bool) :
  validateAddress address allowed = Return None ->
  passes decodeAddress allowed address.
Proof.
  rewrite validateAddress_returns. unfold passes.
  destruct (decodeAddress address) as [parsed|err]; [|discriminate].
  destruct (String.length (DecodedAddress.paymentId parsed) =? 0)%nat eqn:Hlen;
    simpl.
  - intros _. exists parsed. split; [reflexivity|]. left.
    now apply length_zero_empty.
  - destruct allowed; simpl; [|discriminate].
    intros _. exists parsed. split; [reflexivity|]. now right.
Qed.

(** The addresses that pass do not change the result. *)
Lemma validateAddresses_skip (before rest : list string) (allowed : bool) :
  Forall (passes decodeAddress allowed) before ->
  validateAddresses (before ++ rest) allowed = validateAddresses rest allowed.
Proof.
  induction 1 as [|address before Hpass _ IH]; [reflexivity|].
  simpl. rewrite (validateAddress_passes _ _ Hpass). simpl. exact IH.
Qed.

(** With integrated addresses allowed, one address that fails to decode is
    enough for [ADDRESS_NOT_VALID]. *)
Lemma validateAddresses_allowed_not_valid (addresses : list string) :
  (exists (address err : string),
     In address addresses /\ decodeAddress address = Throw err) ->
  exists err : string,
    validateAddresses addresses true
    = Return (newWalletErrorWith WalletErrorCode.ADDRESS_NOT_VALID err).
Proof.
  induction addresses as [|address rest IH]; intros [bad [err [Hin Hdec]]];
    [destruct Hin|].
  simpl. rewrite validateAddress_returns.
  destruct (decodeAddress address) as [parsed|err'] eqn:Hhead; simpl.
  - rewrite andb_false_r. simpl. apply IH.
    destruct Hin as [<-|Hin]; [congruence|]. now exists bad, err.
  - now exists err'.
Qed.

(** When every address decodes and integrated addresses are not allowed, one
    address with a payment ID is enough for [ADDRESS_IS_INTEGRATED]. *)
Lemma validateAddresses_decoded_integrated (addresses : list string) :
  (forall address : string,
     In address addresses ->
     exists parsed, decodeAddress address = Return parsed) ->
  (exists (address : string) (parsed : DecodedAddress.t),
     In address addresses
     /\ decodeAddress address = Return parsed
     /\ DecodedAddress.paymentId parsed <> EmptyString) ->
  validateAddresses addresses false
  = Return (newWalletError WalletErrorCode.ADDRESS_IS_INTEGRATED).
Proof.
  induction addresses as [|address rest IH];
    intros Hall [bad [parsed [Hin [Hdec Hpid]]]]; [destruct Hin|].
  simpl. rewrite validateAddress_returns.
  destruct (Hall address (or_introl eq_refl)) as [parsed' Hhead].
  rewrite Hhead.
  destruct (String.length (DecodedAddress.paymentId parsed') =? 0)%nat
    eqn:Hlen; simpl; [|reflexivity].
  apply IH.
  - intros a Ha. apply Hall. now right.
  - destruct Hin as [<-|Hin].
    + apply length_zero_empty in Hlen. congruence.
    + now exists bad, parsed.
Qed.

(** C9. [validateAddresses] returns a [WalletError] for every list of
    addresses and never throws. The first address that does not pass decides:
    if it fails to decode, the error is [ADDRESS_NOT_VALID] (with the message
    of the failure); if it decodes with a payment ID while integrated
    addresses are not allowed, the error is [ADDRESS_IS_INTEGRATED]. The
    result is [SUCCESS] exactly when every address passes. In particular a
    failure to decode anywhere in the list gives [ADDRESS_NOT_VALID] when
    integrated addresses are allowed, and a payment ID anywhere in a list of
    decodable addresses gives [ADDRESS_IS_INTEGRATED] when they are not. *)
Theorem validateAddresses_never_throws
    (addresses : list string) (integratedAddressesAllowed : bool) :
  (exists error : WalletError,
     validateAddresses addresses integratedAddressesAllowed = Return error
     /\ (errorCode error = WalletErrorCode.SUCCESS
         \/ errorCode error = WalletErrorCode.ADDRESS_NOT_VALID
         \/ errorCode error = WalletErrorCode.ADDRESS_IS_INTEGRATED))
  /\ (integratedAddressesAllowed = true ->
      (exists (address err : string),
         In address addresses /\ decodeAddress address = Throw err) ->
      exists err : string,
        validateAddresses addresses integratedAddressesAllowed
        = Return (newWalletErrorWith WalletErrorCode.ADDRESS_NOT_VALID err))
  /\ (integratedAddressesAllowed = false ->
      (forall address : string,
         In address addresses ->
         exists parsed, decodeAddress address = Return parsed) ->
      (exists (address : string) (parsed : DecodedAddress.t),
         In address addresses
         /\ decodeAddress address = Return parsed
         /\ DecodedAddress.paymentId parsed <> EmptyString) ->
      validateAddresses addresses integratedAddressesAllowed
      = Return (newWalletError WalletErrorCode.ADDRESS_IS_INTEGRATED))
  /\ (forall (before after : list string) (address err : string),
        addresses = before ++ address :: after ->
        Forall (passes decodeAddress integratedAddressesAllowed) before ->
        decodeAddress address = Throw err ->
        validateAddresses addresses integratedAddressesAllowed
        = Return (newWalletErrorWith WalletErrorCode.ADDRESS_NOT_VALID err))
  /\ (forall (before after : list string) (address : string)
             (parsed : DecodedAddress.t),
        addresses = before ++ address :: after ->
        Forall (passes decodeAddress integratedAddressesAllowed) before ->
        decodeAddress address = Return parsed ->
        DecodedAddress.paymentId parsed <> EmptyString ->
        integratedAddressesAllowed = false ->
        validateAddresses addresses integratedAddressesAllowed
        = Return (newWalletError WalletErrorCode.ADDRESS_IS_INTEGRATED))
  /\ (Forall (passes decodeAddress integratedAddressesAllowed) addresses
      <-> validateAddresses addresses integratedAddressesAllowed
          = Return (newWalletError WalletErrorCode.SUCCESS)).
Proof.
  split; [|split; [|split; [|split; [|split]]]].
  - induction addresses as [|address rest IH]; simpl.
    + eexists. split; [reflexivity|]. now left.
    + rewrite validateAddress_returns.
      destruct (decodeAddress address) as [parsed|err]; simpl.
      * destruct (negb (String.length (DecodedAddress.paymentId parsed) =? 0)%nat
                  && negb integratedAddressesAllowed); simpl.
        -- eexists. split; [reflexivity|]. right. now right.
        -- exact IH.
      * eexists. split; [reflexivity|]. right. now left.
  - intros ->. apply validateAddresses_allowed_not_valid.
  - intros ->. apply validateAddresses_decoded_integrated.
  - intros before after address err -> Hbefore Hdec.
    rewrite validateAddresses_skip by assumption. simpl.
    rewrite validateAddress_returns, Hdec. reflexivity.
  - intros before after address parsed -> Hbefore Hdec Hpid ->.
    rewrite validateAddresses_skip by assumption. simpl.
    rewrite validateAddress_returns, Hdec.
    destruct (String.length (DecodedAddress.paymentId parsed) =? 0)%nat
      eqn:Hlen.
    + apply length_zero_empty in Hlen. contradiction.
    + reflexivity.
  - split.
    + intros Hall. rewrite <- (app_nil_r addresses).
      now rewrite validateAddresses_skip.
    + induction addresses as [|address rest IH]; simpl; [constructor|].
      destruct (validateAddress address integratedAddressesAllowed)
        as [[error|]|message] eqn:Hbody; simpl.
      * rewrite validateAddress_returns in Hbody.
        destruct (decodeAddress address) as [parsed|err].
        -- destruct (negb (String.length (DecodedAddress.paymentId parsed) =? 0)%nat
                     && negb integratedAddressesAllowed);
             [|discriminate].
           injection Hbody as <-. discriminate.
        -- injection Hbody as <-. discriminate.
      * intros Hrest. constructor; [|now apply IH].
        now apply validateAddress_None.
      * discriminate.
Qed.

End ValidateAddressesProperties.

(** Of a plain, an undecodable and an integrated address, the second one
    decides. *)
Lemma validateAddresses_never_throws_witness :
  Forall (passes Sample.decodeAddress false) ["TRTLplain"%string]
  /\ Sample.decodeAddress "garbage" = Throw "Error: Invalid address"
  /\ ValidateParameters.validateAddresses Sample.decodeAddress
       ["TRTLplain"; "garbage"; "TRTLintegrated"]%string false
     = Return (newWalletErrorWith WalletErrorCode.ADDRESS_NOT_VALID
                 "Error: Invalid address").
Proof.
  assert (Hplain : Forall (passes Sample.decodeAddress false)
                     ["TRTLplain"%string]).
  { repeat constructor. eexists. split; [reflexivity|]. now left. }
  split; [exact Hplain|]. split; [reflexivity|].
  exact (proj1 (proj2 (proj2 (proj2
           (validateAddresses_never_throws Sample.decodeAddress
              ["TRTLplain"; "garbage"; "TRTLintegrated"]%string false))))
           ["TRTLplain"%string] ["TRTLintegrated"%string] "garbage"%string
           "Error: Invalid address"%string eq_refl Hplain eq_refl).
Defined.

(** C9 as it is worded fails on the code: an address that fails to decode
    does not give [ADDRESS_NOT_VALID] when an integrated address stands
    before it and integrated addresses are not allowed, and an address with
    a payment ID does not give [ADDRESS_IS_INTEGRATED] when an address that
    fails to decode stands before it. The loop returns at the first address
    that does not pass. *)
Lemma validateAddresses_first_offender_decides :
  Sample.decodeAddress "garbage" = Throw "Error: Invalid address"
  /\ Sample.decodeAddress "TRTLintegrated"
     = Return {| DecodedAddress.publicSpendKey := "spendA";
                 DecodedAddress.paymentId := "paymentId" |}
  /\ ValidateParameters.validateAddresses Sample.decodeAddress
       ["TRTLintegrated"; "garbage"]%string false
     = Return (newWalletError WalletErrorCode.ADDRESS_IS_INTEGRATED)
  /\ ValidateParameters.validateAddresses Sample.decodeAddress
       ["garbage"; "TRTLintegrated"]%string false
     = Return (newWalletErrorWith WalletErrorCode.ADDRESS_NOT_VALID
                 "Error: Invalid address").
Proof. repeat split. Qed.

(** ** updateDaemonInfo *)

(** C8. After [updateDaemonInfo] has received an [info()] answer with
    [network_height = n], [getNetworkBlockCount()] is [n - 1] when
    [n !== 0], whatever the daemon's own height is, and is [n] itself, a
    zero, when [n === 0]. *)
Theorem updateDaemonInfo_networkBlockCount
    (config : Config) (info : DaemonInfo.t) (this : ConventionalDaemon.t) :
  let n := DaemonInfo.network_height info in
  let after := ConventionalDaemon.updateDaemonInfo config (Return info) this in
  (strictNe n 0%float = true ->
   ConventionalDaemon.getNetworkBlockCount after = (n - 1)%float)
  /\ (strictEq n 0%float = true ->
      ConventionalDaemon.getNetworkBlockCount after = n
      /\ strictEq (ConventionalDaemon.getNetworkBlockCount after) 0%float
         = true)
  /\ (n = 0%float ->
      ConventionalDaemon.getNetworkBlockCount after = 0%float).
Proof.
  intros n after. subst after. unfold ConventionalDaemon.getNetworkBlockCount.
  simpl. fold n. unfold strictNe, strictEq in *.
  destruct (n =? 0)%float eqn:Hzero; simpl.
  - split; [discriminate|]. split; [intros _; split; [reflexivity|exact Hzero]|].
    intros ->. reflexivity.
  - split; [reflexivity|]. split; [discriminate|].
    intros Hn. rewrite Hn in Hzero. discriminate.
Qed.

(** A network height of 1000 is stored as 999, whether the daemon reports
    a lower height of its own or not; a network height of 0 stays 0. *)
Lemma updateDaemonInfo_networkBlockCount_witness :
  strictNe 1000%float 0%float = true
  /\ ConventionalDaemon.getNetworkBlockCount
       (ConventionalDaemon.updateDaemonInfo Sample.config
          (Return (Sample.daemonInfo 1000%float))
          (ConventionalDaemon.new "127.0.0.1" 11898%float))
     = 999%float
  /\ ConventionalDaemon.getNetworkBlockCount
       (ConventionalDaemon.updateDaemonInfo Sample.config
          (Return (Sample.daemonInfo 0%float))
          (ConventionalDaemon.new "127.0.0.1" 11898%float))
     = 0%float.
Proof.
  split; [reflexivity|]. split.
  - exact (proj1 (updateDaemonInfo_networkBlockCount Sample.config
                    (Sample.daemonInfo 1000%float)
                    (ConventionalDaemon.new "127.0.0.1" 11898%float))
             eq_refl).
  - exact (proj2 (proj2 (updateDaemonInfo_networkBlockCount Sample.config
                           (Sample.daemonInfo 0%float)
                           (ConventionalDaemon.new "127.0.0.1" 11898%float)))
             eq_refl).
Defined.

(** ** SubWallets: the transactions *)

Lemma remove_In {A : Type} (predicate : A -> bool) (array : list A) (x : A) :
  In x (Lodash.remove predicate array) <-> In x array /\ predicate x = false.
Proof.
  unfold Lodash.remove. rewrite filter_In, negb_true_iff. reflexivity.
Qed.

Lemma hashes_In (hash : string) (transactions : list Transaction.t) :
  In hash (hashes transactions)
  <-> exists tx, In tx transactions /\ Transaction.hash tx = hash.
Proof.
  unfold hashes. rewrite in_map_iff. split; intros [tx [H1 H2]]; eauto.
Qed.

Lemma existsb_hash (hash : string) (transactions : list Transaction.t) :
  existsb (fun tx => String.eqb (Transaction.hash tx) hash) transactions = true
  <-> In hash (hashes transactions).
Proof.
  rewrite existsb_exists, hashes_In.
  split; intros [tx [Hin Heq]]; exists tx; split; try assumption.
  - now apply String.eqb_eq.
  - now apply String.eqb_eq.
Qed.

(** Once the locked transactions with a hash are removed, none has it. *)
Lemma remove_hash_absent (hash : string) (locked : list Transaction.t) :
  ~ In hash
      (hashes (Lodash.remove
                 (fun tx => String.eqb (Transaction.hash tx) hash) locked)).
Proof.
  rewrite hashes_In. intros [tx [Hin Heq]].
  apply remove_In in Hin. destruct Hin as [_ Hne].
  apply String.eqb_neq in Hne. contradiction.
Qed.

Lemma remove_hashes_incl (predicate : Transaction.t -> bool)
    (locked : list Transaction.t) (hash : string) :
  In hash (hashes (Lodash.remove predicate locked)) -> In hash (hashes locked).
Proof.
  rewrite !hashes_In. intros [tx [Hin Heq]].
  apply remove_In in Hin. exists tx. tauto.
Qed.

(** C3. [addTransaction(tx)] removes every locked transaction with the hash
    of [tx]; it throws, the confirmed transactions untouched, when a confirmed
    transaction has that hash, and otherwise returns with [tx] appended to
    them. In both cases the invariant on the hashes holds afterwards if it
    held before. *)
Theorem addTransaction_preserves_invariant
    (transaction : Transaction.t) (this : SubWallets.t) :
  let after := fst (SubWallets.addTransaction transaction this) in
  let outcome := snd (SubWallets.addTransaction transaction this) in
  SubWallets.lockedTransactions after
  = filter (fun tx => negb (String.eqb (Transaction.hash tx)
                                       (Transaction.hash transaction)))
           (SubWallets.lockedTransactions this)
  /\ ~ In (Transaction.hash transaction)
          (hashes (SubWallets.lockedTransactions after))
  /\ (In (Transaction.hash transaction)
         (hashes (SubWallets.transactions this)) ->
      (exists message : string, outcome = Throw message)
      /\ SubWallets.transactions after = SubWallets.transactions this)
  /\ (~ In (Transaction.hash transaction)
           (hashes (SubWallets.transactions this)) ->
      outcome = Return tt
      /\ SubWallets.transactions after
         = SubWallets.transactions this ++ [transaction])
  /\ (transactionsInvariant this -> transactionsInvariant after).
Proof.
  intros after outcome. subst after outcome.
  unfold SubWallets.addTransaction.
  destruct (existsb
              (fun tx => String.eqb (Transaction.hash tx)
                                    (Transaction.hash transaction))
              (SubWallets.transactions this)) eqn:Hsome; simpl.
  - apply existsb_hash in Hsome.
    split; [reflexivity|]. split; [apply remove_hash_absent|].
    split; [intros _; split; [eexists; reflexivity|reflexivity]|].
    split; [intros Habsent; contradiction|].
    intros [Hnodup Hdisjoint]. split; [exact Hnodup|]. simpl.
    intros hash Hin Hlocked. apply (Hdisjoint hash Hin).
    exact (remove_hashes_incl _ _ _ Hlocked).
  - assert (Habsent : ~ In (Transaction.hash transaction)
                          (hashes (SubWallets.transactions this))).
    { intros Hin. apply existsb_hash in Hin. congruence. }
    split; [reflexivity|]. split; [apply remove_hash_absent|].
    split; [intros Hin; contradiction|].
    split; [intros _; split; reflexivity|].
    intros [Hnodup Hdisjoint]. unfold transactionsInvariant. simpl.
    unfold hashes at 1 2. rewrite map_app. simpl. split.
    + apply NoDup_app; [exact Hnodup|repeat constructor; intros []|].
      intros hash Hin [<-|[]]. contradiction.
    + intros hash Hin Hlocked. apply in_app_or in Hin.
      destruct Hin as [Hin|[<-|[]]].
      * apply (Hdisjoint hash Hin). exact (remove_hashes_incl _ _ _ Hlocked).
      * exact (remove_hash_absent _ _ Hlocked).
Qed.

(** The locked transaction [hash3] is confirmed: it leaves the locked
    transactions and joins the confirmed ones. *)
Lemma addTransaction_preserves_invariant_witness :
  transactionsInvariant (Sample.wallet [])
  /\ transactionsInvariant
       (fst (SubWallets.addTransaction (Sample.transaction "hash3" 130%float)
               (Sample.wallet [])))
  /\ hashes (SubWallets.transactions
               (fst (SubWallets.addTransaction
                       (Sample.transaction "hash3" 130%float)
                       (Sample.wallet []))))
     = ["hash1"; "hash2"; "hash3"]%string
  /\ SubWallets.lockedTransactions
       (fst (SubWallets.addTransaction (Sample.transaction "hash3" 130%float)
               (Sample.wallet [])))
     = [].
Proof.
  assert (Hinv : transactionsInvariant (Sample.wallet [])).
  { split; simpl.
    - repeat constructor; simpl; intros H;
        repeat (destruct H as [H|H]; try discriminate H); exact H.
    - intros hash H1 H2.
      repeat (destruct H1 as [H1|H1]; try contradiction);
        subst hash;
        repeat (destruct H2 as [H2|H2]; try discriminate H2); exact H2. }
  split; [exact Hinv|]. split; [|split; reflexivity].
  exact (proj2 (proj2 (proj2 (proj2
           (addTransaction_preserves_invariant
              (Sample.transaction "hash3" 130%float) (Sample.wallet [])))))
           Hinv).
Defined.

(** C4. After [removeForkedTransactions(h)] no confirmed transaction has
    [blockHeight >= h]; the confirmed transactions are those of before
    without the ones at [h] or above, in their order, so that every one with
    [blockHeight < h] is still there; and the locked transactions are the
    list of before. *)
Theorem removeForkedTransactions_transactions
    (forkHeight : number) (this : SubWallets.t) :
  let after := SubWallets.removeForkedTransactions forkHeight this in
  (forall tx : Transaction.t,
     In tx (SubWallets.transactions after) ->
     ge (Transaction.blockHeight tx) forkHeight = false)
  /\ (forall tx : Transaction.t,
        In tx (SubWallets.transactions this) ->
        lt (Transaction.blockHeight tx) forkHeight = true ->
        In tx (SubWallets.transactions after))
  /\ SubWallets.transactions after
     = filter (fun tx => negb (ge (Transaction.blockHeight tx) forkHeight))
              (SubWallets.transactions this)
  /\ SubWallets.lockedTransactions after = SubWallets.lockedTransactions this.
Proof.
  intros after. subst after. simpl.
  split; [|split; [|split; reflexivity]].
  - intros tx Hin. apply remove_In in Hin. tauto.
  - intros tx Hin Hlt. apply remove_In. split; [exact Hin|].
    now apply lt_not_ge.
Qed.

(** A fork at height 100 keeps the transaction of height 50, drops the one
    of height 120 and leaves the locked transaction alone. *)
Lemma removeForkedTransactions_transactions_witness :
  In (Sample.transaction "hash1" 50%float)
     (SubWallets.transactions (Sample.wallet []))
  /\ lt (Transaction.blockHeight (Sample.transaction "hash1" 50%float))
        100%float = true
  /\ In (Sample.transaction "hash1" 50%float)
        (SubWallets.transactions
           (SubWallets.removeForkedTransactions 100%float (Sample.wallet [])))
  /\ hashes (SubWallets.transactions
               (SubWallets.removeForkedTransactions 100%float
                  (Sample.wallet [])))
     = ["hash1"%string]
  /\ hashes (SubWallets.lockedTransactions
               (SubWallets.removeForkedTransactions 100%float
                  (Sample.wallet [])))
     = ["hash3"%string].
Proof.
  split; [now left|]. split; [reflexivity|]. split; [|split; reflexivity].
  exact (proj1 (proj2 (removeForkedTransactions_transactions 100%float
                         (Sample.wallet [])))
           (Sample.transaction "hash1" 50%float) (or_introl eq_refl) eq_refl).
Defined.

(** ** SubWallets: key images *)

Lemma has_In (x : string) (s : JsSet.t) : JsSet.has x s = true <-> In x s.
Proof.
  unfold JsSet.has. rewrite existsb_exists. split.
  - intros [y [Hin Heq]]. apply String.eqb_eq in Heq. now subst y.
  - intros Hin. exists x. split; [exact Hin|apply String.eqb_refl].
Qed.

(** The loop stops at the first subwallet that has the key image. *)
Lemma findKeyImageOwner_cases
    (keyImage : string) (entries : list (string * SubWallet.t)) :
  (exists (publicKey : string) (subWallet : SubWallet.t),
     SubWallets.findKeyImageOwner keyImage entries = (true, publicKey)
     /\ In (publicKey, subWallet) entries
     /\ In keyImage (SubWallet.keyImages subWallet))
  \/ (SubWallets.findKeyImageOwner keyImage entries = (false, EmptyString)
      /\ forall (publicKey : string) (subWallet : SubWallet.t),
           In (publicKey, subWallet) entries ->
           ~ In keyImage (SubWallet.keyImages subWallet)).
Proof.
  induction entries as [|[publicKey subWallet] rest IH]; simpl.
  - right. split; [reflexivity|]. intros _ _ [].
  - destruct (SubWallet.hasKeyImage keyImage subWallet) eqn:Hhas.
    + left. exists publicKey, subWallet.
      split; [reflexivity|]. split; [now left|]. now apply has_In.
    + destruct IH as [[pk [sw [Hres [Hin Hki]]]]|[Hres Hnone]].
      * left. exists pk, sw. split; [exact Hres|]. split; [now right|exact Hki].
      * right. split; [exact Hres|].
        intros pk sw [[= <- <-]|Hin]; [|now apply (Hnone pk sw)].
        intros Hki. apply has_In in Hki.
        unfold SubWallet.hasKeyImage in Hhas. congruence.
Qed.

(** C6. In a view wallet [getKeyImageOwner(ki)] is [(false, '')]. In any
    other wallet it is [(true, pk)] for an entry [pk] of the map whose
    subwallet has [ki] among its key images, or it is [(false, '')] and no
    subwallet has [ki]; it is [(false, '')] exactly when no subwallet has
    [ki]. *)
Theorem getKeyImageOwner_spec (keyImage : string) (this : SubWallets.t) :
  (SubWallets.isViewWallet this = true ->
   SubWallets.getKeyImageOwner keyImage this = (false, EmptyString))
  /\ (SubWallets.isViewWallet this = false ->
      ((exists (publicKey : string) (subWallet : SubWallet.t),
          SubWallets.getKeyImageOwner keyImage this = (true, publicKey)
          /\ In (publicKey, subWallet) (SubWallets.subWallets this)
          /\ In keyImage (SubWallet.keyImages subWallet))
       \/ (SubWallets.getKeyImageOwner keyImage this = (false, EmptyString)
           /\ forall (publicKey : string) (subWallet : SubWallet.t),
                In (publicKey, subWallet) (SubWallets.subWallets this) ->
                ~ In keyImage (SubWallet.keyImages subWallet)))
      /\ (SubWallets.getKeyImageOwner keyImage this = (false, EmptyString)
          <-> forall (publicKey : string) (subWallet : SubWallet.t),
                In (publicKey, subWallet) (SubWallets.subWallets this) ->
                ~ In keyImage (SubWallet.keyImages subWallet))).
Proof.
  unfold SubWallets.getKeyImageOwner. split.
  - intros ->. reflexivity.
  - intros ->.
    pose proof (findKeyImageOwner_cases keyImage (SubWallets.subWallets this))
      as Hcases.
    split; [exact Hcases|].
    destruct Hcases as [[pk [sw [Hres [Hin Hki]]]]|[Hres Hnone]].
    + rewrite Hres. split; [discriminate|].
      intros Hnone. exfalso. exact (Hnone pk sw Hin Hki).
    + split; [intros _; exact Hnone|intros _; exact Hres].
Qed.

(** The key image [imageB] belongs to the second subwallet; a view wallet
    with the same subwallets finds no owner. *)
Lemma getKeyImageOwner_spec_witness :
  SubWallets.isViewWallet (Sample.wallet []) = false
  /\ SubWallets.getKeyImageOwner "imageB" (Sample.wallet [])
     = (true, "spendB"%string)
  /\ SubWallets.isViewWallet (Sample.viewWallet []) = true
  /\ SubWallets.getKeyImageOwner "imageB" (Sample.viewWallet [])
     = (false, EmptyString).
Proof.
  split; [reflexivity|]. split; [reflexivity|]. split; [reflexivity|].
  exact (proj1 (getKeyImageOwner_spec "imageB" (Sample.viewWallet []))
           eq_refl).
Defined.

(** ** SubWallets: the balance *)

Section GetBalanceProperties.
Variable config : Config.
Variable nowSeconds : number.

Local Abbreviation subWalletBalance :=
  (SubWallet.getBalance config nowSeconds).
Local Abbreviation getBalance := (SubWallets.getBalance config nowSeconds).
Local Abbreviation sumBalances := (SubWallets.sumBalances config nowSeconds).

Lemma sumBalances_known (currentHeight : number) (this : SubWallets.t)
    (keys : list string) (subWallets : list SubWallet.t) :
  storedUnder this keys subWallets ->
  forall unlockedBalance lockedBalance : number,
    sumBalances currentHeight this keys unlockedBalance lockedBalance
    = Return
        (sumFrom unlockedBalance
           (map (fun subWallet => fst (subWalletBalance currentHeight subWallet))
                subWallets),
         sumFrom lockedBalance
           (map (fun subWallet => snd (subWalletBalance currentHeight subWallet))
                subWallets)).
Proof.
  induction 1 as [|key subWallet keys subWallets Hget _ IH];
    intros unlockedBalance lockedBalance; simpl; [reflexivity|].
  rewrite Hget. apply IH.
Qed.

Lemma sumBalances_throws (currentHeight : number) (this : SubWallets.t)
    (keys : list string) :
  forall unlockedBalance lockedBalance : number,
    (exists message : string,
       sumBalances currentHeight this keys unlockedBalance lockedBalance
       = Throw message)
    <-> exists key : string,
          In key keys /\ JsMap.get key (SubWallets.subWallets this) = None.
Proof.
  induction keys as [|key keys IH]; intros unlockedBalance lockedBalance;
    simpl.
  - split; [intros [message H]; discriminate|intros [key [[] _]]].
  - destruct (JsMap.get key (SubWallets.subWallets this)) as [subWallet|]
      eqn:Hget.
    + rewrite IH. split.
      * intros [key' [Hin Hnone]]. exists key'. split; [now right|exact Hnone].
      * intros [key' [[<-|Hin] Hnone]]; [congruence|].
        exists key'. split; assumption.
    + split; [|intros _; eexists; reflexivity].
      intros _. exists key. split; [now left|exact Hget].
Qed.

(** C7. [getBalance(currentHeight, subset)] throws exactly when some key of
    [subset] is not a key of the map of subwallets. Otherwise, each key of
    [subset] having its subwallet, it returns the unlocked balances of these
    subwallets added up, and their locked balances added up. Without
    [subset] it does the same over [publicSpendKeys]. *)
Theorem getBalance_spec (currentHeight : number) (this : SubWallets.t) :
  (forall subset : list string,
     (exists message : string,
        getBalance currentHeight (Some subset) this = Throw message)
     <-> exists key : string,
           In key subset
           /\ JsMap.get key (SubWallets.subWallets this) = None)
  /\ (forall (subset : list string) (subWallets : list SubWallet.t),
        storedUnder this subset subWallets ->
        getBalance currentHeight (Some subset) this
        = Return
            (sumFrom 0%float
               (map (fun subWallet =>
                       fst (subWalletBalance currentHeight subWallet))
                    subWallets),
             sumFrom 0%float
               (map (fun subWallet =>
                       snd (subWalletBalance currentHeight subWallet))
                    subWallets)))
  /\ getBalance currentHeight None this
     = getBalance currentHeight (Some (SubWallets.publicSpendKeys this)) this
  /\ (forall subset : list string,
        (forall key : string,
           In key subset ->
           JsMap.get key (SubWallets.subWallets this) <> None) ->
        exists subWallets : list SubWallet.t,
          storedUnder this subset subWallets).
Proof.
  unfold SubWallets.getBalance. split; [|split; [|split]].
  - intros subset. apply sumBalances_throws.
  - intros subset subWallets Hstored. now apply sumBalances_known.
  - reflexivity.
  - intros subset. induction subset as [|key keys IH]; intros Hknown.
    + exists []. constructor.
    + destruct IH as [subWallets Hstored].
      { intros k Hin. apply Hknown. now right. }
      destruct (JsMap.get key (SubWallets.subWallets this)) as [subWallet|]
        eqn:Hget.
      * exists (subWallet :: subWallets). now constructor.
      * exfalso. apply (Hknown key); [now left|exact Hget].
Qed.

End GetBalanceProperties.

(** The balance over both subwallets of the sample wallet, asked for by
    name and by default; an unknown key is fatal. *)
Lemma getBalance_spec_witness :
  storedUnder
    (Sample.wallet [Sample.input "imageA" 70%float])
    ["spendA"; "spendB"]%string
    [Sample.subWallet "spendA" [Sample.input "imageA" 70%float];
     Sample.subWallet "spendB" [Sample.input "imageB" 5%float]]
  /\ SubWallets.getBalance Sample.config Sample.nowSeconds 200%float
       (Some ["spendA"; "spendB"]%string)
       (Sample.wallet [Sample.input "imageA" 70%float])
     = Return (75%float, 0%float)
  /\ SubWallets.getBalance Sample.config Sample.nowSeconds 200%float None
       (Sample.wallet [Sample.input "imageA" 70%float])
     = Return (75%float, 0%float)
  /\ exists message : string,
       SubWallets.getBalance Sample.config Sample.nowSeconds 200%float
         (Some ["spendA"; "spendC"]%string)
         (Sample.wallet [Sample.input "imageA" 70%float])
       = Throw message.
Proof.
  assert (Hstored :
            storedUnder
              (Sample.wallet [Sample.input "imageA" 70%float])
              ["spendA"; "spendB"]%string
              [Sample.subWallet "spendA" [Sample.input "imageA" 70%float];
               Sample.subWallet "spendB" [Sample.input "imageB" 5%float]]).
  { repeat constructor. }
  split; [exact Hstored|]. split; [|split].
  - exact (proj1 (proj2 (getBalance_spec Sample.config Sample.nowSeconds
                           200%float _)) _ _ Hstored).
  - reflexivity.
  - apply (proj1 (getBalance_spec Sample.config Sample.nowSeconds
                    200%float _)).
    exists "spendC"%string. split; [right; now left|reflexivity].
Defined.

(** ** Serialization *)

Section MapFacts.
Variable V : Type.

Lemma set_fresh (k : string) (v : V) (m : JsMap.t V) :
  ~ In k (JsMap.keys m) -> JsMap.set k v m = m ++ [(k, v)].
Proof.
  induction m as [|[k' v'] rest IH]; simpl; [reflexivity|].
  intros H. destruct (String.eqb_spec k' k) as [->|Hne].
  - exfalso. apply H. now left.
  - rewrite IH; [reflexivity|]. intros E. apply H. now right.
Qed.

Lemma ofEntries_from (m entries : JsMap.t V) :
  NoDup (JsMap.keys (m ++ entries)) ->
  fold_left (fun m kv => JsMap.set (fst kv) (snd kv) m) entries m
  = m ++ entries.
Proof.
  revert m. induction entries as [|[k v] rest IH]; intros m H; simpl.
  - now rewrite app_nil_r.
  - rewrite set_fresh.
    + rewrite IH; rewrite <- app_assoc; [reflexivity|exact H].
    + unfold JsMap.keys in H. rewrite map_app in H. simpl in H.
      apply NoDup_remove_2 in H. intros E. apply H.
      apply in_or_app. now left.
Qed.

(** [new Map(entries)] of the entries of a map is the map. *)
Lemma ofEntries_wf (m : JsMap.t V) : JsMap.wf m -> JsMap.ofEntries m = m.
Proof. intros H. unfold JsMap.ofEntries. now rewrite ofEntries_from. Qed.

End MapFacts.

Lemma add_fresh (x : string) (s : JsSet.t) :
  ~ In x s -> JsSet.add x s = s ++ [x].
Proof.
  intros H. unfold JsSet.add. destruct (JsSet.has x s) eqn:Hhas.
  - apply has_In in Hhas. contradiction.
  - reflexivity.
Qed.

Lemma ofArray_from (s array : JsSet.t) :
  NoDup (s ++ array) ->
  fold_left (fun s x => JsSet.add x s) array s = s ++ array.
Proof.
  revert s. induction array as [|x rest IH]; intros s H; simpl.
  - now rewrite app_nil_r.
  - rewrite add_fresh.
    + rewrite IH; rewrite <- app_assoc; [reflexivity|exact H].
    + apply NoDup_remove_2 in H. intros E. apply H.
      apply in_or_app. now left.
Qed.

(** [new Set(array)] of the members of a set is the set. *)
Lemma ofArray_wf (s : JsSet.t) : JsSet.wf s -> JsSet.ofArray s = s.
Proof. intros H. unfold JsSet.ofArray. now rewrite ofArray_from. Qed.

Lemma map_id_on {A : Type} (f : A -> A) (l : list A) :
  Forall (fun x => f x = x) l -> map f l = l.
Proof.
  induction 1 as [|x l Hx _ IH]; simpl; [reflexivity|]. now rewrite Hx, IH.
Qed.

Lemma TransactionInput_roundtrip (input : TransactionInput.t) :
  TransactionInput.fromJSON (TransactionInput.toJSON input) = input.
Proof. destruct input. reflexivity. Qed.

Lemma UnconfirmedInput_roundtrip (input : UnconfirmedInput.t) :
  UnconfirmedInput.fromJSON (UnconfirmedInput.toJSON input) = input.
Proof. destruct input. reflexivity. Qed.

Lemma Transaction_roundtrip (transaction : Transaction.t) :
  JsMap.wf (Transaction.transfers transaction) ->
  Transaction.fromJSON (Transaction.toJSON transaction) = transaction.
Proof.
  destruct transaction as [transfers hash fee height time pid unlock coinbase].
  simpl. intros Hwf. unfold Transaction.fromJSON, Transaction.toJSON. simpl.
  unfold transfersToVector. rewrite map_map. simpl.
  rewrite (map_id_on (fun kv => (fst kv, snd kv))).
  - now rewrite ofEntries_wf.
  - apply Forall_forall. intros [k v] _. reflexivity.
Qed.

Lemma SubWallet_roundtrip (subWallet : SubWallet.t) :
  JsSet.wf (SubWallet.keyImages subWallet) ->
  SubWallet.fromJSON (SubWallet.toJSON subWallet) = subWallet.
Proof.
  destruct subWallet as [addr pub priv scan created inputs locked images].
  simpl. intros Hwf. unfold SubWallet.fromJSON, SubWallet.toJSON. simpl.
  rewrite !map_map, ofArray_wf by exact Hwf.
  rewrite (map_id_on (fun x => TransactionInput.fromJSON (TransactionInput.toJSON x))).
  - rewrite (map_id_on (fun x => UnconfirmedInput.fromJSON (UnconfirmedInput.toJSON x))).
    + reflexivity.
    + apply Forall_forall. intros x _. apply UnconfirmedInput_roundtrip.
  - apply Forall_forall. intros x _. apply TransactionInput_roundtrip.
Qed.

Lemma SubWallets_roundtrip (this : SubWallets.t) :
  validState this -> SubWallets.fromJSON (SubWallets.toJSON this) = this.
Proof.
  destruct this as [view keys subs txs locked viewKey txKeys].
  unfold validState. simpl. intros (Hsubs & Heach & Htxs & Hlocked & HtxKeys).
  unfold SubWallets.fromJSON, SubWallets.toJSON. simpl.
  unfold txPrivateKeysToVector, JsMap.values. rewrite !map_map. simpl.
  f_equal.
  - rewrite (map_id_on
               (fun entry =>
                  (SubWallet.publicSpendKey (snd entry),
                   SubWallet.fromJSON (SubWallet.toJSON (snd entry))))).
    + now apply ofEntries_wf.
    + apply Forall_forall. intros [k sw] Hin.
      rewrite Forall_forall in Heach. destruct (Heach _ Hin) as [Hkey Hset].
      simpl in *. now rewrite Hkey, SubWallet_roundtrip.
  - apply map_id_on. revert Htxs. apply Forall_impl.
    intros tx. apply Transaction_roundtrip.
  - apply map_id_on. revert Hlocked. apply Forall_impl.
    intros tx. apply Transaction_roundtrip.
  - rewrite (map_id_on (fun kv => (fst kv, snd kv))).
    + now apply ofEntries_wf.
    + apply Forall_forall. intros [k v] _. reflexivity.
Qed.

(** The object that [Transaction.fromJSON] builds has the eight declared
    properties, with the values that [fromJSON] gives to the fields, and one
    more, [isCoinbaseTransactions]. *)
Lemma Transaction_fromJSON_properties (json : TransactionJSON.t) :
  Transaction.ofProperties (Transaction.fromJSONProperties json)
  = Some (Transaction.fromJSON json)
  /\ JsMap.keys (Transaction.fromJSONProperties json)
     = ["transfers"; "hash"; "fee"; "blockHeight"; "timestamp"; "paymentID";
        "unlockTime"; "isCoinbaseTransaction"; "isCoinbaseTransactions"]%string.
Proof. destruct json. split; reflexivity. Qed.

(** C5. Reading back what [toJSON] wrote gives the state back: a valid
    [SubWallets] is equal to [SubWallets.fromJSON] of its [toJSON], maps
    included with their order, and a [Transaction] is equal to
    [Transaction.fromJSON] of its [toJSON], the declared fields being read
    from the object that [Object.assign] builds. *)
Theorem fromJSON_toJSON :
  (forall this : SubWallets.t,
     validState this -> SubWallets.fromJSON (SubWallets.toJSON this) = this)
  /\ (forall transaction : Transaction.t,
        JsMap.wf (Transaction.transfers transaction) ->
        Transaction.fromJSON (Transaction.toJSON transaction) = transaction)
  /\ (forall transaction : Transaction.t,
        JsMap.wf (Transaction.transfers transaction) ->
        Transaction.ofProperties
          (Transaction.fromJSONProperties (Transaction.toJSON transaction))
        = Some transaction).
Proof.
  split; [exact SubWallets_roundtrip|]. split; [exact Transaction_roundtrip|].
  intros transaction Hwf.
  rewrite (proj1 (Transaction_fromJSON_properties _)).
  now rewrite Transaction_roundtrip.
Qed.

Lemma Sample_wallet_valid (inputs : list TransactionInput.t) :
  NoDup (map TransactionInput.keyImage inputs) ->
  validState (Sample.wallet inputs).
Proof.
  intros Hinputs.
  unfold validState, JsMap.wf, JsSet.wf. simpl.
  repeat split;
    repeat (constructor; simpl);
    try exact Hinputs;
    try (intros H; repeat (destruct H as [H|H]; try discriminate H); exact H).
Qed.

(** The sample wallet, with two inputs, and its first transaction survive
    the round trip. *)
Lemma fromJSON_toJSON_witness :
  validState
    (Sample.wallet [Sample.input "imageA" 70%float;
                    Sample.input "imageC" 0.5%float])
  /\ SubWallets.fromJSON
       (SubWallets.toJSON
          (Sample.wallet [Sample.input "imageA" 70%float;
                          Sample.input "imageC" 0.5%float]))
     = Sample.wallet [Sample.input "imageA" 70%float;
                      Sample.input "imageC" 0.5%float]
  /\ Transaction.fromJSON
       (Transaction.toJSON (Sample.transaction "hash1" 50%float))
     = Sample.transaction "hash1" 50%float.
Proof.
  assert (Hvalid :
            validState
              (Sample.wallet [Sample.input "imageA" 70%float;
                              Sample.input "imageC" 0.5%float])).
  { apply Sample_wallet_valid. simpl.
    repeat constructor; simpl; intros H;
      repeat (destruct H as [H|H]; try discriminate H); exact H. }
  split; [exact Hvalid|]. split.
  - exact (proj1 fromJSON_toJSON _ Hvalid).
  - apply (proj1 (proj2 fromJSON_toJSON)). unfold JsMap.wf. simpl.
    repeat constructor. intros [].
Defined.

(** ** Numbers: comparisons without [NaN] *)

Lemma SFcompare_total (x y : spec_float) :
  x <> S754_nan -> y <> S754_nan -> SFcompare x y <> None.
Proof.
  destruct x, y; simpl; intros Hx Hy; try congruence.
Qed.

Lemma SFcompare_refl (x : spec_float) :
  x <> S754_nan -> SFcompare x x = Some Eq.
Proof.
  destruct x as [s|s| |s m e]; simpl; intros Hx; try congruence.
  - destruct s; reflexivity.
  - destruct s; rewrite Z.compare_refl;
      change (Pos.compare_cont Eq m m) with (Pos.compare m m);
      rewrite Pos.compare_refl; reflexivity.
Qed.

Lemma strictEq_refl_not_nan (a : number) :
  strictEq a a = true <-> Prim2SF a <> S754_nan.
Proof.
  unfold strictEq. rewrite eqb_spec. unfold SFeqb. split.
  - intros H E. rewrite E in H. discriminate.
  - intros H. now rewrite SFcompare_refl.
Qed.

Lemma isInteger_not_nan (a : number) :
  isInteger a = true -> strictEq a a = true.
Proof.
  intros H. apply strictEq_refl_not_nan. unfold isInteger in H.
  destruct (Prim2SF a); congruence.
Qed.

Lemma not_lt_ge (a b : number) :
  strictEq a a = true -> strictEq b b = true ->
  lt a b = false -> ge a b = true.
Proof.
  intros Ha Hb. apply strictEq_refl_not_nan in Ha, Hb.
  unfold lt, ge. rewrite ltb_spec, leb_spec. unfold SFltb, SFleb.
  rewrite (SFcompare_antisym (Prim2SF a) (Prim2SF b)).
  pose proof (SFcompare_total _ _ Ha Hb) as Htotal.
  destruct (SFcompare (Prim2SF a) (Prim2SF b)) as [[]|]; simpl; congruence.
Qed.

Lemma not_le_eq_gt (a b : number) :
  strictEq a a = true -> strictEq b b = true ->
  strictEq a b = false -> lt a b = false -> gt a b = true.
Proof.
  intros Ha Hb. apply strictEq_refl_not_nan in Ha, Hb.
  unfold strictEq, lt, gt. rewrite eqb_spec, !ltb_spec. unfold SFeqb, SFltb.
  rewrite (SFcompare_antisym (Prim2SF a) (Prim2SF b)).
  pose proof (SFcompare_total _ _ Ha Hb) as Htotal.
  destruct (SFcompare (Prim2SF a) (Prim2SF b)) as [[]|]; simpl; congruence.
Qed.

Lemma gt_not_eq_lt (a b : number) :
  gt a b = true -> strictEq a b = false /\ lt a b = false.
Proof.
  unfold strictEq, lt, gt. rewrite eqb_spec, !ltb_spec. unfold SFeqb, SFltb.
  rewrite (SFcompare_antisym (Prim2SF a) (Prim2SF b)).
  destruct (SFcompare (Prim2SF a) (Prim2SF b)) as [[]|]; simpl; auto; discriminate.
Qed.

(** ** validateDestinations *)

Section ValidateDestinationsProperties.
Variable decodeAddress : string -> completion DecodedAddress.t.

Local Abbreviation validateAddresses :=
  (ValidateParameters.validateAddresses decodeAddress).
Local Abbreviation validateDestinations :=
  (ValidateParameters.validateDestinations decodeAddress).
Local Abbreviation validateDestinationAmounts :=
  (ValidateParameters.validateDestinationAmounts decodeAddress).

Lemma passes_allowed (address : string) :
  passes decodeAddress true address <-> decodes decodeAddress address.
Proof.
  unfold passes, decodes. split.
  - intros [parsed [H _]]. now exists parsed.
  - intros [parsed H]. exists parsed. split; [exact H|now right].
Qed.

(** [validateAddresses] always returns, with one of three codes. *)
Lemma validateAddresses_returns (addresses : list string) (allowed : bool) :
  exists error : WalletError,
    validateAddresses addresses allowed = Return error
    /\ (errorCode error = WalletErrorCode.SUCCESS
        \/ errorCode error = WalletErrorCode.ADDRESS_NOT_VALID
        \/ errorCode error = WalletErrorCode.ADDRESS_IS_INTEGRATED).
Proof.
  induction addresses as [|address rest IH]; simpl.
  - eexists. split; [reflexivity|]. now left.
  - rewrite validateAddress_returns.
    destruct (decodeAddress address) as [parsed|err]; simpl.
    + destruct (negb (String.length (DecodedAddress.paymentId parsed) =? 0)%nat
                && negb allowed); simpl.
      * eexists. split; [reflexivity|]. right. now right.
      * exact IH.
    + eexists. split; [reflexivity|]. right. now left.
Qed.

(** [validateAddresses] returns a [SUCCESS] exactly when every address
    passes. *)
Lemma validateAddresses_success (addresses : list string) (allowed : bool)
    (error : WalletError) :
  validateAddresses addresses allowed = Return error ->
  errorCode error = WalletErrorCode.SUCCESS ->
  error = SUCCESS /\ Forall (passes decodeAddress allowed) addresses.
Proof.
  induction addresses as [|address rest IH]; simpl.
  - intros [= <-] _. split; [reflexivity|constructor].
  - destruct (ValidateParameters.validateAddress decodeAddress address allowed)
      as [[returned|]|message] eqn:Hbody; simpl.
    + rewrite validateAddress_returns in Hbody.
      destruct (decodeAddress address) as [parsed|err].
      * destruct (negb (String.length (DecodedAddress.paymentId parsed) =? 0)%nat
                  && negb allowed); [|discriminate].
        injection Hbody as <-. intros [= <-]. discriminate.
      * injection Hbody as <-. intros [= <-]. discriminate.
    + intros Hrest Hcode. destruct (IH Hrest Hcode) as [-> Hall].
      split; [reflexivity|]. constructor; [|exact Hall].
      now apply validateAddress_None.
    + discriminate.
Qed.

Lemma validateAddresses_all_pass (addresses : list string) (allowed : bool) :
  Forall (passes decodeAddress allowed) addresses ->
  validateAddresses addresses allowed = Return SUCCESS.
Proof.
  intros Hall. rewrite <- (app_nil_r addresses).
  now rewrite validateAddresses_skip.
Qed.

Lemma amountPasses_tests (amount : number) :
  amountPasses amount
  <-> strictEq amount 0%float = false /\ lt amount 0%float = false
      /\ isInteger amount = true.
Proof.
  unfold amountPasses. split.
  - intros [Hgt Hint]. destruct (gt_not_eq_lt _ _ Hgt). auto.
  - intros (Heq & Hlt & Hint). split; [|exact Hint].
    apply not_le_eq_gt; try assumption.
    + now apply isInteger_not_nan.
    + reflexivity.
Qed.

(** With every amount passing, the loop hands the addresses, in their
    order, to [validateAddresses], integrated addresses allowed. *)
Lemma validateDestinationAmounts_pass
    (destinations : list (string * number)) :
  Forall (fun destination => amountPasses (snd destination)) destinations ->
  forall destinationAddresses : list string,
    validateDestinationAmounts destinations destinationAddresses
    = validateAddresses (destinationAddresses ++ map fst destinations) true.
Proof.
  induction 1 as [|[destination amount] rest Hamount _ IH];
    intros destinationAddresses; simpl.
  - now rewrite app_nil_r.
  - apply amountPasses_tests in Hamount. simpl in Hamount.
    destruct Hamount as (-> & -> & ->). simpl.
    rewrite IH, <- app_assoc. reflexivity.
Qed.

(** An amount that does not pass stops the loop with one of the three
    amount errors, before any address is decoded. *)
Lemma validateDestinationAmounts_fail
    (destinations : list (string * number)) :
  Exists (fun destination => ~ amountPasses (snd destination)) destinations ->
  forall destinationAddresses : list string,
    exists code : WalletErrorCode.t,
      validateDestinationAmounts destinations destinationAddresses
      = Return (newWalletError code)
      /\ (code = WalletErrorCode.AMOUNT_IS_ZERO
          \/ code = WalletErrorCode.NEGATIVE_VALUE_GIVEN
          \/ code = WalletErrorCode.NON_INTEGER_GIVEN).
Proof.
  induction destinations as [|[destination amount] rest IH];
    intros Hsome destinationAddresses; [inversion Hsome|]. simpl.
  destruct (strictEq amount 0%float) eqn:Hzero;
    [eexists; split; [reflexivity|auto]|].
  destruct (lt amount 0%float) eqn:Hneg;
    [eexists; split; [reflexivity|auto]|].
  destruct (isInteger amount) eqn:Hint; simpl;
    [|eexists; split; [reflexivity|auto]].
  apply IH. inversion Hsome as [? ? Hhead|? ? Htail]; subst; [|exact Htail].
  exfalso. apply Hhead. apply amountPasses_tests. simpl. auto.
Qed.

Lemma amountPasses_dec (amount : number) :
  amountPasses amount \/ ~ amountPasses amount.
Proof.
  unfold amountPasses.
  destruct (gt amount 0%float), (isInteger amount); intuition congruence.
Qed.

Lemma Forall_or_Exists_amount (destinations : list (string * number)) :
  Forall (fun destination => amountPasses (snd destination)) destinations
  \/ Exists (fun destination => ~ amountPasses (snd destination)) destinations.
Proof.
  induction destinations as [|d rest [IH|IH]].
  - left. constructor.
  - destruct (amountPasses_dec (snd d)) as [H|H].
    + left. now constructor.
    + right. now constructor.
  - right. now constructor 2.
Qed.

Lemma validateDestinations_nonempty (destinations : list (string * number)) :
  destinations <> [] ->
  validateDestinations destinations
  = validateDestinationAmounts destinations [].
Proof.
  destruct destinations; [intros H; now contradiction H|reflexivity].
Qed.

(** The addresses of destinations that [validateDestinations] accepts
    decode. *)
Lemma validateDestinations_accepted_decode
    (destinations : list (string * number)) :
  validateDestinations destinations = Return SUCCESS ->
  Forall (fun destination => decodes decodeAddress (fst destination))
         destinations.
Proof.
  destruct destinations as [|d rest]; [constructor|].
  rewrite validateDestinations_nonempty by discriminate.
  destruct (Forall_or_Exists_amount (d :: rest)) as [Hall|Hsome].
  - rewrite (validateDestinationAmounts_pass (d :: rest) Hall).
    change ([] ++ map fst (d :: rest)) with (map fst (d :: rest)).
    intros Hres.
    destruct (validateAddresses_success _ _ _ Hres eq_refl) as [_ Hpass].
    rewrite Forall_map in Hpass. revert Hpass. apply Forall_impl.
    intros a. apply passes_allowed.
  - destruct (validateDestinationAmounts_fail (d :: rest) Hsome [])
      as [code [Hres Hcode]].
    rewrite Hres. intros [= E]. destruct Hcode as [->|[->| ->]]; discriminate.
Qed.

(** X1. [validateDestinations] returns [SUCCESS] exactly when there is at
    least one destination, every amount is a positive integer and every
    address decodes, with or without a payment ID. *)
Theorem validateDestinations_success
    (destinations : list (string * number)) :
  validateDestinations destinations = Return SUCCESS
  <-> destinations <> []
      /\ Forall (fun destination => amountPasses (snd destination))
                destinations
      /\ Forall (fun destination => decodes decodeAddress (fst destination))
                destinations.
Proof.
  destruct destinations as [|d rest].
  { split; [discriminate|]. intros [H _]. now contradiction H. }
  rewrite validateDestinations_nonempty by discriminate.
  destruct (Forall_or_Exists_amount (d :: rest)) as [Hall|Hsome].
  - rewrite (validateDestinationAmounts_pass (d :: rest) Hall).
    change ([] ++ map fst (d :: rest)) with (map fst (d :: rest)).
    split.
    + intros Hres. split; [discriminate|]. split; [exact Hall|].
      destruct (validateAddresses_success _ _ _ Hres eq_refl) as [_ Hpass].
      rewrite Forall_map in Hpass. revert Hpass. apply Forall_impl.
      intros a. apply passes_allowed.
    + intros (_ & _ & Hdec). apply validateAddresses_all_pass.
      rewrite Forall_map. revert Hdec. apply Forall_impl.
      intros a. apply passes_allowed.
  - destruct (validateDestinationAmounts_fail (d :: rest) Hsome [])
      as [code [Hres Hcode]].
    rewrite Hres. split.
    + intros [= E]. destruct Hcode as [->|[->| ->]]; discriminate.
    + intros (_ & Hall & _). exfalso.
      apply Exists_exists in Hsome. destruct Hsome as [x [Hin Hx]].
      rewrite Forall_forall in Hall. exact (Hx (Hall x Hin)).
Qed.

(** X2. [validateDestinations] never throws. An empty list gives
    [NO_DESTINATIONS_GIVEN]; an amount that is not a positive integer,
    wherever it stands, gives one of the three amount errors, whatever the
    addresses are; otherwise the result is that of [validateAddresses] on the
    addresses, integrated addresses allowed, so that it is never
    [ADDRESS_IS_INTEGRATED]. *)
Theorem validateDestinations_errors (destinations : list (string * number)) :
  (destinations = [] ->
   validateDestinations destinations
   = Return (newWalletError WalletErrorCode.NO_DESTINATIONS_GIVEN))
  /\ (Exists (fun destination => ~ amountPasses (snd destination))
             destinations ->
      exists code : WalletErrorCode.t,
        validateDestinations destinations = Return (newWalletError code)
        /\ (code = WalletErrorCode.AMOUNT_IS_ZERO
            \/ code = WalletErrorCode.NEGATIVE_VALUE_GIVEN
            \/ code = WalletErrorCode.NON_INTEGER_GIVEN))
  /\ (destinations <> [] ->
      Forall (fun destination => amountPasses (snd destination))
             destinations ->
      validateDestinations destinations
      = validateAddresses (map fst destinations) true)
  /\ (exists error : WalletError,
        validateDestinations destinations = Return error
        /\ errorCode error <> WalletErrorCode.ADDRESS_IS_INTEGRATED).
Proof.
  destruct destinations as [|d rest].
  { split; [reflexivity|]. split; [intros H; inversion H|].
    split; [intros H; now contradiction H|].
    eexists. split; [reflexivity|]. discriminate. }
  rewrite validateDestinations_nonempty by discriminate.
  split; [discriminate|].
  split; [intros Hsome; exact (validateDestinationAmounts_fail _ Hsome [])|].
  split; [intros _ Hall; exact (validateDestinationAmounts_pass _ Hall [])|].
  destruct (Forall_or_Exists_amount (d :: rest)) as [Hall|Hsome].
  - rewrite (validateDestinationAmounts_pass (d :: rest) Hall).
    change ([] ++ map fst (d :: rest)) with (map fst (d :: rest)).
    induction (map fst (d :: rest)) as [|address rest' IH]; simpl.
    + eexists. split; [reflexivity|]. discriminate.
    + rewrite validateAddress_returns.
      destruct (decodeAddress address) as [parsed|err]; simpl.
      * rewrite andb_false_r. simpl. exact IH.
      * eexists. split; [reflexivity|]. discriminate.
  - destruct (validateDestinationAmounts_fail (d :: rest) Hsome [])
      as [code [Hres Hcode]].
    rewrite Hres. eexists. split; [reflexivity|]. simpl.
    destruct Hcode as [->|[->| ->]]; discriminate.
Qed.

End ValidateDestinationsProperties.

(** ** validatePaymentID *)

Lemma hasAlphanumericRun_short (s : string) (run : nat) :
  (run + String.length s < 64)%nat ->
  ValidateParameters.hasAlphanumericRun s run = false.
Proof.
  revert run. induction s as [|c rest IH]; intros run Hlen; simpl in *;
    [reflexivity|].
  destruct (ValidateParameters.isAlphanumeric c).
  - destruct (Nat.eqb_spec run 63) as [E|_]; [lia|]. apply IH. lia.
  - apply IH. lia.
Qed.

Lemma hasAlphanumericRun_exact (s : string) (run : nat) :
  (run + String.length s = 64)%nat -> (0 < String.length s)%nat ->
  (ValidateParameters.hasAlphanumericRun s run = true <-> allAlphanumeric s).
Proof.
  unfold allAlphanumeric.
  revert run. induction s as [|c rest IH]; intros run Hlen Hpos; simpl in *;
    [lia|].
  destruct (ValidateParameters.isAlphanumeric c) eqn:Hc.
  - destruct (Nat.eqb_spec run 63) as [E|Hne].
    + assert (String.length rest = 0%nat) by lia.
      destruct rest; [|discriminate]. simpl.
      split; [intros _; repeat constructor; exact Hc|reflexivity].
    + rewrite IH by lia. split.
      * intros H. now constructor.
      * intros H. inversion H. assumption.
  - rewrite hasAlphanumericRun_short by lia. split; [discriminate|].
    intros H. inversion H. congruence.
Qed.

(** X3. [validatePaymentID] accepts the empty string and the strings of 64
    characters that are all letters or digits, and nothing else: another
    length gives [PAYMENT_ID_WRONG_LENGTH], and 64 characters of which one
    is no letter or digit give [PAYMENT_ID_INVALID]. *)
Theorem validatePaymentID_spec (paymentID : string) :
  (ValidateParameters.validatePaymentID paymentID = SUCCESS
   <-> paymentID = EmptyString
       \/ (String.length paymentID = 64%nat /\ allAlphanumeric paymentID))
  /\ (ValidateParameters.validatePaymentID paymentID
      = newWalletError WalletErrorCode.PAYMENT_ID_WRONG_LENGTH
      <-> paymentID <> EmptyString /\ String.length paymentID <> 64%nat)
  /\ (ValidateParameters.validatePaymentID paymentID
      = newWalletError WalletErrorCode.PAYMENT_ID_INVALID
      <-> String.length paymentID = 64%nat /\ ~ allAlphanumeric paymentID).
Proof.
  unfold ValidateParameters.validatePaymentID.
  destruct (String.eqb_spec paymentID EmptyString) as [->|Hne].
  { split; [split; [now left|reflexivity]|].
    split; (split; [discriminate|]); simpl.
    - intros [H _]. now contradiction H.
    - intros [H _]. discriminate. }
  destruct (Nat.eqb_spec (String.length paymentID) 64) as [Hlen|Hlen]; simpl.
  - assert (Hrun := hasAlphanumericRun_exact paymentID 0 Hlen).
    assert (Hpos : (0 < String.length paymentID)%nat) by lia.
    specialize (Hrun Hpos).
    destruct (ValidateParameters.hasAlphanumericRun paymentID 0); simpl.
    + assert (Hall : allAlphanumeric paymentID) by now apply Hrun.
      split; [split; [now right|reflexivity]|].
      split; (split; [discriminate|]).
      * intros [_ H]. contradiction.
      * intros [_ H]. contradiction.
    + assert (Hnot : ~ allAlphanumeric paymentID).
      { intros H. apply Hrun in H. discriminate. }
      split; [split; [discriminate|]|].
      * intros [H|[_ H]]; contradiction.
      * split; [split; [discriminate|intros [_ H]; contradiction]|].
        split; [auto|reflexivity].
  - split; [split; [discriminate|]|].
    + intros [H|[H _]]; contradiction.
    + split; [split; [auto|reflexivity]|].
      split; [discriminate|]. intros [H _]. contradiction.
Qed.

(** ** validateMixin *)

Section ValidateMixinProperties.
Variable getMixinLimitsByHeight : number -> number * number.
Variable numberToString : number -> string.

(** X4. When the limits for the height are numbers (not [NaN]),
    [validateMixin] returns [SUCCESS] exactly when the mixin is an integer,
    at least 0, at least the minimum and at most the maximum. *)
Theorem validateMixin_success (mixin height : number) :
  strictEq (fst (getMixinLimitsByHeight height))
           (fst (getMixinLimitsByHeight height)) = true ->
  strictEq (snd (getMixinLimitsByHeight height))
           (snd (getMixinLimitsByHeight height)) = true ->
  (ValidateParameters.validateMixin getMixinLimitsByHeight numberToString
     mixin height = SUCCESS
   <-> isInteger mixin = true
       /\ ge mixin 0%float = true
       /\ ge mixin (fst (getMixinLimitsByHeight height)) = true
       /\ ge (snd (getMixinLimitsByHeight height)) mixin = true).
Proof.
  intros Hmin Hmax. unfold ValidateParameters.validateMixin.
  destruct (lt mixin 0%float) eqn:Hneg.
  { split; [discriminate|]. intros (_ & H & _).
    apply ge_not_lt in H. congruence. }
  destruct (isInteger mixin) eqn:Hint; simpl.
  2: { split; [discriminate|]. intros (H & _). discriminate. }
  assert (Hnum : strictEq mixin mixin = true) by now apply isInteger_not_nan.
  destruct (lt mixin (fst (getMixinLimitsByHeight height))) eqn:Hlow.
  { split; [discriminate|]. intros (_ & _ & H & _).
    apply ge_not_lt in H. congruence. }
  destruct (gt mixin (snd (getMixinLimitsByHeight height))) eqn:Hhigh.
  { split; [discriminate|]. intros (_ & _ & _ & H).
    apply ge_not_lt in H. unfold gt in Hhigh. unfold lt in H. congruence. }
  change (lt (snd (getMixinLimitsByHeight height)) mixin = false) in Hhigh.
  split; [intros _|reflexivity].
  split; [reflexivity|]. split; [|split].
  - apply not_lt_ge; [exact Hnum|reflexivity|exact Hneg].
  - apply not_lt_ge; assumption.
  - apply not_lt_ge; assumption.
Qed.

End ValidateMixinProperties.

(** At height 700000 the limits are 3 and 7: a mixin of 3 is accepted. *)
Lemma validateMixin_success_witness :
  ValidateParameters.validateMixin Sample.getMixinLimitsByHeight
    Sample.numberToString 3%float 700000%float = SUCCESS
  /\ isInteger 3%float = true
  /\ ge 3%float 0%float = true
  /\ ge 3%float (fst (Sample.getMixinLimitsByHeight 700000%float)) = true
  /\ ge (snd (Sample.getMixinLimitsByHeight 700000%float)) 3%float = true.
Proof.
  split; [|repeat split].
  apply (validateMixin_success Sample.getMixinLimitsByHeight
           Sample.numberToString 3%float 700000%float);
    [reflexivity|reflexivity|repeat split].
Defined.

(** ** validateAmount, validateOurAddresses, validateIntegratedAddresses *)

(** X5. [validateAmount] throws exactly when the fee passes the two fee
    checks and one of the source subwallets is not in the wallet. *)
Theorem validateAmount_throws (config : Config) (nowSeconds : number)
    (destinations : list (string * number)) (fee : number)
    (subWalletsToTakeFrom : list string) (subWallets : SubWallets.t)
    (currentHeight : number) :
  (exists message : string,
     ValidateParameters.validateAmount config nowSeconds destinations fee
       subWalletsToTakeFrom subWallets currentHeight = Throw message)
  <-> lt fee (minimumFee config) = false
      /\ isInteger fee = false
      /\ exists key : string,
           In key subWalletsToTakeFrom
           /\ JsMap.get key (SubWallets.subWallets subWallets) = None.
Proof.
  rewrite <- (sumBalances_throws config nowSeconds currentHeight subWallets
                subWalletsToTakeFrom 0%float 0%float).
  unfold ValidateParameters.validateAmount, SubWallets.getBalance.
  destruct (lt fee (minimumFee config)).
  { split; [intros [m H]; discriminate|intros [H _]; discriminate]. }
  destruct (isInteger fee).
  { split; [intros [m H]; discriminate|intros (_ & H & _); discriminate]. }
  destruct (SubWallets.sumBalances config nowSeconds currentHeight subWallets
              subWalletsToTakeFrom 0%float 0%float) as [balance|message];
    simpl.
  - split; [|intros (_ & _ & [m H]); discriminate].
    intros [m H].
    destruct (gt (Lodash.sumBy snd destinations + fee)%float (fst balance));
      [discriminate|].
    destruct (ge (Lodash.sumBy snd destinations + fee)%float two64);
      discriminate.
  - split; [intros _; repeat split; now exists message|].
    intros _. now exists message.
Qed.

Section ValidateOurAddressesProperties.
Variable decodeAddress : string -> completion DecodedAddress.t.

Local Abbreviation validateOurAddresses :=
  (ValidateParameters.validateOurAddresses decodeAddress).

Lemma deepEqual_SUCCESS (error : WalletError) :
  ValidateParameters.deepEqual error SUCCESS = true <-> error = SUCCESS.
Proof.
  unfold ValidateParameters.deepEqual. destruct error as [code message].
  simpl. destruct (WalletErrorCode.eq_dec code WalletErrorCode.SUCCESS)
    as [->|Hne]; simpl.
  - destruct (String.eqb_spec message EmptyString) as [->|Hm].
    + split; reflexivity.
    + split; [discriminate|]. intros [= E]. contradiction.
  - split; [discriminate|]. intros [= E _]. contradiction.
Qed.

Lemma existsb_eqb_In (x : string) (l : list string) :
  existsb (String.eqb x) l = true <-> In x l.
Proof.
  rewrite existsb_exists. split.
  - intros [y [Hin Heq]]. apply String.eqb_eq in Heq. now subst y.
  - intros Hin. exists x. split; [exact Hin|apply String.eqb_refl].
Qed.

Lemma validateAddressesInWallet_spec (addresses : list string)
    (subWallets : SubWallets.t) :
  Forall (passes decodeAddress false) addresses ->
  (exists error : WalletError,
     ValidateParameters.validateAddressesInWallet decodeAddress addresses
       subWallets = Return error)
  /\ (ValidateParameters.validateAddressesInWallet decodeAddress addresses
        subWallets = Return SUCCESS
      <-> Forall (ours decodeAddress subWallets) addresses).
Proof.
  induction 1 as [|address rest [parsed [Hdec Hpid]] _ [IHret IHiff]]; simpl.
  - split; [now eexists|]. split; [constructor|reflexivity].
  - rewrite Hdec. simpl.
    destruct Hpid as [Hpid|Hallowed]; [|discriminate].
    unfold SubWallets.getPublicSpendKeys.
    destruct (existsb (String.eqb (DecodedAddress.publicSpendKey parsed))
                (SubWallets.publicSpendKeys subWallets)) eqn:Hin; simpl.
    + apply existsb_eqb_In in Hin. split; [exact IHret|].
      rewrite IHiff. split.
      * intros Hrest. constructor; [|exact Hrest]. now exists parsed.
      * intros Hall. now inversion Hall.
    + split; [now eexists|]. split; [discriminate|].
      intros Hall. inversion Hall as [|? ? [parsed' (Hdec' & _ & Hin')] _].
      subst. rewrite Hdec in Hdec'. injection Hdec' as <-.
      apply existsb_eqb_In in Hin'. congruence.
Qed.

(** X6. [validateOurAddresses] never throws, although its second loop calls
    [decodeAddress] outside any [try]: the first pass has made sure that
    every address decodes. It returns [SUCCESS] exactly when every address
    decodes, carries no payment ID and has its public spend key among those
    of the wallet. *)
Theorem validateOurAddresses_spec (addresses : list string)
    (subWallets : SubWallets.t) :
  (exists error : WalletError,
     validateOurAddresses addresses subWallets = Return error)
  /\ (validateOurAddresses addresses subWallets = Return SUCCESS
      <-> Forall (ours decodeAddress subWallets) addresses).
Proof.
  unfold ValidateParameters.validateOurAddresses.
  destruct (validateAddresses_returns decodeAddress addresses false)
    as [error [Hres Hcode]].
  rewrite Hres. simpl.
  destruct (ValidateParameters.deepEqual error SUCCESS) eqn:Hequal; simpl.
  - apply deepEqual_SUCCESS in Hequal. subst error.
    destruct (validateAddresses_success decodeAddress _ _ _ Hres eq_refl)
      as [_ Hpass].
    exact (validateAddressesInWallet_spec addresses subWallets Hpass).
  - split; [now eexists|]. split.
    + intros [= ->]. rewrite (proj2 (deepEqual_SUCCESS SUCCESS) eq_refl)
        in Hequal. discriminate.
    + intros Hall. exfalso.
      assert (Hpass : Forall (passes decodeAddress false) addresses).
      { revert Hall. apply Forall_impl.
        intros a [parsed (Hdec & Hpid & _)]. exists parsed. auto. }
      rewrite (validateAddresses_all_pass decodeAddress _ _ Hpass) in Hres.
      injection Hres as <-.
      rewrite (proj2 (deepEqual_SUCCESS SUCCESS) eq_refl) in Hequal.
      discriminate.
Qed.

End ValidateOurAddressesProperties.

Section ValidateIntegratedAddressesProperties.
Variable decodeAddress : string -> completion DecodedAddress.t.
Variable integratedAddressLength : number.

Local Abbreviation validateIntegratedAddresses :=
  (ValidateParameters.validateIntegratedAddresses decodeAddress
     integratedAddressLength).
Local Abbreviation looked := (hasIntegratedLength integratedAddressLength).

Lemma validateIntegratedAddresses_filter
    (destinations : list (string * number)) :
  forall paymentID : string,
    validateIntegratedAddresses destinations paymentID
    = validateIntegratedAddresses (filter looked destinations) paymentID.
Proof.
  induction destinations as [|[destination amount] rest IH]; intros paymentID;
    [reflexivity|].
  simpl. unfold hasIntegratedLength. simpl.
  destruct (strictNe (ValidateParameters.lengthOf destination)
              integratedAddressLength) eqn:Hskip; simpl.
  - apply IH.
  - rewrite Hskip.
    destruct (decodeAddress destination) as [parsed|err]; simpl;
      [|reflexivity].
    destruct (String.eqb paymentID EmptyString); [apply IH|].
    destruct (String.eqb paymentID (DecodedAddress.paymentId parsed)); simpl;
      [apply IH|reflexivity].
Qed.

Lemma validateIntegratedAddresses_returns
    (destinations : list (string * number)) :
  Forall (fun destination =>
            looked destination = true ->
            decodes decodeAddress (fst destination)) destinations ->
  forall paymentID : string,
    validateIntegratedAddresses destinations paymentID = Return SUCCESS
    \/ validateIntegratedAddresses destinations paymentID
       = Return (newWalletError WalletErrorCode.CONFLICTING_PAYMENT_IDS).
Proof.
  induction 1 as [|[destination amount] rest Hdec _ IH]; intros paymentID;
    simpl; [now left|].
  unfold hasIntegratedLength in Hdec. simpl in Hdec.
  destruct (strictNe (ValidateParameters.lengthOf destination)
              integratedAddressLength); [apply IH|].
  destruct (Hdec eq_refl) as [parsed ->]. simpl.
  destruct (String.eqb paymentID EmptyString); [apply IH|].
  destruct (String.eqb paymentID (DecodedAddress.paymentId parsed)); simpl;
    [apply IH|now right].
Qed.

Lemma validateIntegratedAddresses_given
    (destinations : list (string * number)) (paymentID : string) :
  paymentID <> EmptyString ->
  Forall (fun destination =>
            looked destination = true ->
            decodes decodeAddress (fst destination)) destinations ->
  (validateIntegratedAddresses destinations paymentID = Return SUCCESS
   <-> Forall (fun destination =>
                 looked destination = true ->
                 exists parsed : DecodedAddress.t,
                   decodeAddress (fst destination) = Return parsed
                   /\ DecodedAddress.paymentId parsed = paymentID)
              destinations).
Proof.
  intros Hgiven.
  induction 1 as [|[destination amount] rest Hdec _ IH]; simpl.
  - split; [constructor|reflexivity].
  - unfold hasIntegratedLength in Hdec. simpl in Hdec.
    destruct (strictNe (ValidateParameters.lengthOf destination)
                integratedAddressLength) eqn:Hskip; simpl in Hdec.
    + rewrite IH. split.
      * intros Hall. constructor; [|exact Hall].
        unfold hasIntegratedLength. simpl. rewrite Hskip. discriminate.
      * intros Hall. now inversion Hall.
    + destruct (Hdec eq_refl) as [parsed Hparsed]. rewrite Hparsed. simpl.
      destruct (String.eqb_spec paymentID EmptyString) as [E|_];
        [contradiction|].
      destruct (String.eqb_spec paymentID (DecodedAddress.paymentId parsed))
        as [E|Hne]; simpl.
      * rewrite IH. split.
        -- intros Hall. constructor; [|exact Hall].
           intros _. exists parsed. split; [exact Hparsed|now symmetry].
        -- intros Hall. now inversion Hall.
      * split; [discriminate|]. intros Hall.
        inversion Hall as [|? ? Hhead _]. subst.
        unfold hasIntegratedLength in Hhead. simpl in Hhead.
        rewrite Hskip in Hhead.
        destruct (Hhead eq_refl) as [parsed' [Hparsed' E]].
        rewrite Hparsed in Hparsed'. injection Hparsed' as <-.
        now contradiction Hne.
Qed.

(** X7. [validateIntegratedAddresses] skips the destinations whose address
    has not the length of an integrated address. When the others decode, as
    they do after a successful [validateDestinations], it never throws and
    returns [SUCCESS] or [CONFLICTING_PAYMENT_IDS]; with a payment ID given,
    it returns [SUCCESS] exactly when each of them carries this payment ID.
    An address of that length that fails to decode, met first, makes it
    throw what [decodeAddress] throws. *)
Theorem validateIntegratedAddresses_spec
    (destinations : list (string * number)) (paymentID : string) :
  validateIntegratedAddresses destinations paymentID
  = validateIntegratedAddresses (filter looked destinations) paymentID
  /\ (ValidateParameters.validateDestinations decodeAddress destinations
      = Return SUCCESS ->
      validateIntegratedAddresses destinations paymentID = Return SUCCESS
      \/ validateIntegratedAddresses destinations paymentID
         = Return (newWalletError WalletErrorCode.CONFLICTING_PAYMENT_IDS))
  /\ (paymentID <> EmptyString ->
      Forall (fun destination =>
                looked destination = true ->
                decodes decodeAddress (fst destination)) destinations ->
      (validateIntegratedAddresses destinations paymentID = Return SUCCESS
       <-> Forall (fun destination =>
                     looked destination = true ->
                     exists parsed : DecodedAddress.t,
                       decodeAddress (fst destination) = Return parsed
                       /\ DecodedAddress.paymentId parsed = paymentID)
                  destinations))
  /\ (forall (destination : string * number) (err : string),
        looked destination = true ->
        decodeAddress (fst destination) = Throw err ->
        validateIntegratedAddresses (destination :: destinations) paymentID
        = Throw err).
Proof.
  split; [apply validateIntegratedAddresses_filter|].
  split; [|split; [apply validateIntegratedAddresses_given|]].
  - intros Hvalid. apply validateIntegratedAddresses_returns.
    apply validateDestinations_accepted_decode in Hvalid.
    revert Hvalid. apply Forall_impl.
    intros d H _. exact H.
  - intros [destination amount] err Hlooked Hdec. simpl in *.
    unfold hasIntegratedLength in Hlooked. simpl in Hlooked.
    apply negb_true_iff in Hlooked. rewrite Hlooked, Hdec. reflexivity.
Qed.

End ValidateIntegratedAddressesProperties.

(** ** SubWallets: the other methods *)

Section MapLookup.
Variable V : Type.

Lemma get_None_keys (k : string) (m : JsMap.t V) :
  JsMap.get k m = None <-> ~ In k (JsMap.keys m).
Proof.
  induction m as [|[k' v'] rest IH]; simpl.
  - split; [intros _ []|reflexivity].
  - destruct (String.eqb_spec k' k) as [->|Hne].
    + split; [discriminate|]. intros H. exfalso. apply H. now left.
    + rewrite IH. split; intros H.
      * intros [E|E]; [now apply Hne|now apply H].
      * intros E. apply H. now right.
Qed.

Lemma get_set (k k' : string) (v : V) (m : JsMap.t V) :
  JsMap.get k (JsMap.set k' v m)
  = if String.eqb k' k then Some v else JsMap.get k m.
Proof.
  induction m as [|[k0 v0] rest IH]; simpl.
  - destruct (String.eqb k' k); reflexivity.
  - destruct (String.eqb_spec k0 k') as [->|Hne]; simpl.
    + destruct (String.eqb k' k); reflexivity.
    + rewrite IH. destruct (String.eqb_spec k0 k) as [->|Hne'].
      * destruct (String.eqb_spec k' k) as [->|_]; [now contradiction Hne|].
        reflexivity.
      * reflexivity.
Qed.

Lemma keys_set_known (k : string) (v : V) (m : JsMap.t V) :
  JsMap.get k m <> None -> JsMap.keys (JsMap.set k v m) = JsMap.keys m.
Proof.
  induction m as [|[k0 v0] rest IH]; simpl; [intros H; now contradiction H|].
  destruct (String.eqb_spec k0 k) as [->|Hne]; simpl; [reflexivity|].
  intros H. now rewrite IH.
Qed.

Lemma keys_map_values (f : V -> V) (m : JsMap.t V) :
  JsMap.keys (map (fun entry => (fst entry, f (snd entry))) m) = JsMap.keys m.
Proof.
  unfold JsMap.keys. rewrite map_map. reflexivity.
Qed.

End MapLookup.

Lemma remove_remove {A : Type} (predicate : A -> bool) (array : list A) :
  Lodash.remove predicate (Lodash.remove predicate array)
  = Lodash.remove predicate array.
Proof.
  unfold Lodash.remove. induction array as [|x rest IH]; simpl;
    [reflexivity|].
  destruct (predicate x) eqn:Hx; simpl; [exact IH|].
  rewrite Hx. simpl. now rewrite IH.
Qed.

Lemma NoDup_hashes_remove (predicate : Transaction.t -> bool)
    (transactions : list Transaction.t) :
  NoDup (hashes transactions) ->
  NoDup (hashes (Lodash.remove predicate transactions)).
Proof.
  unfold Lodash.remove, hashes.
  induction transactions as [|tx rest IH]; simpl; intros H; [constructor|].
  inversion H as [|? ? Hnotin Hrest]; subst.
  destruct (predicate tx); simpl; [now apply IH|].
  constructor; [|now apply IH].
  intros Hin. apply Hnotin. apply in_map_iff in Hin.
  destruct Hin as [tx' [Heq Hin]]. apply filter_In in Hin.
  apply in_map_iff. exists tx'. tauto.
Qed.

(** X8. Adding the same transaction a second time always throws and leaves
    the wallet as the first call left it, whether the first call returned or
    threw. *)
Theorem addTransaction_twice
    (transaction : Transaction.t) (this : SubWallets.t) :
  exists message : string,
    SubWallets.addTransaction transaction
      (fst (SubWallets.addTransaction transaction this))
    = (fst (SubWallets.addTransaction transaction this), Throw message).
Proof.
  unfold SubWallets.addTransaction at 2 3.
  destruct (existsb
              (fun tx => String.eqb (Transaction.hash tx)
                                    (Transaction.hash transaction))
              (SubWallets.transactions this)) eqn:Hsome; simpl.
  - unfold SubWallets.addTransaction. simpl. rewrite Hsome.
    eexists. unfold SubWallets.withTransactions. simpl.
    rewrite remove_remove. reflexivity.
  - unfold SubWallets.addTransaction. simpl.
    rewrite existsb_app. simpl. rewrite String.eqb_refl, orb_true_r.
    eexists. unfold SubWallets.withTransactions. simpl.
    rewrite remove_remove. reflexivity.
Qed.

Section SubWalletMethodsProperties.
Variable subWalletStoreTransactionInput :
  TransactionInput.t -> bool -> SubWallet.t -> SubWallet.t * completion unit.
Variable subWalletMarkInputAsSpent :
  string -> number -> SubWallet.t -> SubWallet.t * completion unit.
Variable subWalletRemoveCancelledTransaction :
  string -> SubWallet.t -> SubWallet.t.
Variable subWalletConvertSyncTimestampToHeight :
  number -> number -> SubWallet.t -> SubWallet.t.

Local Abbreviation storeTransactionInput :=
  (SubWallets.storeTransactionInput subWalletStoreTransactionInput).
Local Abbreviation markInputAsSpent :=
  (SubWallets.markInputAsSpent subWalletMarkInputAsSpent).
Local Abbreviation removeCancelledTransaction :=
  (SubWallets.removeCancelledTransaction subWalletRemoveCancelledTransaction).
Local Abbreviation mutate :=
  (SubWallets.mutate subWalletStoreTransactionInput subWalletMarkInputAsSpent
     subWalletRemoveCancelledTransaction
     subWalletConvertSyncTimestampToHeight).

Lemma withSubWallets_set (publicSpendKey : string)
    (subWallet changed : SubWallet.t) (this : SubWallets.t) :
  JsMap.get publicSpendKey (SubWallets.subWallets this) = Some subWallet ->
  subWalletReplaced publicSpendKey changed this
    (SubWallets.withSubWallets
       (JsMap.set publicSpendKey changed (SubWallets.subWallets this)) this).
Proof.
  intros Hget. unfold subWalletReplaced. simpl.
  split; [rewrite get_set, String.eqb_refl; reflexivity|].
  split.
  - intros key Hne. rewrite get_set.
    destruct (String.eqb_spec publicSpendKey key) as [E|_];
      [now contradiction Hne|reflexivity].
  - split; [|repeat split]. apply keys_set_known. congruence.
Qed.

(** X9. [storeTransactionInput] and [markInputAsSpent] throw
    ['Subwallet not found!'] and leave the wallet untouched when the key is
    not in the map. Otherwise the outcome is that of the subwallet's own
    method, the subwallet under this key becomes what that method leaves
    behind, and nothing else changes: the other subwallets, the order of
    the keys, the transactions, the public spend keys. *)
Theorem storeTransactionInput_frame (publicSpendKey keyImage : string)
    (input : TransactionInput.t) (spendHeight : number)
    (this : SubWallets.t) :
  (JsMap.get publicSpendKey (SubWallets.subWallets this) = None ->
   storeTransactionInput publicSpendKey input this
   = (this, Throw "Subwallet not found!")
   /\ markInputAsSpent publicSpendKey keyImage spendHeight this
      = (this, Throw "Subwallet not found!"))
  /\ (forall subWallet : SubWallet.t,
        JsMap.get publicSpendKey (SubWallets.subWallets this)
        = Some subWallet ->
        (let method :=
           subWalletStoreTransactionInput input
             (SubWallets.isViewWallet this) subWallet in
         let call := storeTransactionInput publicSpendKey input this in
         snd call = snd method
         /\ subWalletReplaced publicSpendKey (fst method) this (fst call))
        /\ (let method :=
              subWalletMarkInputAsSpent keyImage spendHeight subWallet in
            let call :=
              markInputAsSpent publicSpendKey keyImage spendHeight this in
            snd call = snd method
            /\ subWalletReplaced publicSpendKey (fst method) this
                 (fst call))).
Proof.
  unfold SubWallets.storeTransactionInput, SubWallets.markInputAsSpent.
  split.
  - intros ->. split; reflexivity.
  - intros subWallet Hget. rewrite Hget. cbv zeta.
    split; (split; [reflexivity|]); simpl fst;
      exact (withSubWallets_set publicSpendKey subWallet _ this Hget).
Qed.

(** X10. After [removeCancelledTransaction(hash)] no locked transaction has
    this hash, the other locked transactions are there in their order, the
    confirmed transactions and the keys of the subwallets are those of
    before, and every subwallet has received the call; when no locked
    transaction had the hash, the locked transactions are unchanged. *)
Theorem removeCancelledTransaction_spec (transactionHash : string)
    (this : SubWallets.t) :
  let after := removeCancelledTransaction transactionHash this in
  ~ In transactionHash (SubWallets.getLockedTransactionHashes after)
  /\ SubWallets.lockedTransactions after
     = filter (fun tx => negb (String.eqb (Transaction.hash tx)
                                          transactionHash))
              (SubWallets.lockedTransactions this)
  /\ SubWallets.transactions after = SubWallets.transactions this
  /\ JsMap.keys (SubWallets.subWallets after)
     = JsMap.keys (SubWallets.subWallets this)
  /\ JsMap.values (SubWallets.subWallets after)
     = map (subWalletRemoveCancelledTransaction transactionHash)
           (JsMap.values (SubWallets.subWallets this))
  /\ (~ In transactionHash (SubWallets.getLockedTransactionHashes this) ->
      SubWallets.lockedTransactions after
      = SubWallets.lockedTransactions this).
Proof.
  intros after. subst after. simpl.
  split; [apply remove_hash_absent|]. split; [reflexivity|].
  split; [reflexivity|]. split; [apply keys_map_values|].
  split; [unfold JsMap.values; rewrite !map_map; reflexivity|].
  unfold SubWallets.getLockedTransactionHashes, Lodash.remove.
  induction (SubWallets.lockedTransactions this) as [|tx rest IH]; simpl;
    intros Habsent; [reflexivity|].
  destruct (String.eqb_spec (Transaction.hash tx) transactionHash)
    as [E|Hne]; simpl.
  - exfalso. apply Habsent. left. exact E.
  - rewrite IH; [reflexivity|]. intros Hin. apply Habsent. now right.
Qed.

(** One call keeps the keys, the public spend keys, the kind of wallet and
    the invariant on the hashes. *)
Lemma mutate_keeps (call : SubWallets.mutation) (this : SubWallets.t) :
  JsMap.keys (SubWallets.subWallets (mutate call this))
  = JsMap.keys (SubWallets.subWallets this)
  /\ SubWallets.publicSpendKeys (mutate call this)
     = SubWallets.publicSpendKeys this
  /\ SubWallets.isViewWallet (mutate call this)
     = SubWallets.isViewWallet this
  /\ (transactionsInvariant this -> transactionsInvariant (mutate call this)).
Proof.
  destruct call as [transaction|publicSpendKey input
                    |publicSpendKey keyImage spendHeight|transactionHash
                    |forkHeight|timestamp height]; simpl.
  - unfold SubWallets.addTransaction.
    destruct (existsb
                (fun tx => String.eqb (Transaction.hash tx)
                                      (Transaction.hash transaction))
                (SubWallets.transactions this)) eqn:Hsome; simpl.
    + repeat split; try tauto.
      * destruct H as [H _]. exact H.
      * simpl. intros hash Hin Hlocked. destruct H as [_ H].
        apply (H hash Hin). exact (remove_hashes_incl _ _ _ Hlocked).
    + assert (Habsent : ~ In (Transaction.hash transaction)
                            (hashes (SubWallets.transactions this))).
      { intros Hin. apply existsb_hash in Hin. congruence. }
      split; [reflexivity|]. split; [reflexivity|]. split; [reflexivity|].
      intros [Hnodup Hdisjoint]. unfold transactionsInvariant. simpl.
      unfold hashes at 1 2. rewrite map_app. simpl. split.
      * apply NoDup_app; [exact Hnodup|repeat constructor; intros []|].
        intros hash Hin [<-|[]]. contradiction.
      * intros hash Hin Hlocked. apply in_app_or in Hin.
        destruct Hin as [Hin|[<-|[]]].
        -- apply (Hdisjoint hash Hin).
           exact (remove_hashes_incl _ _ _ Hlocked).
        -- exact (remove_hash_absent _ _ Hlocked).
  - unfold SubWallets.storeTransactionInput.
    destruct (JsMap.get publicSpendKey (SubWallets.subWallets this))
      as [subWallet|] eqn:Hget; simpl; [|tauto].
    split; [apply keys_set_known; congruence|tauto].
  - unfold SubWallets.markInputAsSpent.
    destruct (JsMap.get publicSpendKey (SubWallets.subWallets this))
      as [subWallet|] eqn:Hget; simpl; [|tauto].
    split; [apply keys_set_known; congruence|tauto].
  - split; [apply keys_map_values|]. split; [reflexivity|].
    split; [reflexivity|].
    intros [Hnodup Hdisjoint]. split; [exact Hnodup|]. simpl.
    intros hash Hin Hlocked. apply (Hdisjoint hash Hin).
    exact (remove_hashes_incl _ _ _ Hlocked).
  - split; [apply keys_map_values|]. split; [reflexivity|].
    split; [reflexivity|].
    intros [Hnodup Hdisjoint]. split; simpl.
    + now apply NoDup_hashes_remove.
    + intros hash Hin. apply Hdisjoint.
      exact (remove_hashes_incl _ _ _ Hin).
  - split; [apply keys_map_values|]. tauto.
Qed.

Lemma keysKnown_keys (this after : SubWallets.t) :
  JsMap.keys (SubWallets.subWallets after)
  = JsMap.keys (SubWallets.subWallets this) ->
  SubWallets.publicSpendKeys after = SubWallets.publicSpendKeys this ->
  keysKnown this -> keysKnown after.
Proof.
  unfold keysKnown. intros Hkeys Hpublic Hknown key Hin Hnone.
  rewrite Hpublic in Hin. apply (Hknown key Hin).
  apply get_None_keys. rewrite <- Hkeys. now apply get_None_keys.
Qed.

(** Any calls keep what one call keeps. *)
Lemma mutations_keep (calls : list SubWallets.mutation)
    (this : SubWallets.t) :
  JsMap.keys
    (SubWallets.subWallets
       (fold_left (fun wallet call => mutate call wallet) calls this))
  = JsMap.keys (SubWallets.subWallets this)
  /\ SubWallets.publicSpendKeys
       (fold_left (fun wallet call => mutate call wallet) calls this)
     = SubWallets.publicSpendKeys this
  /\ SubWallets.isViewWallet
       (fold_left (fun wallet call => mutate call wallet) calls this)
     = SubWallets.isViewWallet this
  /\ (transactionsInvariant this ->
      transactionsInvariant
        (fold_left (fun wallet call => mutate call wallet) calls this)).
Proof.
  revert this. induction calls as [|call rest IH]; intros this; simpl.
  - auto.
  - destruct (mutate_keeps call this) as (Hkeys & Hpublic & Hview & Hstep).
    destruct (IH (mutate call this)) as (H1 & H2 & H3 & H4).
    split; [congruence|]. split; [congruence|]. split; [congruence|].
    intros Hinv. apply H4. now apply Hstep.
Qed.

(** X11. Whatever calls change a wallet ([addTransaction],
    [storeTransactionInput], [markInputAsSpent],
    [removeCancelledTransaction], [removeForkedTransactions],
    [convertSyncTimestampToHeight], returning or throwing), the keys of the
    map of subwallets, the public spend keys and the kind of wallet stay
    what they were. If the hashes of the confirmed transactions were unique
    and apart from the locked ones, they still are. If every public spend
    key had its subwallet, it still has, and [getBalance] without a subset
    returns. *)
Theorem mutations_keep_invariants (config : Config) (nowSeconds : number)
    (currentHeight : number) (calls : list SubWallets.mutation)
    (this : SubWallets.t) :
  let after := fold_left (fun wallet call => mutate call wallet) calls this in
  JsMap.keys (SubWallets.subWallets after)
  = JsMap.keys (SubWallets.subWallets this)
  /\ SubWallets.publicSpendKeys after = SubWallets.publicSpendKeys this
  /\ SubWallets.isViewWallet after = SubWallets.isViewWallet this
  /\ (transactionsInvariant this -> transactionsInvariant after)
  /\ (keysKnown this ->
      keysKnown after
      /\ exists balance : number * number,
           SubWallets.getBalance config nowSeconds currentHeight None after
           = Return balance).
Proof.
  intros after.
  destruct (mutations_keep calls this) as (Hkeys & Hpublic & Hview & Hinv).
  fold after in Hkeys, Hpublic, Hview, Hinv.
  split; [exact Hkeys|]. split; [exact Hpublic|]. split; [exact Hview|].
  split; [exact Hinv|].
  intros Hknown.
  assert (Hafter : keysKnown after)
    by exact (keysKnown_keys this after Hkeys Hpublic Hknown).
  split; [exact Hafter|].
  unfold SubWallets.getBalance.
  destruct (SubWallets.sumBalances config nowSeconds currentHeight after
              (SubWallets.publicSpendKeys after) 0%float 0%float)
    as [balance|message] eqn:Hsum; [now exists balance|].
  exfalso.
  assert (Hthrows : exists message : string,
             SubWallets.sumBalances config nowSeconds currentHeight after
               (SubWallets.publicSpendKeys after) 0%float 0%float
             = Throw message) by (exists message; exact Hsum).
  apply sumBalances_throws in Hthrows.
  destruct Hthrows as [key [Hin Hnone]]. exact (Hafter key Hin Hnone).
Qed.

End SubWalletMethodsProperties.

Section GetTxInputKeyImageProperties.
Variable subWalletStoreTransactionInput :
  TransactionInput.t -> bool -> SubWallet.t -> SubWallet.t * completion unit.
Variable subWalletMarkInputAsSpent :
  string -> number -> SubWallet.t -> SubWallet.t * completion unit.
Variable subWalletRemoveCancelledTransaction :
  string -> SubWallet.t -> SubWallet.t.
Variable subWalletConvertSyncTimestampToHeight :
  number -> number -> SubWallet.t -> SubWallet.t.
Variable subWalletGetTxInputKeyImage :
  string -> number -> SubWallet.t -> completion string.

Local Abbreviation mutate :=
  (SubWallets.mutate subWalletStoreTransactionInput subWalletMarkInputAsSpent
     subWalletRemoveCancelledTransaction
     subWalletConvertSyncTimestampToHeight).
Local Abbreviation getTxInputKeyImage :=
  (SubWallets.getTxInputKeyImage subWalletGetTxInputKeyImage).

(** X12. After any calls that change a wallet, returning or throwing,
    [getTxInputKeyImage] throws ['Subwallet not found!'] for a public spend
    key that was not in the map before them, in a view wallet too. For a
    key that was in the map, a view wallet answers with 64 zeros and asks no
    subwallet, and any other wallet answers what the subwallet that is now
    under the key answers. *)
Theorem getTxInputKeyImage_after_calls (calls : list SubWallets.mutation)
    (publicSpendKey derivation : string) (outputIndex : number)
    (this : SubWallets.t) :
  let after := fold_left (fun wallet call => mutate call wallet) calls this in
  (~ In publicSpendKey (JsMap.keys (SubWallets.subWallets this)) ->
   getTxInputKeyImage publicSpendKey derivation outputIndex after
   = Throw "Subwallet not found!")
  /\ (In publicSpendKey (JsMap.keys (SubWallets.subWallets this)) ->
      (SubWallets.isViewWallet this = true ->
       getTxInputKeyImage publicSpendKey derivation outputIndex after
       = Return
           "0000000000000000000000000000000000000000000000000000000000000000"%string)
      /\ (SubWallets.isViewWallet this = false ->
          exists subWallet : SubWallet.t,
            JsMap.get publicSpendKey (SubWallets.subWallets after)
            = Some subWallet
            /\ getTxInputKeyImage publicSpendKey derivation outputIndex after
               = subWalletGetTxInputKeyImage derivation outputIndex
                   subWallet)).
Proof.
  intros after.
  destruct (mutations_keep subWalletStoreTransactionInput
              subWalletMarkInputAsSpent subWalletRemoveCancelledTransaction
              subWalletConvertSyncTimestampToHeight calls this)
    as (Hkeys & _ & Hview & _).
  fold after in Hkeys, Hview.
  unfold SubWallets.getTxInputKeyImage. rewrite Hview, <- Hkeys. split.
  - intros Habsent. apply get_None_keys in Habsent. now rewrite Habsent.
  - intros Hpresent.
    destruct (JsMap.get publicSpendKey (SubWallets.subWallets after))
      as [subWallet|] eqn:Hget.
    + split; [intros ->; reflexivity|]. intros ->. now exists subWallet.
    + exfalso. apply get_None_keys in Hget. contradiction.
Qed.

End GetTxInputKeyImageProperties.

(** ** ConventionalDaemon: the node fee *)

Section DaemonProperties.
Variable decodeAddress : JsValue.t -> completion DecodedAddress.t.
Variable stringToNumber : string -> number.
Variable numberToString : number -> string.
Variable config : Config.

Local Abbreviation decodeString :=
  (fun s : string => decodeAddress (JsValue.String s)).
Local Abbreviation checkFeeInfo :=
  (ConventionalDaemonFee.checkFeeInfo decodeAddress stringToNumber
     numberToString).
Local Abbreviation updateFeeInfo :=
  (ConventionalDaemonFee.updateFeeInfo decodeAddress stringToNumber
     numberToString).
Local Abbreviation receive :=
  (ConventionalDaemonFee.receive decodeAddress stringToNumber numberToString
     config).
Local Abbreviation addressChecked := (addressChecked decodeAddress).
Local Abbreviation amountPositive :=
  (amountPositive stringToNumber numberToString).
Local Abbreviation feeAccepted :=
  (feeAccepted decodeAddress stringToNumber numberToString).
Local Abbreviation feeThrows :=
  (feeThrows decodeAddress stringToNumber numberToString).
Local Abbreviation feeInvariant :=
  (feeInvariant decodeAddress stringToNumber numberToString).
Local Abbreviation feeTyped := (feeTyped decodeAddress).

(** On an array of strings the loop is that of [ValidateParameters]. *)
Lemma validateAddresses_strings (addresses : list string) (allowed : bool) :
  ConventionalDaemonFee.validateAddresses decodeAddress
    (map JsValue.String addresses) allowed
  = ValidateParameters.validateAddresses decodeString addresses allowed.
Proof.
  induction addresses as [|address rest IH]; simpl; [reflexivity|].
  rewrite IH. reflexivity.
Qed.

(** On any array the loop returns: its body is inside the [try]. *)
Lemma validateAddresses_values_return (addresses : list JsValue.t)
    (allowed : bool) :
  exists error : WalletError,
    ConventionalDaemonFee.validateAddresses decodeAddress addresses allowed
    = Return error.
Proof.
  induction addresses as [|address rest IH]; simpl; [now eexists|].
  unfold ConventionalDaemonFee.validateAddress.
  destruct (decodeAddress address) as [parsed|err]; simpl; [|now eexists].
  destruct (negb (String.length (DecodedAddress.paymentId parsed) =? 0)%nat
            && negb allowed); simpl; [now eexists|exact IH].
Qed.

Lemma strictNeString_false (v : JsValue.t) (s : string) :
  JsValue.strictNeString v s = false <-> v = JsValue.String s.
Proof.
  destruct v; simpl; try (split; discriminate).
  rewrite negb_false_iff, String.eqb_eq. split; congruence.
Qed.

(** Once one property has been read, reading another does not throw. *)
Lemma get_again (name name' : string) (v value : JsValue.t) :
  JsValue.get name v = Return value ->
  exists value' : JsValue.t, JsValue.get name' v = Return value'.
Proof.
  destruct v; simpl; try discriminate; try (now eexists).
  intros _. destruct (JsMap.get name' properties); now eexists.
Qed.

Lemma get_throws (name : string) (v : JsValue.t) :
  (exists message : string, JsValue.get name v = Throw message)
  <-> v = JsValue.Undefined \/ v = JsValue.Null.
Proof.
  destruct v; simpl;
    try (split; [intros [message H]; discriminate
                |intros [H|H]; discriminate]).
  - split; [now left|now eexists].
  - split; [now right|now eexists].
  - destruct (JsMap.get name properties);
      (split; [intros [message H]; discriminate|intros [H|H]; discriminate]).
Qed.

Lemma newArray_throws (v : JsValue.t) :
  (exists message : string, JsValue.newArray v = Throw message)
  <-> exists n : number,
        v = JsValue.Number n /\ JsValue.isArrayLength n = false.
Proof.
  destruct v; simpl;
    try (split; [intros [message H]; discriminate
                |intros [n' [H _]]; discriminate]).
  destruct (JsValue.isArrayLength n) eqn:Hlength.
  - split; [intros [message H]; discriminate|].
    intros [n' [[= <-] H]]. congruence.
  - split; [intros _; now exists n|intros _; now eexists].
Qed.

(** The assignments are reached exactly by the accepted answers. *)
Lemma checkFeeInfo_accepted (answer address amount : JsValue.t) :
  checkFeeInfo answer = Return (Some (address, amount))
  <-> feeAccepted answer address amount.
Proof.
  unfold ConventionalDaemonFee.checkFeeInfo, feeAccepted,
    addressChecked, amountPositive, JsValue.gtNumber.
  destruct (JsValue.get "status" answer) as [status|message] eqn:Hstatus;
    simpl; [|split; [discriminate|intros [H _]; discriminate]].
  destruct (JsValue.strictNeString status "OK") eqn:Hok.
  { split; [discriminate|]. intros [[= ->] _]. discriminate. }
  apply strictNeString_false in Hok. subst status.
  destruct (JsValue.get "address" answer) as [address'|message] eqn:Haddress;
    simpl; [|split; [discriminate|intros (_ & H & _); discriminate]].
  destruct (JsValue.newArray address') as [addresses|message] eqn:Harray;
    simpl.
  2:{ split; [discriminate|].
      intros (_ & [= <-] & _ & (addresses & error & H & _) & _).
      congruence. }
  destruct (ConventionalDaemonFee.validateAddresses decodeAddress addresses
              false) as [error|message] eqn:Hvalid; simpl.
  2:{ split; [discriminate|].
      intros (_ & [= <-] & _ & (addresses' & error & H & H' & _) & _).
      congruence. }
  destruct (WalletErrorCode.eq_dec (errorCode error) WalletErrorCode.SUCCESS)
    as [Hsuccess|Hfailure].
  2:{ split; [discriminate|].
      intros (_ & [= <-] & _ & (addresses' & error' & H & H' & H'') & _).
      rewrite Harray in H. injection H as <-.
      rewrite Hvalid in H'. injection H' as <-. contradiction. }
  destruct (JsValue.get "amount" answer) as [amount'|message] eqn:Hamount;
    simpl; [|split; [discriminate|intros (_ & _ & H & _); discriminate]].
  destruct (JsValue.toNumber stringToNumber numberToString amount')
    as [n|message] eqn:Hnumber; simpl.
  2:{ split; [discriminate|].
      intros (_ & _ & [= <-] & _ & (n & H & _)). congruence. }
  destruct (gt n 0%float) eqn:Hpositive.
  - split.
    + intros [= <- <-]. split; [reflexivity|]. split; [reflexivity|].
      split; [reflexivity|]. split; [now exists addresses, error|].
      now exists n.
    + intros (_ & [= <-] & [= <-] & _). reflexivity.
  - split; [discriminate|].
    intros (_ & _ & [= <-] & _ & (n' & H & H')). congruence.
Qed.

(** [updateFeeInfo] throws exactly on the answers described by
    [feeThrows]. *)
Lemma checkFeeInfo_throws (answer : JsValue.t) :
  (exists message : string, checkFeeInfo answer = Throw message)
  <-> feeThrows answer.
Proof.
  unfold ConventionalDaemonFee.checkFeeInfo, feeThrows,
    addressChecked, JsValue.gtNumber.
  destruct (JsValue.get "status" answer) as [status|message] eqn:Hstatus;
    simpl.
  2:{ split; [intros _|intros _; now eexists].
      assert (H : exists m : string, JsValue.get "status" answer = Throw m)
        by (exists message; exact Hstatus).
      apply get_throws in H. tauto. }
  assert (Hobject : answer <> JsValue.Undefined /\ answer <> JsValue.Null).
  { split; intros ->; discriminate. }
  destruct (JsValue.strictNeString status "OK") eqn:Hok.
  { split; [intros [message H]; discriminate|].
    intros [H|[H|[[= ->] _]]]; [tauto|tauto|discriminate]. }
  apply strictNeString_false in Hok. subst status.
  destruct (get_again "status" "address" _ _ Hstatus) as [address Haddress].
  destruct (get_again "status" "amount" _ _ Hstatus) as [amount Hamount].
  rewrite Haddress. simpl.
  destruct (JsValue.newArray address) as [addresses|message] eqn:Harray;
    simpl.
  2:{ split; [intros _|intros _; now eexists]. right. right.
      split; [reflexivity|]. left.
      assert (H : exists m : string, JsValue.newArray address = Throw m)
        by (exists message; exact Harray).
      apply newArray_throws in H. destruct H as [n [-> H]]. now exists n. }
  assert (Hlength : forall n : number,
             address = JsValue.Number n -> JsValue.isArrayLength n = true).
  { intros n ->. simpl in Harray.
    destruct (JsValue.isArrayLength n); [reflexivity|discriminate]. }
  destruct (validateAddresses_values_return addresses false)
    as [error Hvalid].
  rewrite Hvalid. simpl.
  destruct (WalletErrorCode.eq_dec (errorCode error) WalletErrorCode.SUCCESS)
    as [Hsuccess|Hfailure].
  - rewrite Hamount. simpl.
    destruct (JsValue.toNumber stringToNumber numberToString amount)
      as [n|message] eqn:Hnumber; simpl.
    + split.
      * destruct (gt n 0%float); intros [message H]; discriminate.
      * intros [H|[H|[_ [[n' [[= ->] H]]|H]]]]; [tauto|tauto| |].
        -- rewrite (Hlength n' eq_refl) in H. discriminate.
        -- destruct H as (address' & amount' & message & _ & [= <-] & _ & H).
           congruence.
    + split; [intros _|intros _; now eexists]. right. right.
      split; [reflexivity|]. right. exists address, amount, message.
      split; [reflexivity|]. split; [reflexivity|].
      split; [now exists addresses, error|exact Hnumber].
  - split; [intros [message H]; discriminate|].
    intros [H|[H|[_ [[n' [[= ->] H]]|H]]]]; [tauto|tauto| |].
    + rewrite (Hlength n' eq_refl) in H. discriminate.
    + destruct H as (address' & amount' & message & [= <-] & _ & H & _).
      destruct H as (addresses' & error' & H & H' & H'').
      rewrite Harray in H. injection H as <-.
      rewrite Hvalid in H'. injection H' as <-. contradiction.
Qed.

(** An answer of the shape of the protocol is accepted exactly when its
    status is ['OK'], its address decodes without a payment ID and its
    amount is above zero; it never makes [updateFeeInfo] throw. *)
Lemma feeAccepted_typed (answer : JsValue.t) (feeInfo : FeeInfo.t) :
  feeInfoOf answer feeInfo ->
  ((exists address amount : JsValue.t, feeAccepted answer address amount)
   <-> FeeInfo.status feeInfo = "OK"%string
       /\ passes decodeString false (FeeInfo.address feeInfo)
       /\ gt (FeeInfo.amount feeInfo) 0%float = true)
  /\ (forall address amount : JsValue.t,
        feeAccepted answer address amount ->
        address = JsValue.String (FeeInfo.address feeInfo)
        /\ amount = JsValue.Number (FeeInfo.amount feeInfo))
  /\ ~ feeThrows answer.
Proof.
  intros (Hstatus & Haddress & Hamount).
  unfold feeAccepted, feeThrows,
    addressChecked, amountPositive.
  rewrite Hstatus, Haddress, Hamount.
  assert (Hchecked :
            (exists (addresses : list JsValue.t) (error : WalletError),
               JsValue.newArray (JsValue.String (FeeInfo.address feeInfo))
               = Return addresses
               /\ ConventionalDaemonFee.validateAddresses decodeAddress
                    addresses false = Return error
               /\ errorCode error = WalletErrorCode.SUCCESS)
            <-> passes decodeString false (FeeInfo.address feeInfo)).
  { simpl JsValue.newArray. split.
    - intros (addresses & error & [= <-] & Hvalid & Hsuccess).
      change [JsValue.String (FeeInfo.address feeInfo)]
        with (map JsValue.String [FeeInfo.address feeInfo]) in Hvalid.
      rewrite validateAddresses_strings in Hvalid.
      destruct (validateAddresses_success decodeString _ false error
                  Hvalid Hsuccess) as [_ Hall].
      now inversion Hall.
    - intros Hpasses. exists [JsValue.String (FeeInfo.address feeInfo)], SUCCESS.
      split; [reflexivity|]. split; [|reflexivity].
      change [JsValue.String (FeeInfo.address feeInfo)]
        with (map JsValue.String [FeeInfo.address feeInfo]).
      rewrite validateAddresses_strings.
      apply validateAddresses_all_pass.
      constructor; [exact Hpasses|constructor]. }
  split; [|split].
  - split.
    + intros (address & amount & [= Hok] & [= <-] & [= <-] & Haddr & n & [= <-] & Hn).
      split; [exact Hok|]. split; [now apply Hchecked|exact Hn].
    + intros (Hok & Hpasses & Hn).
      exists (JsValue.String (FeeInfo.address feeInfo)),
             (JsValue.Number (FeeInfo.amount feeInfo)).
      rewrite Hok. split; [reflexivity|]. split; [reflexivity|].
      split; [reflexivity|]. split; [now apply Hchecked|].
      now exists (FeeInfo.amount feeInfo).
  - intros address amount (_ & [= <-] & [= <-] & _). split; reflexivity.
  - intros [->|[->|[_ [[n [[=] _]]|H]]]]; try discriminate.
    destruct H as (address & amount & message & _ & [= <-] & _ & H).
    discriminate.
Qed.

Lemma updateFeeInfo_outcome (answer : JsValue.t)
    (this : ConventionalDaemon.t) :
  (exists address amount : JsValue.t,
     feeAccepted answer address amount
     /\ updateFeeInfo (Return answer) this
        = (ConventionalDaemonFee.setFee address amount this, Return tt))
  \/ ((forall address amount : JsValue.t,
         ~ feeAccepted answer address amount)
      /\ fst (updateFeeInfo (Return answer) this) = this
      /\ ((exists message : string,
             snd (updateFeeInfo (Return answer) this) = Throw message)
          <-> feeThrows answer)
      /\ (~ feeThrows answer ->
          snd (updateFeeInfo (Return answer) this) = Return tt)).
Proof.
  unfold ConventionalDaemonFee.updateFeeInfo.
  destruct (checkFeeInfo answer) as [[[address amount]|]|message] eqn:Hcheck.
  - left. exists address, amount. split; [|reflexivity].
    now apply checkFeeInfo_accepted.
  - right. split; [|split; [reflexivity|split]].
    + intros address amount H. apply checkFeeInfo_accepted in H. congruence.
    + rewrite <- checkFeeInfo_throws, Hcheck. simpl.
      split; intros [message H]; discriminate.
    + reflexivity.
  - right. split; [|split; [reflexivity|split]].
    + intros address amount H. apply checkFeeInfo_accepted in H. congruence.
    + rewrite <- checkFeeInfo_throws, Hcheck. simpl.
      split; intros _; now eexists.
    + intros Hno. exfalso. apply Hno. apply checkFeeInfo_throws.
      exists message. exact Hcheck.
Qed.

(** X13. [updateFeeInfo] leaves the daemon object as it was after a
    rejected call. The answer of the daemon is untyped. [updateFeeInfo]
    throws exactly when the answer is [undefined] or [null], or has the
    status ['OK'] and a number that cannot be the length of an array for
    address, or an accepted address and an amount whose conversion to a
    number throws; the object is then what it was. It takes over the
    address and the amount exactly when the status is ['OK'],
    [validateAddresses(new Array(address), false)] succeeds and
    [amount > 0], leaving the other fields as they were; otherwise the
    object is what it was. The address [0] with an amount above zero is
    taken over whatever the decoder does: there is then nothing to validate.
    When the answer has a string for status and address and a number for
    amount, [updateFeeInfo] does not throw, and takes the fee over exactly
    when the status is ['OK'], the address decodes and is not integrated and
    the amount is above zero. *)
Theorem updateFeeInfo_spec (response : completion JsValue.t)
    (this : ConventionalDaemon.t) :
  (forall message : string,
     response = Throw message ->
     updateFeeInfo response this = (this, Return tt))
  /\ (forall answer : JsValue.t,
        response = Return answer ->
        let after := fst (updateFeeInfo response this) in
        let outcome := snd (updateFeeInfo response this) in
        ((exists message : string, outcome = Throw message)
         <-> feeThrows answer)
        /\ (feeThrows answer -> after = this)
        /\ (forall address amount : JsValue.t,
              feeAccepted answer address amount ->
              outcome = Return tt
              /\ ConventionalDaemonFee.nodeFee after = (address, amount)
              /\ ConventionalDaemon.daemonHost after
                 = ConventionalDaemon.daemonHost this
              /\ ConventionalDaemon.daemonPort after
                 = ConventionalDaemon.daemonPort this
              /\ ConventionalDaemon.getLocalDaemonBlockCount after
                 = ConventionalDaemon.getLocalDaemonBlockCount this
              /\ ConventionalDaemon.getNetworkBlockCount after
                 = ConventionalDaemon.getNetworkBlockCount this
              /\ ConventionalDaemon.peerCount after
                 = ConventionalDaemon.peerCount this
              /\ ConventionalDaemon.lastKnownHashrate after
                 = ConventionalDaemon.lastKnownHashrate this)
        /\ ((forall address amount : JsValue.t,
               ~ feeAccepted answer address amount) ->
            after = this)
        /\ (forall amount : JsValue.t,
              JsValue.get "status" answer = Return (JsValue.String "OK") ->
              JsValue.get "address" answer
              = Return (JsValue.Number 0%float) ->
              JsValue.get "amount" answer = Return amount ->
              amountPositive amount ->
              ConventionalDaemonFee.nodeFee after
              = (JsValue.Number 0%float, amount))
        /\ (forall feeInfo : FeeInfo.t,
              feeInfoOf answer feeInfo ->
              outcome = Return tt
              /\ (ConventionalDaemonFee.nodeFee after
                  = (JsValue.String (FeeInfo.address feeInfo),
                     JsValue.Number (FeeInfo.amount feeInfo))
                  \/ after = this)
              /\ (FeeInfo.status feeInfo = "OK"%string
                  /\ passes decodeString false (FeeInfo.address feeInfo)
                  /\ gt (FeeInfo.amount feeInfo) 0%float = true ->
                  ConventionalDaemonFee.nodeFee after
                  = (JsValue.String (FeeInfo.address feeInfo),
                     JsValue.Number (FeeInfo.amount feeInfo)))
              /\ (~ (FeeInfo.status feeInfo = "OK"%string
                     /\ passes decodeString false (FeeInfo.address feeInfo)
                     /\ gt (FeeInfo.amount feeInfo) 0%float = true) ->
                  after = this))).
Proof.
  split; [now intros message ->|].
  intros answer -> after outcome. subst after outcome.
  assert (Haccepted :
            forall address amount : JsValue.t,
              feeAccepted answer address amount ->
              updateFeeInfo (Return answer) this
              = (ConventionalDaemonFee.setFee address amount this,
                 Return tt)).
  { intros address amount H. unfold ConventionalDaemonFee.updateFeeInfo.
    apply checkFeeInfo_accepted in H. now rewrite H. }
  assert (Hrefused :
            (forall address amount : JsValue.t,
               ~ feeAccepted answer address amount) ->
            fst (updateFeeInfo (Return answer) this) = this).
  { intros Hno.
    destruct (updateFeeInfo_outcome answer this)
      as [(address & amount & H & _)|(_ & H & _)]; [|exact H].
    now apply Hno in H. }
  assert (Hthrows :
            (exists message : string,
               snd (updateFeeInfo (Return answer) this) = Throw message)
            <-> feeThrows answer).
  { destruct (updateFeeInfo_outcome answer this)
      as [(address & amount & H & Heq)|(_ & _ & H & _)]; [|exact H].
    rewrite Heq. simpl. split; [intros [message E]; discriminate|].
    intros Hthrow. apply checkFeeInfo_throws in Hthrow.
    apply checkFeeInfo_accepted in H. destruct Hthrow as [message E].
    congruence. }
  split; [exact Hthrows|]. split; [|split; [|split; [exact Hrefused|split]]].
  - intros Hthrow. apply Hrefused. intros address amount H.
    apply checkFeeInfo_accepted in H. apply checkFeeInfo_throws in Hthrow.
    destruct Hthrow as [message E]. congruence.
  - intros address amount H. rewrite (Haccepted address amount H).
    repeat split.
  - intros amount Hstatus Haddress Hamount Hpositive.
    rewrite (Haccepted (JsValue.Number 0%float) amount); [reflexivity|].
    split; [exact Hstatus|]. split; [exact Haddress|].
    split; [exact Hamount|]. split; [|exact Hpositive].
    exists [], SUCCESS. repeat split.
  - intros feeInfo Htyped.
    destruct (feeAccepted_typed answer feeInfo Htyped)
      as (Hiff & Hvalues & Hno).
    destruct (updateFeeInfo_outcome answer this)
      as [(address & amount & H & Heq)|(Hnone & Hsame & _ & Hreturns)].
    + destruct (Hvalues address amount H) as [-> ->]. rewrite Heq. simpl.
      split; [reflexivity|]. split; [now left|]. split; [reflexivity|].
      intros Hnot. exfalso. apply Hnot. apply Hiff. eauto.
    + split; [now apply Hreturns|]. split; [now right|].
      split; [|intros _; exact Hsame].
      intros Hyes. apply Hiff in Hyes.
      destruct Hyes as (address & amount & H). now apply Hnone in H.
Qed.

Lemma setFee_invariant (answer address amount : JsValue.t)
    (this : ConventionalDaemon.t) :
  feeAccepted answer address amount ->
  feeInvariant (ConventionalDaemonFee.setFee address amount this).
Proof.
  intros (_ & _ & _ & Haddress & Hamount). right. now split.
Qed.

Lemma receive_keeps (received : ConventionalDaemonFee.answer)
    (this : ConventionalDaemon.t) :
  (feeInvariant this -> feeInvariant (receive received this))
  /\ (answerTyped received -> feeTyped this ->
      feeTyped (receive received this))
  /\ ConventionalDaemon.daemonHost (receive received this)
     = ConventionalDaemon.daemonHost this
  /\ ConventionalDaemon.daemonPort (receive received this)
     = ConventionalDaemon.daemonPort this.
Proof.
  destruct received as [[info|message]|[answer|message]];
    unfold ConventionalDaemonFee.receive;
    [simpl; tauto|simpl; tauto| |simpl; tauto].
  destruct (updateFeeInfo_outcome answer this)
    as [(address & amount & H & Heq)|(_ & Hsame & _)].
  - rewrite Heq. simpl fst. split; [|split; [|split; reflexivity]].
    + intros _. exact (setFee_invariant answer address amount this H).
    + intros [feeInfo Htyped] _.
      destruct (feeAccepted_typed answer feeInfo Htyped)
        as (Hiff & Hvalues & _).
      destruct (Hvalues address amount H) as [-> ->].
      assert (Hyes : exists address amount : JsValue.t,
                 feeAccepted answer address amount) by eauto.
      apply Hiff in Hyes. destruct Hyes as (_ & Hpasses & Hpositive).
      right. exists (FeeInfo.address feeInfo), (FeeInfo.amount feeInfo).
      split; [reflexivity|]. now split.
  - rewrite Hsame. tauto.
Qed.

Lemma receive_all_invariant (answers : list ConventionalDaemonFee.answer)
    (daemon : ConventionalDaemon.t) :
  feeInvariant daemon ->
  feeInvariant
    (fold_left (fun daemon received => receive received daemon) answers
               daemon)
  /\ ConventionalDaemon.daemonHost
       (fold_left (fun daemon received => receive received daemon) answers
                  daemon)
     = ConventionalDaemon.daemonHost daemon
  /\ ConventionalDaemon.daemonPort
       (fold_left (fun daemon received => receive received daemon) answers
                  daemon)
     = ConventionalDaemon.daemonPort daemon.
Proof.
  revert daemon. induction answers as [|received rest IH];
    intros daemon Hfee; simpl; [tauto|].
  destruct (receive_keeps received daemon) as (H1 & _ & H3 & H4).
  destruct (IH (receive received daemon) (H1 Hfee)) as (I1 & I2 & I3).
  split; [exact I1|split; congruence].
Qed.

Lemma receive_all_typed (answers : list ConventionalDaemonFee.answer)
    (daemon : ConventionalDaemon.t) :
  Forall answerTyped answers ->
  feeTyped daemon ->
  feeTyped
    (fold_left (fun daemon received => receive received daemon) answers
               daemon).
Proof.
  revert daemon. induction answers as [|received rest IH];
    intros daemon Hall Htyped; simpl; [exact Htyped|].
  inversion Hall as [|? ? Hhead Htail]; subst.
  destruct (receive_keeps received daemon) as (_ & H2 & _).
  apply IH; [exact Htail|]. now apply H2.
Qed.


(** X15. [init] awaits [updateDaemonInfo] and [updateFeeInfo] together: the
    daemon object they leave behind does not depend on which of the two
    answers is dealt with first. *)
Theorem updateDaemonInfo_updateFeeInfo_commute
    (info : completion DaemonInfo.t) (fee : completion JsValue.t)
    (this : ConventionalDaemon.t) :
  ConventionalDaemon.updateDaemonInfo config info
    (fst (updateFeeInfo fee this))
  = fst (updateFeeInfo fee
           (ConventionalDaemon.updateDaemonInfo config info this))
  /\ snd (updateFeeInfo fee this)
     = snd (updateFeeInfo fee
              (ConventionalDaemon.updateDaemonInfo config info this)).
Proof.
  destruct fee as [answer|message]; [|now destruct info].
  unfold ConventionalDaemonFee.updateFeeInfo.
  destruct (checkFeeInfo answer) as [[[address amount]|]|message];
    destruct info as [info|message']; split; reflexivity.
Qed.

End DaemonProperties.

(** ** ConventionalDaemon: global indexes *)

Section MapFold.
Variables (A V : Type) (keyOf : A -> string) (valueOf : A -> V).

Local Abbreviation setAll :=
  (fold_left (fun (m : JsMap.t V) x => JsMap.set (keyOf x) (valueOf x) m)).

(** A map filled by a loop of [set] gives, for a key, the value of the last
    element with this key. *)
Lemma get_fold_set (k : string) (data : list A) (start : JsMap.t V) :
  JsMap.get k (setAll data start)
  = match find (fun x => String.eqb (keyOf x) k) (rev data) with
    | Some x => Some (valueOf x)
    | None => JsMap.get k start
    end.
Proof.
  induction data as [|x data IH] using rev_ind; [reflexivity|].
  rewrite fold_left_app, rev_app_distr. simpl.
  rewrite get_set, IH. destruct (String.eqb _ k); reflexivity.
Qed.

Lemma fold_set_wf (data : list A) (start : JsMap.t V) :
  JsMap.wf start -> JsMap.wf (setAll data start).
Proof.
  revert start. induction data as [|x data IH]; intros start Hwf; simpl;
    [exact Hwf|].
  apply IH. unfold JsMap.wf in *.
  destruct (JsMap.get (keyOf x) start) eqn:Hget.
  - rewrite keys_set_known by congruence. exact Hwf.
  - rewrite set_fresh by (now apply get_None_keys).
    unfold JsMap.keys. rewrite map_app. simpl.
    apply NoDup_app; [exact Hwf|repeat constructor; intros []|].
    intros key Hin [<-|[]]. apply get_None_keys in Hget. now apply Hget.
Qed.

Lemma fold_set_keys (k : string) (data : list A) :
  In k (JsMap.keys (setAll data [])) <-> In k (map keyOf data).
Proof.
  assert (Hget := get_fold_set k data []).
  destruct (find (fun x => String.eqb (keyOf x) k) (rev data)) as [x|]
    eqn:Hfind.
  - apply find_some in Hfind. destruct Hfind as [Hin Heq].
    apply String.eqb_eq in Heq. subst k. split; intros _.
    + apply in_map. now apply in_rev.
    + destruct (in_dec string_dec (keyOf x) (JsMap.keys (setAll data [])))
        as [Hyes|Hno]; [exact Hyes|].
      apply get_None_keys in Hno. rewrite Hno in Hget. discriminate.
  - simpl in Hget. apply get_None_keys in Hget. split; [contradiction|].
    intros Hin. apply in_map_iff in Hin. destruct Hin as [x [<- Hin]].
    apply in_rev in Hin. assert (Hno := find_none _ _ Hfind x Hin).
    simpl in Hno. rewrite String.eqb_refl in Hno. discriminate.
Qed.

End MapFold.

(** X16. [getGlobalIndexesForRange] passes a rejection of the daemon's call
    on. From an answer it builds a map in which a transaction hash is a key
    exactly when the answer has an element for it, once, and is mapped to
    the global indexes of the last such element. *)
Theorem getGlobalIndexesForRange_spec
    (response : completion (list ConventionalDaemon.globalIndexes)) :
  (forall message : string,
     response = Throw message ->
     ConventionalDaemon.getGlobalIndexesForRange response = Throw message)
  /\ (forall data : list ConventionalDaemon.globalIndexes,
        response = Return data ->
        exists indexes : JsMap.t (list number),
          ConventionalDaemon.getGlobalIndexesForRange response
          = Return indexes
          /\ JsMap.wf indexes
          /\ (forall hash : string,
                In hash (JsMap.keys indexes)
                <-> In hash (map ConventionalDaemon.key data))
          /\ (forall hash : string,
                JsMap.get hash indexes
                = option_map ConventionalDaemon.value
                    (find (fun index =>
                             String.eqb (ConventionalDaemon.key index) hash)
                          (rev data)))).
Proof.
  split; [now intros message ->|]. intros data ->.
  eexists. split; [reflexivity|]. split; [|split].
  - apply fold_set_wf. constructor.
  - intros hash. apply fold_set_keys.
  - intros hash. rewrite get_fold_set.
    destruct (find _ (rev data)); reflexivity.
Qed.

(** ** Transaction: the JSON form *)

(** X17. A [TransactionJSON] comes back from [fromJSON] and [toJSON] exactly
    when no two of its transfers name the same public key. In any case the
    transfers of the revived transaction have each public key once, with the
    amount of the last transfer that names it, and reviving what [toJSON]
    writes gives the same transaction again. *)
Theorem Transaction_toJSON_fromJSON (json : TransactionJSON.t) :
  (Transaction.toJSON (Transaction.fromJSON json) = json
   <-> NoDup (map TransferJSON.publicKey (TransactionJSON.transfers json)))
  /\ JsMap.wf (Transaction.transfers (Transaction.fromJSON json))
  /\ (forall publicKey : string,
        JsMap.get publicKey (Transaction.transfers (Transaction.fromJSON json))
        = option_map TransferJSON.amount
            (find (fun x => String.eqb (TransferJSON.publicKey x) publicKey)
                  (rev (TransactionJSON.transfers json))))
  /\ Transaction.fromJSON (Transaction.toJSON (Transaction.fromJSON json))
     = Transaction.fromJSON json.
Proof.
  assert (Hwf : JsMap.wf (Transaction.transfers (Transaction.fromJSON json))).
  { simpl. unfold JsMap.ofEntries. apply fold_set_wf. constructor. }
  split; [|split; [exact Hwf|split]].
  - destruct json as [transfers hash fee height time pid unlock coinbase].
    unfold Transaction.toJSON, Transaction.fromJSON. simpl. split.
    + intros [= Heq]. rewrite <- Heq at 1.
      unfold transfersToVector. rewrite map_map. simpl. exact Hwf.
    + intros Hnodup. f_equal. rewrite ofEntries_wf.
      * unfold transfersToVector. rewrite map_map. simpl.
        apply map_id_on. apply Forall_forall. now intros [k v] _.
      * unfold JsMap.wf, JsMap.keys. rewrite map_map. exact Hnodup.
  - intros publicKey. simpl. unfold JsMap.ofEntries.
    rewrite get_fold_set. simpl. rewrite <- map_rev.
    induction (rev (TransactionJSON.transfers json)) as [|x rest IH];
      [reflexivity|].
    simpl. destruct (String.eqb (TransferJSON.publicKey x) publicKey);
      [reflexivity|exact IH].
  - apply Transaction_roundtrip. exact Hwf.
Qed.

(** ** SubWallets: the constructor and the getters *)

Section ConstructorProperties.
Variable decodeAddress : string -> completion DecodedAddress.t.
Variable getCurrentTimestampAdjusted : number.
Variable newSubWallet :
  string -> number -> number -> string -> option string -> SubWallet.t.

Local Abbreviation new :=
  (SubWalletsConstructor.new decodeAddress getCurrentTimestampAdjusted
     newSubWallet).

(** X18. The constructor throws what [decodeAddress] throws for the address.
    Otherwise the new wallet has one subwallet, made from the address, the
    scan height, the time of creation (0 unless the wallet is new) and the
    keys, and stored under the public spend key of the address, which is
    the only public spend key; it is a view wallet exactly when no private
    spend key is given; it has no transactions; every public spend key has
    its subwallet and the invariant on the hashes holds. *)
Theorem SubWallets_new_spec (address : string) (scanHeight : number) (newWallet : bool)
    (privateViewKey : string) (privateSpendKey : option string) :
  (forall message : string,
     decodeAddress address = Throw message ->
     new address scanHeight newWallet privateViewKey privateSpendKey
     = Throw message)
  /\ (forall publicKeys : DecodedAddress.t,
        decodeAddress address = Return publicKeys ->
        exists wallet : SubWallets.t,
          new address scanHeight newWallet privateViewKey privateSpendKey
          = Return wallet
          /\ SubWallets.getPublicSpendKeys wallet
             = [DecodedAddress.publicSpendKey publicKeys]
          /\ JsMap.keys (SubWallets.subWallets wallet)
             = [DecodedAddress.publicSpendKey publicKeys]
          /\ JsMap.get (DecodedAddress.publicSpendKey publicKeys)
               (SubWallets.subWallets wallet)
             = Some (newSubWallet address scanHeight
                       (if newWallet then getCurrentTimestampAdjusted
                        else 0%float)
                       (DecodedAddress.publicSpendKey publicKeys)
                       privateSpendKey)
          /\ (SubWallets.isViewWallet wallet = true
              <-> privateSpendKey = None)
          /\ SubWallets.getPrivateViewKey wallet = privateViewKey
          /\ SubWallets.transactions wallet = []
          /\ SubWallets.getLockedTransactionHashes wallet = []
          /\ keysKnown wallet
          /\ transactionsInvariant wallet).
Proof.
  unfold SubWalletsConstructor.new. split.
  - intros message ->. reflexivity.
  - intros publicKeys ->. eexists. split; [reflexivity|]. simpl.
    rewrite String.eqb_refl.
    split; [reflexivity|]. split; [reflexivity|]. split; [reflexivity|].
    split; [destruct privateSpendKey; split; congruence|].
    split; [reflexivity|]. split; [reflexivity|]. split; [reflexivity|].
    split.
    + intros key [<-|[]]. simpl. rewrite String.eqb_refl. discriminate.
    + split; [constructor|intros hash []].
Qed.

End ConstructorProperties.

Section GetterProperties.
Variable subWalletIsPrimaryAddress : SubWallet.t -> bool.
Variable subWalletGetAddress : SubWallet.t -> string.
Variable subWalletGetPrivateSpendKey : SubWallet.t -> string.

Local Abbreviation getPrimarySubWallet :=
  (SubWallets.getPrimarySubWallet subWalletIsPrimaryAddress).
Local Abbreviation getPrimaryAddress :=
  (SubWallets.getPrimaryAddress subWalletIsPrimaryAddress subWalletGetAddress).
Local Abbreviation getPrimaryPrivateSpendKey :=
  (SubWallets.getPrimaryPrivateSpendKey subWalletIsPrimaryAddress
     subWalletGetPrivateSpendKey).
Local Abbreviation getAddresses :=
  (SubWallets.getAddresses subWalletGetAddress).
Local Abbreviation getPrivateSpendKey :=
  (SubWallets.getPrivateSpendKey subWalletGetPrivateSpendKey).

Lemma findPrimarySubWallet_cases (entries : list (string * SubWallet.t)) :
  (SubWallets.findPrimarySubWallet subWalletIsPrimaryAddress entries
   = Throw "Wallet has no primary address!"
   /\ Forall (fun entry => subWalletIsPrimaryAddress (snd entry) = false)
             entries)
  \/ exists (before : list (string * SubWallet.t))
            (entry : string * SubWallet.t)
            (rest : list (string * SubWallet.t)),
       entries = before ++ entry :: rest
       /\ Forall (fun entry => subWalletIsPrimaryAddress (snd entry) = false)
                 before
       /\ subWalletIsPrimaryAddress (snd entry) = true
       /\ SubWallets.findPrimarySubWallet subWalletIsPrimaryAddress entries
          = Return (snd entry).
Proof.
  induction entries as [|[key subWallet] entries IH]; simpl.
  - left. split; [reflexivity|constructor].
  - destruct (subWalletIsPrimaryAddress subWallet) eqn:Hprimary.
    + right. exists [], (key, subWallet), entries.
      repeat split; [constructor|exact Hprimary].
    + destruct IH as [[Hthrow Hnone]|(before & entry & rest & -> & H1 & H2 & H3)].
      * left. split; [exact Hthrow|now constructor].
      * right. exists ((key, subWallet) :: before), entry, rest.
        repeat split; [now constructor|exact H2|exact H3].
Qed.

Lemma getAddresses_map (entries : list (string * SubWallet.t))
    (addresses : list string) :
  fold_left
    (fun addresses entry => addresses ++ [subWalletGetAddress (snd entry)])
    entries addresses
  = addresses ++ map subWalletGetAddress (JsMap.values entries).
Proof.
  revert addresses. induction entries as [|entry entries IH];
    intros addresses; simpl; [now rewrite app_nil_r|].
  now rewrite IH, <- app_assoc.
Qed.

(** X19. [getPrimarySubWallet] returns the first subwallet of the map, in the
    order of insertion, that says it is the primary one, and throws
    ['Wallet has no primary address!'] exactly when none does.
    [getPrimaryAddress] and [getPrimaryPrivateSpendKey] return that
    subwallet's address and key and throw in the same case; the primary
    address is one of [getAddresses()], which has the address of each
    subwallet in the order of the map. [getPrivateSpendKey] reports [ADDRESS_NOT_IN_WALLET] exactly for the
    keys that are not in the map. *)
Theorem getPrimarySubWallet_spec (this : SubWallets.t) :
  ((exists message : string, getPrimarySubWallet this = Throw message)
   <-> Forall (fun subWallet => subWalletIsPrimaryAddress subWallet = false)
              (JsMap.values (SubWallets.subWallets this)))
  /\ (forall message : string,
        getPrimarySubWallet this = Throw message ->
        message = "Wallet has no primary address!"%string
        /\ getPrimaryAddress this = Throw message
        /\ getPrimaryPrivateSpendKey this = Throw message)
  /\ (forall subWallet : SubWallet.t,
        getPrimarySubWallet this = Return subWallet ->
        (exists (before rest : list (string * SubWallet.t))
                (publicKey : string),
           SubWallets.subWallets this
           = before ++ (publicKey, subWallet) :: rest
           /\ Forall (fun entry =>
                        subWalletIsPrimaryAddress (snd entry) = false) before
           /\ subWalletIsPrimaryAddress subWallet = true)
        /\ getPrimaryAddress this = Return (subWalletGetAddress subWallet)
        /\ getPrimaryPrivateSpendKey this
           = Return (subWalletGetPrivateSpendKey subWallet)
        /\ In (subWalletGetAddress subWallet) (getAddresses this))
  /\ getAddresses this
     = map subWalletGetAddress (JsMap.values (SubWallets.subWallets this))
  /\ (forall publicSpendKey : string,
        errorCode (fst (getPrivateSpendKey publicSpendKey this))
        = WalletErrorCode.ADDRESS_NOT_IN_WALLET
        <-> ~ In publicSpendKey (JsMap.keys (SubWallets.subWallets this))).
Proof.
  unfold SubWallets.getPrimaryAddress, SubWallets.getPrimaryPrivateSpendKey,
    SubWallets.getPrimarySubWallet, SubWallets.getAddresses.
  assert (Haddresses :
            fold_left
              (fun addresses entry =>
                 addresses ++ [subWalletGetAddress (snd entry)])
              (SubWallets.subWallets this) []
            = map subWalletGetAddress
                (JsMap.values (SubWallets.subWallets this))).
  { now rewrite getAddresses_map. }
  rewrite Haddresses.
  assert (Hkey : forall publicSpendKey : string,
             errorCode (fst (getPrivateSpendKey publicSpendKey this))
             = WalletErrorCode.ADDRESS_NOT_IN_WALLET
             <-> ~ In publicSpendKey
                      (JsMap.keys (SubWallets.subWallets this))).
  { intros publicSpendKey. rewrite <- get_None_keys.
    unfold SubWallets.getPrivateSpendKey.
    destruct (JsMap.get publicSpendKey (SubWallets.subWallets this));
      simpl; split; congruence. }
  destruct (findPrimarySubWallet_cases (SubWallets.subWallets this))
    as [[Hthrow Hnone]|(before & [key found] & rest & Hentries & H1 & H2 & H3)].
  - rewrite Hthrow. split; [|split; [|split; [|split]]].
    + split; [intros _|intros _; eexists; reflexivity].
      unfold JsMap.values. apply Forall_map. exact Hnone.
    + intros message [= <-]. repeat split.
    + intros subWallet [=].
    + reflexivity.
    + exact Hkey.
  - rewrite H3. simpl in *. split; [|split; [|split; [|split]]].
    + split; [intros [message [=]]|]. intros Hnone. exfalso.
      rewrite Hentries in Hnone. unfold JsMap.values in Hnone.
      rewrite map_app in Hnone. apply Forall_app in Hnone.
      destruct Hnone as [_ Hnone]. inversion Hnone as [|? ? Hfound _].
      simpl in Hfound. congruence.
    + intros message [=].
    + intros subWallet [= <-]. split.
      * exists before, rest, key. now repeat split.
      * split; [reflexivity|]. split; [reflexivity|].
        apply in_map. rewrite Hentries. unfold JsMap.values.
        rewrite map_app. apply in_or_app. right. now left.
    + reflexivity.
    + exact Hkey.
Qed.

End GetterProperties.

(** ** SubWallets: a sequence of calls on the sample wallet *)

Lemma Sample_wallet_invariants :
  keysKnown (Sample.wallet []) /\ transactionsInvariant (Sample.wallet []).
Proof.
  split; [|split]; simpl.
  - intros key [<-|[<-|[]]]; discriminate.
  - repeat constructor; simpl; intros H;
      repeat (destruct H as [H|H]; try discriminate H); exact H.
  - intros hash H1 H2.
    repeat (destruct H1 as [H1|H1]; try contradiction);
      subst hash;
      repeat (destruct H2 as [H2|H2]; try discriminate H2); exact H2.
Qed.

(** The sample wallet after the sample calls, two of which throw: the
    balance is the 5 of [spendB] and the 40 stored in [spendA]. *)
Lemma mutations_keep_invariants_witness :
  keysKnown (Sample.wallet [])
  /\ transactionsInvariant (Sample.wallet [])
  /\ transactionsInvariant
       (fold_left
          (fun wallet call =>
             SubWallets.mutate Sample.subWalletStoreTransactionInput
               Sample.subWalletMarkInputAsSpent
               Sample.subWalletRemoveCancelledTransaction
               Sample.subWalletConvertSyncTimestampToHeight call wallet)
          Sample.calls (Sample.wallet []))
  /\ SubWallets.getBalance Sample.config Sample.nowSeconds 130%float None
       (fold_left
          (fun wallet call =>
             SubWallets.mutate Sample.subWalletStoreTransactionInput
               Sample.subWalletMarkInputAsSpent
               Sample.subWalletRemoveCancelledTransaction
               Sample.subWalletConvertSyncTimestampToHeight call wallet)
          Sample.calls (Sample.wallet []))
     = Return (45%float, 0%float).
Proof.
  split; [exact (proj1 Sample_wallet_invariants)|].
  split; [exact (proj2 Sample_wallet_invariants)|].
  split; [|reflexivity].
  exact (proj1 (proj2 (proj2 (proj2
           (mutations_keep_invariants Sample.subWalletStoreTransactionInput
              Sample.subWalletMarkInputAsSpent
              Sample.subWalletRemoveCancelledTransaction
              Sample.subWalletConvertSyncTimestampToHeight
              Sample.config Sample.nowSeconds 130%float Sample.calls
              (Sample.wallet [])))))
           (proj2 Sample_wallet_invariants)).
Defined.
